(* ===== verification/_CoqProject ===== *)
-Q . S2P
Prelude.v
Entities.v
Repository.v
MoviesService.v
SyncRuns.v
Timespan.v
Crypto.v
AuthService.v
AccessControl.v
Boundary.v
Logging.v
Pipes.v
App.v
Wiring.v
Schedule.v
