(* ===== verification/Prelude.v ===== *)
(** * A verification development of the conexa-challenge movies API

    ** The program

    The repository is a NestJS web API over PostgreSQL (TypeORM).  Its
    parts, and how they call one another:
    - the entities [User] and [Movie] ([src/common/entities]): tables with a
      generated uuid key and one [@Unique] column ([username], [title]);
    - [AuthService] ([src/modules/auth/auth.service.ts]): [register] hashes
      the password with bcrypt and inserts the user (a unique violation,
      SQLSTATE 23505, becomes a 409); [login] finds the user by username,
      compares the password and signs an access and a refresh JWT with two
      secrets from the configuration; [refreshToken] signs a new access
      token for the payload of a verified refresh token;
    - the passport-jwt strategies ['auth'] and ['refresh']
      ([src/common/strategies]) verify the bearer token with the access or
      the refresh secret; [AuthApi(...roles)] ([src/common/guards]) stacks
      the authentication guard and the roles guard on a route;
    - [MoviesService] ([src/modules/movies/movies.service.ts]): the job
      [syncronize] (at bootstrap and every 30 minutes) fetches the SWAPI film
      list and saves every film through [Promise.all], skipping duplicates;
      and [findAll], [findOne], [create], [update], [remove];
    - the controllers bind the routes to these methods behind their guards;
      [ExceptionsFilter] turns every uncaught error into
      [{status, message, path, method}] and logs it; [LoggerInterceptor]
      logs each request that passed its guards, without the body's password.

    ** Files, and what models what
    - [Prelude.v] (this file): the service monad [M S E A] (state and
      errors; the state survives a [throw], as committed writes do),
      [catch_err] for [try]/[catch], [promise_all] and [settle_all] for
      [Promise.all] over already started tasks, [preserves] and
      [preserves_tac] for invariants of computations, [star] for
      transition sequences and determinism, sorting by a key
      ([ORDER BY ... ASC]); hint databases [svc] and [svc_rw].
    - [Entities.v]: [Roles], [User], [Movie], the DTOs (the request bodies
      as received, with the [id] a client may add), the thrown error
      objects [JsError] and the exceptions [Exn].
    - [Repository.v]: TypeORM's [Repository] over a table (modelled from its
      documented behaviour, it is not in [src/]): [repo_save],
      [repo_findOneBy], [repo_find], [repo_update], [repo_delete]; the
      interfaces [Entity] (key and unique column of a row type) and
      [UuidGen] (the key generator, [gen_key] a key not in use); [save] of
      an entity with its key as an update-or-insert of that key; the oracle
      [fault] of database failures; the integrity [table_wf] and its
      preservation.
    - [MoviesService.v]: [MoviesService], method by method; [syncronize] is
      [promise_all] of the per-film tasks [sync_one] over the table and the
      local array [movies]; [MoviesServiceSpec] states what the job
      promises ([fresh_films]).
    - [SyncRuns.v]: overlapping runs of the job: the tasks of all runs in
      any order the database serialises them in ([run_schedule]), with one
      [movies] array per run.
    - [Timespan.v]: the [ms] parser that [jsonwebtoken] applies to
      [expiresIn] ([Ms.parse], [Ms.timespan]: seconds, rounded down).
    - [Crypto.v]: the interfaces [Bcrypt] and [JwtLib] with their laws, the
      library semantics of [jwt_sign] and [jwt_verify] (iat, exp read by
      [Ms.timespan], expired when [now >= exp]), and evaluation instances.
    - [AuthService.v]: the configuration [Envs] and [AuthService]'s
      [register], [login], [refreshToken].
    - [AccessControl.v]: bearer extraction, the strategies' [authenticate],
      the roles guard, [AuthApi], [RefreshGuard]; the spec's per-request
      state machine [ac_step] with the secret the spec names per token
      kind ([spec_secret]), and the refinement [guards_refine] of one
      guard chain.
    - [Boundary.v]: [ExceptionsFilter.catch] and [LoggerInterceptor.log].
    - [Logging.v]: [winstonConfig] ([src/winston.config.ts]): npm levels,
      the three transports and which entries each writes.
    - [Pipes.v]: [ParseUUIDPipe] on the [:id] routes, and the regular
      expression it implements.
    - [App.v]: the routes, [controller] and [handle] (guards, interceptor,
      [ParseUUIDPipe], handler, filter, in NestJS's order), the log stream
      winston receives, the steps of the application [app_step] (a request,
      or a run of the job) and the reachable states; the spec's route
      table ([spec_route_access]) against [route_guards].
    - [Wiring.v]: the module graph of [app.module.ts] and [auth.module.ts],
      the classes' constructor dependencies, NestJS's scan and visibility
      rule, the global filter and interceptor.
    - [Schedule.v]: when [syncronize] starts: at bootstrap and at every
      tick of ['0 */30 * * * *'].

    ** What is proved
    - Integrity: every repository write keeps [table_wf]; every service
      method keeps it; every state reachable from the empty database keeps
      both tables well formed with hashed passwords ([reachable_inv]) and
      never has a password in its info log ([reachable_sanitized]); every
      entry of [errors.log] is an error response and every request that
      passed its guards is in [info.log] ([reachable_log_files]).
    - Auth: duplicate registration is a Conflict and adds no row; a new
      user is stored with the bcrypt hash and returned without password;
      login distinguishes NotFound and Unauthorized; a successful login
      returns exactly the two tokens signed with the two secrets, expiring
      after the configured spans read by [ms] ([access_token_expiration]);
      these are not interchangeable between the guards; refresh keeps
      [{id, role}].  These hold for bodies without [id]; a body with the
      [id] of a stored user overwrites that user ([register_overwrites]).
    - Movies: without database faults the job fulfils its contract
      whatever the order of its saves: it adds exactly one row per fetched
      title not yet stored, returns exactly those rows, and keeps the table
      well formed ([syncronize_spec]); it is idempotent; [findAll] is
      sorted by episode and a permutation of the table; [create]/[findOne]
      round trip; every error path of [create], [remove], [update] gives
      its exception and leaves the table as is.  Overlapping runs in any
      interleaving keep the table well formed, store each title once and
      return each inserted row from exactly one run ([sync_runs_safe],
      [sync_runs_returned_once]).
    - Access control: on every route the guards [route_guards] runs
      implement the spec's route table and per-request state machine with
      the secret the spec names for the token kind ([route_guards_refine]);
      a login's access token is refused by the refresh guard and the other
      way round.
    - Boundary: a non-UUID [:id] is a 400 before the service runs
      ([id_routes_reject_non_uuid]); every error response is logged as
      sent ([handle_error_log]).
    - Wiring: every dependency of every class resolves in the modules
      NestJS scans, and the global enhancers are the filter and the
      interceptor ([app_module_bootstraps]).
    - Schedule: the cron expression fires exactly at the multiples of 1800
      seconds; a run starts within every 30 minutes
      ([sync_starts_every_30_minutes]); a run longer than the time to the
      next tick overlaps another ([sync_run_overlaps]).
    - Findings proved as theorems: the job keeps inserting after a failure;
      [update] of a missing id answers [null]; [PATCH] to a duplicate title
      answers 500 with the raw database error as message; equal secrets
      let an access token
      refresh; a successful [POST] answers 201; an expiration without unit
      is milliseconds ([login_unitless_expiration]); anyone may register
      as [ADMIN] through [POST /auth/register], whatever header the request
      carries, and then pass every admin route's guards
      ([self_registered_admin]);
      a body carrying an existing user's [id] takes over that account
      ([register_overwrites]), and one carrying a movie's [id] replaces it
      without a Conflict ([create_overwrites]).

    ** Bounds and effects chosen
    Two recursions take fuel, each with a bound that is always enough:
    [free_key_from] tries [S (size rows)] keys, one of which is free since
    the keys tried are distinct ([gen_key_free]); the module scan takes
    one round per module of the application (nine), and is shown to
    compute the closure of the import relation ([app_modules_spec]).
    Integers are [Z] (JavaScript numbers used
    as integers: [episode_id], times in seconds); no width is relevant to
    the code.  [ms] computes with floating point; [Ms.timespan] computes the
    same value exactly as a rational and rounds down as
    [Math.floor(ms / 1000)] does; it differs from JavaScript only where
    binary floating point rounds across an integer number of seconds.  The
    environment of a request (clock, database failures, the film API's
    answer) is an input [Env]; theorems of success take [no_faults], the
    others hold for every failure oracle.  A single run's tasks complete in
    list order in [MoviesService.v]; [SyncRuns.v] covers every order.

    ** Not modelled
    The string forms of the [Authorization] header and of a JWT (a token is
    its decoded claims and signature); bcrypt's and HMAC's algorithms (laws
    only); DTO validation: the class-validator decorators of the DTOs take
    effect only under a [ValidationPipe], and none is registered in [src/]
    ([main.ts], where [useGlobalPipes] would be, is not in the repository),
    so the model passes the body as it arrives (of the properties a client
    may add, only [id] is modelled; a missing property is one of the
    database's failures); winston's JSON and timestamp rendering; Swagger
    metadata; the TypeORM connection and schema synchronisation; the
    calendar fields of cron expressions (['*'] in the one the code uses);
    the unit tests (Jest with mocks, whose expectations are theorems
    here).  [MoviesModule], [UpdateMovieDto] and the guard classes'
    files are imported but absent from the repository.  The guard classes
    [AuthenticationGuard], [RefreshGuard] and [RolesGuard] are not in
    [src/]: they follow the spec (a role outside the route's roles is a
    401); with [roles.guard.ts] absent, the model compares roles by
    membership, as section 4.3 does, so the table's "role >= standard" of
    [GET /movies/:id] is read as the role [STANDARD].

    ** Left for later
    The [Authorization] header string and the JWT compact encoding, with a
    decode/encode round trip; [PATCH] bodies that carry an [id] (TypeORM's
    [update] would change the row's key).
*)

From stdpp Require Export base gmap strings list pretty sorting.
From Stdlib Require Export ZArith Sorted Permutation.

(** ** Results and the service monad *)

(** A settled promise: fulfilled with a value or rejected with an error. *)
Inductive result (E A : Type) : Type :=
| Ok (a : A)
| Err (e : E).
Arguments Ok {E A} a.
Arguments Err {E A} e.

(** A computation over a state [S] that may throw [E].  The state is
    returned in both cases: effects performed before a [throw] stay. *)
Definition M (S E A : Type) : Type := S -> S * result E A.

Definition mret {S E A} (a : A) : M S E A := fun s => (s, Ok a).

Definition mbind {S E A B} (m : M S E A) (k : A -> M S E B) : M S E B :=
  fun s =>
    match m s with
    | (s', Ok a) => k a s'
    | (s', Err e) => (s', Err e)
    end.

Definition throw {S E A} (e : E) : M S E A := fun s => (s, Err e).

(** [try { m } catch (e) { h(e) }] *)
Definition catch_err {S E A} (m : M S E A) (h : E -> M S E A) : M S E A :=
  fun s =>
    match m s with
    | (s', Err e) => h e s'
    | r => r
    end.

Definition get_st {S E} : M S E S := fun s => (s, Ok s).
Definition put_st {S E} (s : S) : M S E unit := fun _ => (s, Ok tt).

(** Run a computation that cannot fail on its state. *)
Definition modify_st {S E} (f : S -> S) : M S E unit := fun s => (f s, Ok tt).

(** Run a computation on the first component of a pair state. *)
Definition zoom_fst {S T E A} (m : M S E A) : M (S * T) E A :=
  fun st => let '(s', r) := m st.1 in ((s', st.2), r).

(** [let x = init; m] : a local variable that lives for the duration of [m]. *)
Definition with_local {S L E A} (init : L) (m : M (S * L) E A) : M S E A :=
  fun s => let '(st, r) := m (s, init) in (st.1, r).

Definition get_local {S L E} : M (S * L) E L := fun st => (st, Ok st.2).

(** [array.push(x)] on a local array. *)
Definition push_local {S A E} (x : A) : M (S * list A) E unit :=
  fun st => ((st.1, st.2 ++ [x]), Ok tt).

(** An already settled promise. *)
Definition from_result {S E A} (r : result E A) : M S E A := fun s => (s, r).

(** [await Promise.all(tasks)] where every task has been started: each task
    runs to completion (its effects happen whether or not another task
    rejects); the combined promise rejects with the first rejection, else
    fulfils with all values.  Tasks complete in list order. *)
Fixpoint settle_all {S E A} (ms : list (M S E A)) (s : S) : S * list (result E A) :=
  match ms with
  | [] => (s, [])
  | m :: ms' =>
      let '(s1, r) := m s in
      let '(s2, rs) := settle_all ms' s1 in
      (s2, r :: rs)
  end.

Fixpoint first_rejection {E A} (rs : list (result E A)) : result E (list A) :=
  match rs with
  | [] => Ok []
  | Ok a :: rs' =>
      match first_rejection rs' with
      | Ok l => Ok (a :: l)
      | Err e => Err e
      end
  | Err e :: _ => Err e
  end.

Definition promise_all {S E A} (ms : list (M S E A)) : M S E (list A) :=
  fun s => let '(s', rs) := settle_all ms s in (s', first_rejection rs).

(** [f <$$> m]: map the value of a computation. *)
Definition mmap {S E A B} (f : A -> B) (m : M S E A) : M S E B :=
  fun s => match m s with (s', Ok a) => (s', Ok (f a)) | (s', Err e) => (s', Err e) end.
Notation "f <$$> m" := (mmap f m) (at level 61, left associativity).

Declare Scope svc_scope.
Delimit Scope svc_scope with svc.

Notation "x <- c1 ;; c2" := (mbind c1 (fun x => c2))
  (at level 100, c1 at next level, right associativity) : svc_scope.
Notation "c1 ;; c2" := (mbind c1 (fun _ => c2))
  (at level 100, right associativity) : svc_scope.

(** ** Hint database of the development *)

Create HintDb svc discriminated.
Create Rewrite HintDb svc_rw.

(** ** Monad lemmas *)

Section MonadLaws.
Context {S E : Type}.

Lemma mbind_ret_l {A B} (a : A) (k : A -> M S E B) s :
  mbind (mret a) k s = k a s.
Proof. reflexivity. Qed.

Lemma mbind_throw {A B} (e : E) (k : A -> M S E B) s :
  mbind (throw e) k s = (s, Err e).
Proof. reflexivity. Qed.

Lemma mbind_assoc {A B C} (m : M S E A) (k : A -> M S E B) (h : B -> M S E C) s :
  mbind (mbind m k) h s = mbind m (fun a => mbind (k a) h) s.
Proof. unfold mbind. destruct (m s) as [s' [a|e]]; reflexivity. Qed.

Lemma mbind_ok {A B} (m : M S E A) (k : A -> M S E B) s s' a :
  m s = (s', Ok a) -> mbind m k s = k a s'.
Proof. intros H. unfold mbind. by rewrite H. Qed.

Lemma mbind_err {A B} (m : M S E A) (k : A -> M S E B) s s' e :
  m s = (s', Err e) -> mbind m k s = (s', Err e).
Proof. intros H. unfold mbind. by rewrite H. Qed.

Lemma catch_ok {A} (m : M S E A) h s s' a :
  m s = (s', Ok a) -> catch_err m h s = (s', Ok a).
Proof. intros H. unfold catch_err. by rewrite H. Qed.

Lemma catch_err_err {A} (m : M S E A) h s s' e :
  m s = (s', Err e) -> catch_err m h s = h e s'.
Proof. intros H. unfold catch_err. by rewrite H. Qed.
End MonadLaws.

#[export] Hint Rewrite @mbind_ret_l @mbind_throw @mbind_assoc : svc_rw.

(** ** [Promise.all] lemmas *)

Section PromiseAll.
Context {S E A : Type}.

(** A property of the state that every task preserves holds after all. *)
Lemma settle_all_inv (P : S -> Prop) (ms : list (M S E A)) s :
  Forall (fun m => forall s s' r, P s -> m s = (s', r) -> P s') ms ->
  P s -> P (settle_all ms s).1.
Proof.
  induction 1 as [|m ms Hm Hms IH] in s |- *; simpl; [done|]. intros Hs.
  destruct (m s) as [s1 r] eqn:Hrun.
  destruct (settle_all ms s1) as [s2 rs] eqn:Hrest.
  simpl. change s2 with (s2, rs).1. rewrite <- Hrest. eauto.
Qed.

(** Tasks that leave the state alone and fulfil with [a]. *)
Lemma settle_all_noop (ms : list (M S E A)) s a :
  Forall (fun m => m s = (s, Ok a)) ms ->
  settle_all ms s = (s, map (fun _ => Ok a) ms).
Proof. induction 1 as [|m ms Hm _ IH]; simpl; [done|]. by rewrite Hm, IH. Qed.

Lemma first_rejection_const {B} (l : list B) (a : A) :
  first_rejection (map (fun _ => Ok a) l : list (result E A)) = Ok (map (fun _ => a) l).
Proof. induction l; simpl; [done|]. by rewrite IHl. Qed.
End PromiseAll.

(** Unfold the monad's combinators and evaluate matches. *)
Ltac run_m :=
  repeat (unfold mbind, mret, throw, catch_err, get_st, put_st, modify_st in *;
          simpl in *).

(** Prove a decidable proposition about concrete values by evaluation. *)
Ltac by_decide := apply (bool_decide_unpack _); vm_compute; reflexivity.

(** Case on the outcome of a computation [m s] appearing in the goal. *)
Ltac case_run m s :=
  let E := fresh "Hrun" in
  destruct (m s) as [?s [?a | ?e]] eqn:E.

(** ** Invariants of computations *)

(** [m] keeps [P]: from a state satisfying [P] it ends in one, on success
    and on failure alike. *)
Definition preserves {S E A} (P : S -> Prop) (m : M S E A) : Prop :=
  forall s s' r, P s -> m s = (s', r) -> P s'.

#[export] Hint Opaque preserves : svc.

Section Preserves.
Context {S E : Type} (P : S -> Prop).

Lemma preserves_ret {A} (a : A) : preserves P (mret (E:=E) a).
Proof. by intros ??? ? [= <- _]. Qed.

Lemma preserves_throw {A} (e : E) : preserves P (throw (A:=A) e).
Proof. by intros ??? ? [= <- _]. Qed.

Lemma preserves_from_result {A} (r : result E A) : preserves P (from_result r).
Proof. by intros ??? ? [= <- _]. Qed.

Lemma preserves_bind {A B} (m : M S E A) (k : A -> M S E B) :
  preserves P m -> (forall a, preserves P (k a)) -> preserves P (mbind m k).
Proof.
  intros Hm Hk s s' r Hs. unfold mbind.
  destruct (m s) as [s1 [a|e]] eqn:Hrun.
  - apply Hk. exact (Hm _ _ _ Hs Hrun).
  - intros [= <- _]. exact (Hm _ _ _ Hs Hrun).
Qed.

Lemma preserves_catch {A} (m : M S E A) (h : E -> M S E A) :
  preserves P m -> (forall e, preserves P (h e)) -> preserves P (catch_err m h).
Proof.
  intros Hm Hh s s' r Hs. unfold catch_err.
  destruct (m s) as [s1 [a|e]] eqn:Hrun.
  - intros [= <- _]. exact (Hm _ _ _ Hs Hrun).
  - apply Hh. exact (Hm _ _ _ Hs Hrun).
Qed.

Lemma preserves_mmap {A B} (f : A -> B) (m : M S E A) :
  preserves P m -> preserves P (mmap f m).
Proof.
  intros Hm s s' r Hs. unfold mmap.
  destruct (m s) as [s1 [a|e]] eqn:Hrun; intros [= <- _]; exact (Hm _ _ _ Hs Hrun).
Qed.

(** A computation that returns its state unchanged keeps everything. *)
Lemma preserves_readonly {A} (m : M S E A) :
  (forall s s' r, m s = (s', r) -> s' = s) -> preserves P m.
Proof. intros Hro s s' r Hs Hrun. by rewrite (Hro _ _ _ Hrun). Qed.
End Preserves.

#[export] Hint Resolve preserves_ret preserves_throw preserves_from_result
  preserves_bind preserves_catch preserves_mmap : svc.

(** Decompose a computation built from the combinators and close the
    leaves with the [svc] hints. *)
Ltac preserves_tac :=
  repeat first
    [ match goal with |- forall _, _ => intro end
    | apply preserves_bind | apply preserves_catch | apply preserves_mmap
    | apply preserves_ret | apply preserves_throw | apply preserves_from_result
    | match goal with |- preserves _ (match ?x with _ => _ end) => destruct x end
    | match goal with |- preserves _ (if ?b then _ else _) => destruct b end
    | solve [eauto with svc] ].

(** ** Transition sequences *)

Section Star.
Context {A : Type} (step : A -> A -> Prop).

Inductive star : A -> A -> Prop :=
| star_refl a : star a a
| star_step a b c : step a b -> star b c -> star a c.

Definition irreducible (a : A) : Prop := forall b, ~ step a b.

Definition deterministic : Prop := forall a b c, step a b -> step a c -> b = c.

Lemma star_one a b : step a b -> star a b.
Proof. intros. eapply star_step; [done|constructor]. Qed.

Lemma star_trans a b c : star a b -> star b c -> star a c.
Proof. induction 1; [done|]. intros. eapply star_step; eauto. Qed.

(** A property kept by every step holds along every sequence. *)
Lemma star_inv (P : A -> Prop) :
  (forall a b, P a -> step a b -> P b) -> forall a b, star a b -> P a -> P b.
Proof. intros Hstep a b Hab. induction Hab; eauto. Qed.

(** In a deterministic system a state reaches at most one irreducible state. *)
Lemma star_det_irreducible a b c :
  deterministic -> star a b -> star a c -> irreducible b -> irreducible c -> b = c.
Proof.
  intros Hdet Hab. revert c. induction Hab as [a|a a' b Ha Hab IH]; intros c Hac Hb Hc.
  - inversion Hac as [|? a' ? Ha]; [done|]. by apply Hb in Ha.
  - inversion Hac as [|? a'' ? Ha' Hac']; subst; [by apply Hc in Ha|].
    rewrite (Hdet _ _ _ Ha Ha') in IH. by apply IH.
Qed.
End Star.

#[export] Hint Constructors star : svc.

(** ** Sorting by a key, the order of [ORDER BY key ASC] *)

Section SortBy.
Context {A : Type} (key : A -> Z).

Definition key_le (x y : A) : Prop := (key x <= key y)%Z.

Fixpoint insert_by (x : A) (l : list A) : list A :=
  match l with
  | [] => [x]
  | y :: l' => if Z.leb (key x) (key y) then x :: y :: l' else y :: insert_by x l'
  end.

Fixpoint sort_by (l : list A) : list A :=
  match l with
  | [] => []
  | x :: l' => insert_by x (sort_by l')
  end.

Lemma insert_by_perm x l : Permutation (insert_by x l) (x :: l).
Proof.
  induction l as [|y l IH]; simpl; [done|].
  destruct (Z.leb _ _); [done|].
  rewrite IH. apply perm_swap.
Qed.

Lemma sort_by_perm l : Permutation (sort_by l) l.
Proof.
  induction l as [|x l IH]; simpl; [done|].
  rewrite insert_by_perm, IH. done.
Qed.

Lemma insert_by_sorted x l :
  Sorted key_le l -> Sorted key_le (insert_by x l).
Proof.
  unfold key_le. induction 1 as [|y l Hs IH Hhd]; simpl.
  - repeat constructor.
  - destruct (Z.leb_spec (key x) (key y)).
    + repeat constructor; done.
    + constructor; [done|].
      destruct l as [|z l]; simpl in *.
      * constructor. lia.
      * inversion Hhd; subst. destruct (Z.leb_spec (key x) (key z));
          constructor; lia.
Qed.

Lemma sort_by_sorted l : Sorted key_le (sort_by l).
Proof. induction l; simpl; [constructor|]. by apply insert_by_sorted. Qed.
End SortBy.

(** ** Lists of lists indexed by position *)

Lemma concat_replicate_nil {A} n : concat (replicate n ([] : list A)) = [].
Proof. induction n; simpl; congruence. Qed.

(** Appending [x] to the list at position [i] adds [x] to the flattening. *)
Lemma concat_insert_snoc {A} (ls : list (list A)) i l x :
  ls !! i = Some l -> concat (<[i := l ++ [x]]> ls) ≡ₚ x :: concat ls.
Proof.
  intros Hi. rewrite insert_take_drop by (eapply lookup_lt_Some; eauto).
  transitivity (x :: concat (take i ls ++ l :: drop (S i) ls));
    [|by rewrite take_drop_middle].
  rewrite !concat_app. simpl. solve_Permutation.
Qed.

#[export] Hint Resolve sort_by_sorted sort_by_perm : svc.
