(* ===== verification/Entities.v ===== *)
(** * Entities, DTOs and errors

    The data of the program: the [Roles] enum ([roles-auth.guard.ts]), the
    [User] and [Movie] entities ([common/entities]), the request DTOs
    ([auth/dtos], [movies/dtos]), the error object a failed query rejects
    with, and the exceptions the services throw ([@nestjs/common]'s
    [HttpException] family, or any other thrown value). *)

From S2P Require Import Prelude.

(** ** Roles ([src/common/guards/roles-auth.guard.ts]) *)

Inductive Roles := ADMIN | STANDARD.

#[export] Instance Roles_eq_dec : EqDecision Roles.
Proof. solve_decision. Defined.

(** The enum's string values, which are what the [role] column stores and
    what the JWT payload carries. *)
Definition role_value (r : Roles) : string :=
  match r with ADMIN => "admin" | STANDARD => "standard" end.

(** ** The [User] entity ([src/common/entities/user.entity.ts]).  The
    [password] column is [@Exclude()]d: an instance built by
    [plainToInstance] has no [password], which is [None] here. *)
Record User := mkUser {
  user_id : string;
  username : string;
  password : option string;
  role : Roles;
}.

(** ** The [Movie] entity ([src/common/entities/movie.entity.ts]) *)
Record Movie := mkMovie {
  movie_id : string;
  title : string;
  episode_id : Z;
  opening_crawl : string;
  director : string;
  producer : string;
  release_date : string;
}.

(** ** DTOs

    A DTO class is only the type of [@Body()]: no [ValidationPipe] is
    registered in [src/], so the handler receives the JSON object of the
    request as sent, and the services spread it ([{ ...dto }]) or pass it
    ([save(dto)]) to the repository whole.  Of the properties a client may
    add, the one that changes what the code does is the entity's key [id]:
    the records carry it as an optional field ([None]: the body has no
    [id]). *)

(** [RegisterDTO] ([auth/dtos/register.dto.ts]) *)
Record RegisterDTO := mkRegisterDTO {
  reg_username : string;
  reg_password : string;
  reg_role : Roles;
  reg_id : option string;
}.

(** [LoginDTO] ([auth/dtos/login.dto.ts]) *)
Record LoginDTO := mkLoginDTO {
  login_username : string;
  login_password : string;
}.

(** [CreateMovieDto] ([movies/dtos/create-movie.dto.ts]): a movie's
    columns, and the [id] the body may carry. *)
Record CreateMovieDto := mkCreateMovieDto {
  dto_title : string;
  dto_episode_id : Z;
  dto_opening_crawl : string;
  dto_director : string;
  dto_producer : string;
  dto_release_date : string;
  dto_id : option string;
}.

(** [UpdateMovieDto]: every field of [CreateMovieDto], optional (the
    [PartialType] of it). *)
Record UpdateMovieDto := mkUpdateMovieDto {
  upd_title : option string;
  upd_episode_id : option Z;
  upd_opening_crawl : option string;
  upd_director : option string;
  upd_producer : option string;
  upd_release_date : option string;
}.

(** ** Errors *)

(** A JavaScript error object: what a failed database call rejects with
    (the driver's error, whose [code] is the PostgreSQL SQLSTATE, "23505"
    for a unique violation; a TypeORM error, which has no [code]) or what a
    failed [fetch] or a [TypeError] throws. *)
Record JsError := mkJsError {
  code : option string;
  err_message : string;
}.

Definition UNIQUE_VIOLATION : string := "23505".

(** What a service method rejects with: an [HttpException] with its status
    and the [message] of its response, or any other thrown value (a query
    error that no [catch] wrapped). *)
Inductive Exn :=
| HttpException (status : Z) (message : string)
| Thrown (err : JsError).

(** [error.code] and [error.message] of a caught value. *)
Definition exn_code (e : Exn) : option string :=
  match e with HttpException _ _ => None | Thrown j => code j end.

Definition exn_message (e : Exn) : string :=
  match e with HttpException _ m => m | Thrown j => err_message j end.

(** [error.code === '23505'] *)
Definition is_unique_violation (e : Exn) : bool :=
  bool_decide (exn_code e = Some UNIQUE_VIOLATION).

Definition ConflictException (msg : string) : Exn := HttpException 409 msg.
Definition NotFoundException (msg : string) : Exn := HttpException 404 msg.
Definition UnauthorizedException (msg : string) : Exn := HttpException 401 msg.
Definition BadRequestException (msg : string) : Exn := HttpException 400 msg.

(** [new InternalServerErrorException(error)]: the caught object becomes the
    response body, so the response's [message] is the error's. *)
Definition InternalServerErrorException (err : Exn) : Exn :=
  HttpException 500 (exn_message err).

#[export] Instance JsError_eq_dec : EqDecision JsError.
Proof. solve_decision. Defined.
#[export] Instance Exn_eq_dec : EqDecision Exn.
Proof. solve_decision. Defined.
#[export] Instance Movie_eq_dec : EqDecision Movie.
Proof. solve_decision. Defined.
#[export] Instance User_eq_dec : EqDecision User.
Proof. solve_decision. Defined.
#[export] Instance UpdateMovieDto_eq_dec : EqDecision UpdateMovieDto.
Proof. solve_decision. Defined.
#[export] Instance CreateMovieDto_eq_dec : EqDecision CreateMovieDto.
Proof. solve_decision. Defined.
