(* ===== verification/Repository.v ===== *)
(** * The TypeORM repository of a table (library semantics)

    The services call TypeORM's [Repository<T>] ([save], [findOneBy],
    [find] with [order], [update], [delete]) on a PostgreSQL table whose
    primary key is a generated uuid ([@PrimaryGeneratedColumn('uuid')]) and
    which has one [@Unique] column.  TypeORM and PostgreSQL are not in
    [src/]; this file models their behaviour as the services rely on it:
    - an [Entity] instance says which field is the key and which the unique
      column of a row type;
    - a [Table] is the table's rows by key, with the counter of the uuid
      generator ([UuidGen]); a generated key ([gen_key]) is never one in
      use, as a random v4 uuid in practice is not;
    - [save] of an entity that carries its key (a request body with an
      [id]) updates the row of that key, or inserts under it;
    - every call may fail for a reason outside the program (connection,
      constraint of another table, ...): the oracle [fault] says, for each
      call, whether it fails and with which error.  Theorems about success
      assume [no_faults]; the others hold for every oracle;
    - [table_wf] is the table's integrity: rows stored under their own key,
      the unique column unique.  Every operation preserves it. *)

From S2P Require Import Prelude Entities.

(** ** Interfaces *)

(** A row type with its primary key and its [@Unique] column. *)
Class Entity (R : Type) := {
  pk : R -> string;
  set_pk : string -> R -> R;
  unique_col : R -> string;
}.

Class EntityLaws (R : Type) `{Entity R} := {
  pk_set_pk i r : pk (set_pk i r) = i;
  unique_col_set_pk i r : unique_col (set_pk i r) = unique_col r;
}.

(** The uuid generator of the database: distinct counters, distinct ids. *)
Class UuidGen := {
  uuid : N -> string;
  uuid_inj : Inj (=) (=) uuid;
}.

(** A generator for evaluation: ["uuid-" ++ decimal counter]. *)
#[export] Program Instance uuid_decimal : UuidGen := {|
  uuid n := "uuid-" +:+ pretty n;
|}.

(** ** Tables *)

Record Table (R : Type) := mkTable {
  rows : gmap string R;
  next_uuid : N;
}.
Arguments mkTable {R} _ _.
Arguments rows {R} _.
Arguments next_uuid {R} _.

Definition empty_table {R} : Table R := mkTable ∅ 0%N.

(** The database calls a service makes, the input of the fault oracle. *)
Inductive DbCall (R : Type) :=
| CallSave (r : R)
| CallFindOne (k : string)
| CallFind
| CallUpdate (i : string)
| CallDelete (i : string).
Arguments CallSave {R} r.
Arguments CallFindOne {R} k.
Arguments CallFind {R}.
Arguments CallUpdate {R} i.
Arguments CallDelete {R} i.

(** [UpdateResult] / [DeleteResult]: the number of rows affected. *)
Record WriteResult := mkWriteResult { affected : nat }.

Definition unique_violation_error : JsError :=
  mkJsError (Some UNIQUE_VIOLATION) "duplicate key value violates unique constraint".

(** TypeORM's [UpdateValuesMissingError], thrown before any query when the
    partial entity of [update] sets no column. *)
Definition update_values_missing_error : JsError :=
  mkJsError None "Cannot perform update query because update values are not defined.".

Section Repository.
Context {R : Type} `{Entity R} `{UuidGen}.
Context (fault : DbCall R -> option JsError).

Definition values (t : Table R) : list R := (map_to_list (rows t)).*2.

(** Is the unique column of [r] already held by a row other than key [except]? *)
Definition unique_taken (t : Table R) (r : R) (except : option string) : bool :=
  existsb (fun ir => bool_decide (unique_col ir.2 = unique_col r) &&
                     negb (bool_decide (Some ir.1 = except)))
          (map_to_list (rows t)).

(** The key PostgreSQL generates for a new row ([uuid_generate_v4()]): a
    random uuid, which in practice is no key already in use.  The model
    takes the generator's first key, from the counter on, that no row
    holds; [S (size (rows t))] candidates always contain one. *)
Fixpoint free_key_from (t : Table R) (n : N) (fuel : nat) : N :=
  match fuel with
  | O => n
  | S f => if bool_decide (is_Some (rows t !! uuid n)) then free_key_from t (N.succ n) f else n
  end.

Definition gen_key (t : Table R) : N := free_key_from t (next_uuid t) (S (size (rows t))).

(** [repository.save(entity)].  Without a key: an [INSERT] with a
    generated key, rejected with 23505 when the unique column is taken; it
    returns the entity with its key.  With a key [i] (a body that carried
    an [id]): TypeORM first loads the row of key [i], then [UPDATE]s it
    when there is one and [INSERT]s the entity under key [i] otherwise;
    either way the row of key [i] becomes the entity, and the unique
    column must not be held by a row of another key.  It returns the
    entity. *)
Definition repo_save (r : R) : M (Table R) Exn R :=
  fun t =>
    match fault (CallSave r) with
    | Some e => (t, Err (Thrown e))
    | None =>
        if bool_decide (pk r = "") then
          let n := gen_key t in
          let i := uuid n in
          if unique_taken t r None then (t, Err (Thrown unique_violation_error))
          else let r' := set_pk i r in
               (mkTable (<[i:=r']> (rows t)) (N.succ n), Ok r')
        else
          let i := pk r in
          if unique_taken t r (Some i) then (t, Err (Thrown unique_violation_error))
          else (mkTable (<[i:=r]> (rows t)) (next_uuid t), Ok r)
    end.

(** [repository.findOneBy({ id })] *)
Definition repo_findOneBy (i : string) : M (Table R) Exn (option R) :=
  fun t =>
    match fault (CallFindOne i) with
    | Some e => (t, Err (Thrown e))
    | None => (t, Ok (rows t !! i))
    end.

(** [repository.findOneBy({ <unique column>: k })] *)
Definition repo_findOneByUnique (k : string) : M (Table R) Exn (option R) :=
  fun t =>
    match fault (CallFindOne k) with
    | Some e => (t, Err (Thrown e))
    | None => (t, Ok (head (filter (fun r => unique_col r = k) (values t))))
    end.

(** [repository.find({ order: { <key>: 'ASC' } })] *)
Definition repo_find (key : R -> Z) : M (Table R) Exn (list R) :=
  fun t =>
    match fault CallFind with
    | Some e => (t, Err (Thrown e))
    | None => (t, Ok (sort_by key (values t)))
    end.

(** [repository.update(i, partial)]: [patch] applies the partial entity,
    [is_empty] says that it sets no column. *)
Definition repo_update (i : string) (patch : R -> R) (is_empty : bool)
    : M (Table R) Exn WriteResult :=
  fun t =>
    if is_empty then (t, Err (Thrown update_values_missing_error)) else
    match fault (CallUpdate i) with
    | Some e => (t, Err (Thrown e))
    | None =>
        match rows t !! i with
        | None => (t, Ok (mkWriteResult 0))
        | Some r =>
            let r' := set_pk i (patch r) in
            if unique_taken t r' (Some i) then (t, Err (Thrown unique_violation_error))
            else (mkTable (<[i:=r']> (rows t)) (next_uuid t), Ok (mkWriteResult 1))
        end
    end.

(** [repository.delete(i)] *)
Definition repo_delete (i : string) : M (Table R) Exn WriteResult :=
  fun t =>
    match fault (CallDelete i) with
    | Some e => (t, Err (Thrown e))
    | None =>
        match rows t !! i with
        | None => (t, Ok (mkWriteResult 0))
        | Some _ => (mkTable (delete i (rows t)) (next_uuid t), Ok (mkWriteResult 1))
        end
    end.
End Repository.

Definition no_faults {R} : DbCall R -> option JsError := fun _ => None.

(** ** Integrity of a table *)

Section TableWf.
Context {R : Type} `{EntityLaws R} `{UuidGen}.

(** Rows are stored under their own key, and no two rows share the unique
    column. *)
Definition table_wf (t : Table R) : Prop :=
  (forall i r, rows t !! i = Some r -> pk r = i) /\
  (forall i j r s, rows t !! i = Some r -> rows t !! j = Some s ->
                   unique_col r = unique_col s -> i = j).

(** [table_wf] in [map_Forall] form, which stdpp decides. *)
Lemma table_wf_iff (t : Table R) :
  (map_Forall (fun i r => pk r = i) (rows t) /\
   map_Forall (fun i r => map_Forall (fun j s => unique_col r = unique_col s -> i = j)
                                     (rows t)) (rows t)) <-> table_wf t.
Proof. unfold table_wf, map_Forall. split; intros (Hk & Hu); split; eauto. Qed.

#[export] Instance table_wf_dec (t : Table R) : Decision (table_wf t).
Proof.
  destruct (decide (map_Forall (fun i r => pk r = i) (rows t) /\
    map_Forall (fun i r => map_Forall (fun j s => unique_col r = unique_col s -> i = j)
                                      (rows t)) (rows t))) as [Hd|Hd];
    [left|right]; rewrite <- table_wf_iff; done.
Defined.

Lemma empty_table_wf : table_wf empty_table.
Proof. unfold empty_table; split_and!; simpl; intros *; rewrite lookup_empty; done. Qed.

Lemma values_spec (t : Table R) r :
  r ∈ values t <-> exists i, rows t !! i = Some r.
Proof.
  unfold values. rewrite list_elem_of_fmap. split.
  - intros [[i r'] [-> Hin]]. apply elem_of_map_to_list in Hin. eauto.
  - intros [i Hi]. exists (i, r). split; [done|]. by apply elem_of_map_to_list.
Qed.

Lemma unique_taken_spec (t : Table R) r ex :
  unique_taken t r ex = true <->
  exists i r', rows t !! i = Some r' /\ unique_col r' = unique_col r /\ Some i <> ex.
Proof.
  unfold unique_taken. rewrite existsb_exists. split.
  - intros [[i r'] [Hin Hb]]. apply list_elem_of_In, elem_of_map_to_list in Hin.
    apply andb_true_iff in Hb as [Hb1 Hb2]. apply bool_decide_eq_true in Hb1.
    apply negb_true_iff, bool_decide_eq_false in Hb2. eauto.
  - intros (i & r' & Hi & Hu & Hne). exists (i, r'). split.
    + by apply list_elem_of_In, elem_of_map_to_list.
    + simpl. rewrite bool_decide_eq_true_2; [|done]. by rewrite bool_decide_eq_false_2.
Qed.

Lemma unique_taken_false (t : Table R) r ex :
  unique_taken t r ex = false ->
  forall i r', rows t !! i = Some r' -> unique_col r' = unique_col r -> Some i = ex.
Proof.
  intros Hf i r' Hi Hu. destruct (decide (Some i = ex)) as [|Hne]; [done|].
  assert (unique_taken t r ex = true) by (apply unique_taken_spec; eauto). congruence.
Qed.

Lemma free_key_from_spec (t : Table R) n fuel :
  rows t !! uuid (free_key_from t n fuel) = None \/
  forall k, k < fuel -> is_Some (rows t !! uuid (n + N.of_nat k)%N).
Proof.
  revert n. induction fuel as [|f IH]; intros n; simpl; [right; lia|].
  case_bool_decide as Hs; [|left; by apply eq_None_not_Some].
  destruct (IH (N.succ n)) as [|Hall]; [by left|right].
  intros [|k] Hk; [by rewrite N.add_0_r|].
  replace (n + N.of_nat (S k))%N with (N.succ n + N.of_nat k)%N by lia.
  apply Hall. lia.
Qed.

(** The generated key is free: the [S (size (rows t))] keys tried are
    distinct, so they cannot all be held. *)
Lemma gen_key_free (t : Table R) : rows t !! uuid (gen_key t) = None.
Proof.
  unfold gen_key.
  destruct (free_key_from_spec t (next_uuid t) (S (size (rows t)))) as [|Hall]; [done|].
  exfalso.
  set (l := (fun k => uuid (next_uuid t + N.of_nat k)%N) <$> seq 0 (S (size (rows t)))).
  assert (Hnd : NoDup l).
  { apply NoDup_fmap_2_strong; [|apply NoDup_seq].
    intros k1 k2 _ _ Heq. apply uuid_inj in Heq. lia. }
  assert (Hsub : list_to_set l ⊆@{gset string} dom (rows t)).
  { intros x Hx. apply elem_of_list_to_set, list_elem_of_fmap in Hx as (k & -> & Hk).
    apply elem_of_seq in Hk. apply elem_of_dom, Hall. lia. }
  apply subseteq_size in Hsub. rewrite size_list_to_set, size_dom in Hsub by done.
  unfold l in Hsub. rewrite length_fmap, length_seq in Hsub. lia.
Qed.

(** Writing row [r'] under key [i] keeps the table well formed when [r']
    carries its key and no row of another key holds its unique column. *)
Lemma wf_insert (t : Table R) i r' nxt :
  table_wf t -> pk r' = i ->
  (forall j s, rows t !! j = Some s -> unique_col s = unique_col r' -> j = i) ->
  table_wf (mkTable (<[i:=r']> (rows t)) nxt).
Proof.
  intros (Hpk & Hu) Hpk' Hfree. split; simpl.
  - intros j s. rewrite lookup_insert. case_decide; [congruence|eauto].
  - intros j k r s. rewrite !lookup_insert.
    repeat case_decide; intros; simplify_eq; eauto.
    symmetry. eauto.
Qed.

Lemma wf_delete (t : Table R) i :
  table_wf t -> table_wf (mkTable (delete i (rows t)) (next_uuid t)).
Proof.
  intros (Hpk & Hu). split; simpl; intros *;
    rewrite ?lookup_delete; repeat case_decide; intros; simplify_eq; eauto.
Qed.
End TableWf.

#[export] Hint Resolve empty_table_wf wf_delete : svc.

(** ** Every repository call preserves the integrity of the table *)

Section RepositoryWf.
Context {R : Type} `{EntityLaws R} `{UuidGen}.
Context (fault : DbCall R -> option JsError).

(** The row [save] or [update] writes under key [i] keeps the table well
    formed when it carries key [i] and [unique_taken] found no other row
    with its unique value. *)
Lemma wf_write (t : Table R) i r nxt :
  table_wf t -> pk r = i -> unique_taken t r (Some i) = false ->
  table_wf (mkTable (<[i:=r]> (rows t)) nxt).
Proof.
  intros Hwf Hpk Ht. apply wf_insert; [done|done|].
  intros j s Hj Hus. by apply (unique_taken_false _ _ _ Ht) in Hj; simplify_eq.
Qed.

Lemma repo_save_wf r : preserves table_wf (repo_save fault r).
Proof.
  intros t t' res Hwf Hrun. unfold repo_save in Hrun.
  destruct (fault _); [by simplify_eq|].
  case_bool_decide.
  - destruct (unique_taken t r None) eqn:Ht; simplify_eq; [done|].
    apply wf_insert; [done|apply pk_set_pk|].
    intros j s Hj Hus. rewrite unique_col_set_pk in Hus.
    by apply (unique_taken_false _ _ _ Ht) in Hj.
  - destruct (unique_taken _ _ _) eqn:Ht; simplify_eq; [done|]. by apply wf_write.
Qed.

Lemma repo_update_wf i patch e : preserves table_wf (repo_update fault i patch e).
Proof.
  intros t t' res Hwf Hrun. unfold repo_update in Hrun.
  destruct e; [by simplify_eq|]. destruct (fault _); [by simplify_eq|].
  destruct (rows t !! i) as [r|] eqn:Hi; [|by simplify_eq].
  destruct (unique_taken _ _ _) eqn:Ht; simplify_eq; [done|].
  apply wf_write; [done|apply pk_set_pk|done].
Qed.

Lemma repo_delete_wf i : preserves table_wf (repo_delete fault i).
Proof.
  intros t t' res Hwf Hrun. unfold repo_delete in Hrun.
  destruct (fault _); [by simplify_eq|].
  destruct (rows t !! i); simplify_eq; auto using wf_delete.
Qed.

(** Reads do not change the table, so they keep any property of it. *)
Lemma repo_findOneBy_keeps (P : Table R -> Prop) i : preserves P (repo_findOneBy fault i).
Proof.
  apply preserves_readonly. intros t t' res.
  unfold repo_findOneBy. destruct (fault _); by intros; simplify_eq.
Qed.

Lemma repo_findOneByUnique_keeps (P : Table R -> Prop) k :
  preserves P (repo_findOneByUnique fault k).
Proof.
  apply preserves_readonly. intros t t' res.
  unfold repo_findOneByUnique. destruct (fault _); by intros; simplify_eq.
Qed.

Lemma repo_find_keeps (P : Table R -> Prop) key : preserves P (repo_find fault key).
Proof.
  apply preserves_readonly. intros t t' res.
  unfold repo_find. destruct (fault _); by intros; simplify_eq.
Qed.
End RepositoryWf.

(** The lemmas have instance arguments, which [apply] resolves. *)
#[export] Hint Extern 1 (preserves table_wf (repo_save _ _)) => apply repo_save_wf : svc.
#[export] Hint Extern 1 (preserves table_wf (repo_update _ _ _ _)) => apply repo_update_wf : svc.
#[export] Hint Extern 1 (preserves table_wf (repo_delete _ _)) => apply repo_delete_wf : svc.
#[export] Hint Extern 1 (preserves _ (repo_findOneBy _ _)) => apply repo_findOneBy_keeps : svc.
#[export] Hint Extern 1 (preserves _ (repo_findOneByUnique _ _)) =>
  apply repo_findOneByUnique_keeps : svc.
#[export] Hint Extern 1 (preserves _ (repo_find _ _)) => apply repo_find_keeps : svc.

(** ** Outcomes of [save] *)

Section SaveOutcomes.
Context {R : Type} `{EntityLaws R} `{UuidGen}.
Context (fault : DbCall R -> option JsError).

(** Some row of the table holds value [k] in its unique column. *)
Definition holds_unique (t : Table R) (k : string) : Prop :=
  exists i r, rows t !! i = Some r /\ unique_col r = k.

Lemma unique_taken_None (t : Table R) r :
  unique_taken t r None = true <-> holds_unique t (unique_col r).
Proof.
  rewrite unique_taken_spec. unfold holds_unique. split.
  - intros (i & r' & ? & ? & _). eauto.
  - intros (i & r' & ? & ?). exists i, r'. done.
Qed.

Lemma repo_save_fault r t e :
  fault (CallSave r) = Some e -> repo_save fault r t = (t, Err (Thrown e)).
Proof. intros Hf. unfold repo_save. by rewrite Hf. Qed.

(** A save without key: [r] is a row the service built, or a body that
    carried no [id]. *)
Lemma repo_save_taken r t :
  pk r = "" -> fault (CallSave r) = None -> holds_unique t (unique_col r) ->
  repo_save fault r t = (t, Err (Thrown unique_violation_error)).
Proof.
  intros Hk Hf Hu. apply unique_taken_None in Hu.
  unfold repo_save. by rewrite Hf, bool_decide_eq_true_2, Hu.
Qed.

Lemma repo_save_fresh r t :
  pk r = "" -> fault (CallSave r) = None -> ~ holds_unique t (unique_col r) ->
  repo_save fault r t =
    (mkTable (<[uuid (gen_key t) := set_pk (uuid (gen_key t)) r]> (rows t))
             (N.succ (gen_key t)),
     Ok (set_pk (uuid (gen_key t)) r)).
Proof.
  intros Hk Hf Hu. rewrite <- unique_taken_None, not_true_iff_false in Hu.
  unfold repo_save. by rewrite Hf, bool_decide_eq_true_2, Hu.
Qed.

(** A save with key [i]: the row of key [i] becomes [r], whether there was
    one ([UPDATE]) or not ([INSERT]), unless another row holds its unique
    value. *)
Lemma repo_save_keyed r t :
  pk r <> "" -> fault (CallSave r) = None ->
  (forall j s, rows t !! j = Some s -> unique_col s = unique_col r -> j = pk r) ->
  repo_save fault r t = (mkTable (<[pk r := r]> (rows t)) (next_uuid t), Ok r).
Proof.
  intros Hk Hf Hfree. unfold repo_save. rewrite Hf, bool_decide_eq_false_2 by done.
  destruct (unique_taken t r (Some (pk r))) eqn:Ht; [|done].
  apply unique_taken_spec in Ht as (j & s & Hj & Hus & Hne).
  by apply Hfree in Hj; [subst|].
Qed.

Lemma repo_save_keyed_taken r t j s :
  pk r <> "" -> fault (CallSave r) = None ->
  rows t !! j = Some s -> unique_col s = unique_col r -> j <> pk r ->
  repo_save fault r t = (t, Err (Thrown unique_violation_error)).
Proof.
  intros Hk Hf Hj Hus Hne. unfold repo_save. rewrite Hf, bool_decide_eq_false_2 by done.
  replace (unique_taken t r (Some (pk r))) with true; [done|].
  symmetry. apply unique_taken_spec. exists j, s. split_and!; congruence.
Qed.

(** [save] writes no row but [r], under its key or a generated one. *)
Lemma repo_save_rows r t t' res i s :
  repo_save fault r t = (t', res) -> rows t' !! i = Some s ->
  rows t !! i = Some s \/ s = r \/ exists k, s = set_pk k r.
Proof.
  unfold repo_save. destruct (fault _); [intros [= <- _]; auto|].
  case_bool_decide; destruct (unique_taken _ _ _); intros [= <- _]; simpl; auto;
    rewrite lookup_insert; case_decide; intros; simplify_eq; eauto.
Qed.

(** A save without key only adds rows: a value held before is held after. *)
Lemma repo_save_holds r t t' res k :
  pk r = "" -> repo_save fault r t = (t', res) -> holds_unique t k -> holds_unique t' k.
Proof.
  unfold repo_save. intros Hk Hrun (i & s & Hi & Hik).
  destruct (fault _); [by simplify_eq; exists i, s|].
  rewrite bool_decide_eq_true_2 in Hrun by done.
  destruct (unique_taken t r None); simplify_eq; [by exists i, s|].
  exists i, s. simpl. rewrite lookup_insert_ne; [done|].
  intros <-. by rewrite gen_key_free in Hi.
Qed.

(** After a save without key that did not fail for an outside reason, the
    row's unique value is held: inserted, or already there. *)
Lemma repo_save_holds_new r t t' res :
  pk r = "" -> fault (CallSave r) = None ->
  repo_save fault r t = (t', res) -> holds_unique t' (unique_col r).
Proof.
  intros Hk Hf Hrun.
  destruct (decide (holds_unique t (unique_col r))) as [Hu|Hu].
  - rewrite repo_save_taken in Hrun by done. by simplify_eq.
  - rewrite repo_save_fresh in Hrun by done. simplify_eq.
    eexists _, _. split; [apply lookup_insert_eq|]. apply unique_col_set_pk.
Qed.

(** The values of the unique column, one per row. *)
Definition uniques (t : Table R) : list string := unique_col <$> values t.

Lemma elem_of_uniques t k : k ∈ uniques t <-> holds_unique t k.
Proof.
  unfold uniques, holds_unique. rewrite list_elem_of_fmap. setoid_rewrite values_spec.
  split; [intros (r & -> & i & Hi); eauto|intros (i & r & Hi & <-); eauto].
Qed.

(** In a well-formed table no two rows share their unique value. *)
Lemma uniques_NoDup t : table_wf t -> NoDup (uniques t).
Proof.
  intros (_ & Hu). unfold uniques, values. rewrite <- list_fmap_compose.
  apply NoDup_fmap_2_strong; [|apply NoDup_map_to_list].
  intros [i r] [j s] Hi Hj Heq. apply elem_of_map_to_list in Hi, Hj. simpl in *.
  assert (i = j) as <- by eauto. congruence.
Qed.

(** A [save] of a fresh row adds it, with its key, to the values and its
    unique value to the unique column. *)
Lemma repo_save_fresh_values r t :
  pk r = "" -> fault (CallSave r) = None -> ~ holds_unique t (unique_col r) ->
  values (repo_save fault r t).1 ≡ₚ set_pk (uuid (gen_key t)) r :: values t.
Proof.
  intros Hk Hf Hu. rewrite repo_save_fresh by done. unfold values; simpl.
  by rewrite map_to_list_insert by (by apply gen_key_free).
Qed.

Lemma repo_save_fresh_uniques r t :
  pk r = "" -> fault (CallSave r) = None -> ~ holds_unique t (unique_col r) ->
  uniques (repo_save fault r t).1 ≡ₚ unique_col r :: uniques t.
Proof.
  intros Hwf Hf Hu. unfold uniques. rewrite repo_save_fresh_values by done.
  simpl. by rewrite unique_col_set_pk.
Qed.
End SaveOutcomes.

(** ** Lookup by the unique column *)

Section FindByUnique.
Context {R : Type} `{EntityLaws R} `{UuidGen}.

(** In a well-formed table the row holding [k] is the one found. *)
Lemma repo_findOneByUnique_found (t : Table R) i r k :
  table_wf t -> rows t !! i = Some r -> unique_col r = k ->
  repo_findOneByUnique no_faults k t = (t, Ok (Some r)).
Proof.
  intros (_ & Hu) Hi Hk. unfold repo_findOneByUnique, no_faults.
  destruct (head _) as [r'|] eqn:Hh.
  - apply head_Some_elem_of, list_elem_of_filter in Hh as [Hk' Hin].
    apply values_spec in Hin as [j Hj].
    assert (j = i) as -> by (eapply Hu; [exact Hj|exact Hi|congruence]).
    congruence.
  - apply head_None in Hh.
    assert (Hin : r ∈ filter (fun r => unique_col r = k) (values t)).
    { apply list_elem_of_filter. split; [done|]. apply values_spec. eauto. }
    rewrite Hh in Hin. by apply elem_of_nil in Hin.
Qed.

Lemma repo_findOneByUnique_absent (t : Table R) k :
  ~ holds_unique t k -> repo_findOneByUnique no_faults k t = (t, Ok None).
Proof.
  intros Hn. unfold repo_findOneByUnique, no_faults.
  destruct (head _) as [r'|] eqn:Hh; [|done]. exfalso. apply Hn.
  apply head_Some_elem_of, list_elem_of_filter in Hh as [Hk' Hin].
  apply values_spec in Hin as [j Hj]. by exists j, r'.
Qed.
End FindByUnique.
