(* ===== verification/MoviesService.v ===== *)
(** * The movies service ([src/modules/movies/movies.service.ts])

    [MoviesService] over the [Movie] table: the synchronisation job
    [syncronize] (run at bootstrap and every 30 minutes), and the CRUD
    methods [findAll], [findOne], [create], [update], [remove].  Each method
    is a computation over [Table Movie] ([Repository.v]) that may throw an
    [Exn]; the database's failures come from the oracle [fault].
    [MoviesServiceSpec] computes the films the job adds ([fresh_films]);
    [MoviesServiceFacts] proves the methods' outcomes, the invariant and the
    job's contract [syncronize_spec], which fixes no order of the saves. *)

From S2P Require Import Prelude Entities Repository.

(** The [Movie] entity: key [id], unique column [title]. *)
#[export] Instance Movie_entity : Entity Movie := {|
  pk := movie_id;
  set_pk i m := mkMovie i (title m) (episode_id m) (opening_crawl m)
                        (director m) (producer m) (release_date m);
  unique_col := title;
|}.

#[export] Instance Movie_entity_laws : EntityLaws Movie.
Proof. split; reflexivity. Qed.

(** A film of the SWAPI [/api/films] list, with the fields the job reads. *)
Record SwapiFilm := mkSwapiFilm {
  film_title : string;
  film_episode_id : Z;
  film_opening_crawl : string;
  film_director : string;
  film_producer : string;
  film_release_date : string;
}.

#[export] Instance SwapiFilm_eq_dec : EqDecision SwapiFilm.
Proof. solve_decision. Defined.

(** The outcome of [await (await fetch(url)).json()] and of reading its
    [results]: the request may reject, and [results] may be absent. *)
Definition FetchOutcome := result JsError (option (list SwapiFilm)).

(** The [TypeError] of [results.map] when [results] is [undefined]. *)
Definition results_undefined_error : JsError :=
  mkJsError None "Cannot read properties of undefined (reading 'map')".

(** A row without key: what [save] receives (the key is generated). *)
Definition NO_ID : string := "".

Module MoviesService.
Section MoviesService.
Context `{UuidGen}.
Context (fault : DbCall Movie -> option JsError).

(** The object [syncronize] saves for one film (lines 40-47). *)
Definition film_row (f : SwapiFilm) : Movie :=
  mkMovie NO_ID (film_title f) (film_episode_id f) (film_opening_crawl f)
          (film_director f) (film_producer f) (film_release_date f).

(** [repository.save(dto)] in [create]: the body's fields, with the key
    it carried, if any. *)
Definition dto_row (dto : CreateMovieDto) : Movie :=
  mkMovie (default NO_ID (dto_id dto)) (dto_title dto) (dto_episode_id dto) (dto_opening_crawl dto)
          (dto_director dto) (dto_producer dto) (dto_release_date dto).

(** One task of [results.map(async (movie) => ...)] (lines 38-53): save the
    film and push it to [movies]; a duplicate is skipped, any other error
    is rethrown as an [InternalServerErrorException]. *)
Definition sync_one (f : SwapiFilm) : M (Table Movie * list Movie) Exn unit :=
  catch_err
    (theMovie <- zoom_fst (repo_save fault (film_row f)) ;;
     push_local theMovie)%svc
    (fun error =>
       if is_unique_violation error then mret tt
       else throw (InternalServerErrorException error)).

(** [syncronize()] (lines 27-57). *)
Definition syncronize (fetched : FetchOutcome) : M (Table Movie) Exn (list Movie) :=
  (list <- from_result (match fetched with
                        | Ok l => Ok l
                        | Err e => Err (Thrown e)
                        end) ;;
   match list with
   | None => throw (Thrown results_undefined_error)
   | Some results =>
       with_local []
         (promise_all (map sync_one results) ;; get_local)
   end)%svc.

(** [findAll()] (lines 59-63). *)
Definition findAll : M (Table Movie) Exn (list Movie) :=
  repo_find fault episode_id.

(** [findOne(id)] (lines 65-70). *)
Definition findOne (id : string) : M (Table Movie) Exn Movie :=
  (movie <- repo_findOneBy fault id ;;
   match movie with
   | None => throw (NotFoundException "Movie not found")
   | Some m => mret m
   end)%svc.

(** [create(dto)] (lines 72-83). *)
Definition create (dto : CreateMovieDto) : M (Table Movie) Exn Movie :=
  catch_err (repo_save fault (dto_row dto))
    (fun error =>
       if is_unique_violation error
       then throw (ConflictException "Movie already exists")
       else throw (InternalServerErrorException error)).

(** The partial entity of [update]: the fields the DTO sets. *)
Definition apply_update (dto : UpdateMovieDto) (m : Movie) : Movie :=
  mkMovie (movie_id m)
    (default (title m) (upd_title dto))
    (default (episode_id m) (upd_episode_id dto))
    (default (opening_crawl m) (upd_opening_crawl dto))
    (default (director m) (upd_director dto))
    (default (producer m) (upd_producer dto))
    (default (release_date m) (upd_release_date dto)).

Definition update_is_empty (dto : UpdateMovieDto) : bool :=
  bool_decide (dto = mkUpdateMovieDto None None None None None None).

(** [update(id, dto)] (lines 85-88): no existence check, no catch. *)
Definition update (id : string) (dto : UpdateMovieDto)
    : M (Table Movie) Exn (option Movie) :=
  (repo_update fault id (apply_update dto) (update_is_empty dto) ;;
   repo_findOneBy fault id)%svc.

(** [remove(id)] (lines 90-94). *)
Definition remove (id : string) : M (Table Movie) Exn string :=
  (movie <- repo_delete fault id ;;
   if Nat.eqb (affected movie) 0
   then throw (NotFoundException "Movie not found")
   else mret "Done")%svc.
End MoviesService.
End MoviesService.

(** ** What the job promises *)

Module MoviesServiceSpec.
Import MoviesService.

(** The films of [films] the job inserts into a table whose titles are
    [held]: a film is skipped when its title is held, or was inserted by an
    earlier film of the list. *)
Fixpoint fresh_films (held : list string) (films : list SwapiFilm) : list SwapiFilm :=
  match films with
  | [] => []
  | f :: fs =>
      if decide (film_title f ∈ held) then fresh_films held fs
      else f :: fresh_films (film_title f :: held) fs
  end.

(** The movies [ms] are the rows of [films]: each film's fields under the
    key the database gave it. *)
Definition film_rows (ms : list Movie) (films : list SwapiFilm) : Prop :=
  Forall2 (fun m f => m = set_pk (movie_id m) (film_row f)) ms films.
End MoviesServiceSpec.

(** ** Properties of the movies service *)

Module MoviesServiceFacts.
Import MoviesService MoviesServiceSpec.

(** Only which titles are held matters to [fresh_films], not their order. *)
#[export] Instance fresh_films_proper : Proper ((≡ₚ) ==> (=) ==> (=)) fresh_films.
Proof.
  intros h1 h2 Hh fs ? <-. revert h1 h2 Hh.
  induction fs as [|f fs IH]; intros h1 h2 Hh; [done|]. simpl.
  destruct (decide (film_title f ∈ h1)) as [H1|H1], (decide (film_title f ∈ h2)) as [H2|H2];
    rewrite ?Hh in H1; try contradiction; [by apply IH|].
  f_equal. apply IH. by constructor.
Qed.

Section Facts.
Context `{UuidGen}.

(** The job saves its films without key. *)
Lemma film_row_pk f : pk (film_row f) = "".
Proof. reflexivity. Qed.

(** One sync task: the save's outcome decides everything. *)
Lemma sync_one_eq fault f t ms :
  sync_one fault f (t, ms) =
    match repo_save fault (film_row f) t with
    | (t', Ok m) => ((t', ms ++ [m]), Ok tt)
    | (t', Err e) =>
        ((t', ms), if is_unique_violation e then Ok tt
                   else Err (InternalServerErrorException e))
    end.
Proof.
  unfold sync_one, catch_err, mbind, zoom_fst, push_local; simpl.
  destruct (repo_save _ _ _) as [t' [m|e]]; [done|].
  by destruct (is_unique_violation e).
Qed.

Lemma sync_one_wf fault f st st' r :
  table_wf st.1 -> sync_one fault f st = (st', r) -> table_wf st'.1.
Proof.
  destruct st as [t ms]. rewrite sync_one_eq. simpl. intros Hwf.
  destruct (repo_save _ _ _) as [t' res] eqn:Hs.
  destruct res; [|destruct (is_unique_violation _)]; intros; simplify_eq;
    simpl; by eapply repo_save_wf.
Qed.

(** Running every task of the job keeps the table well formed. *)
Lemma settle_sync_wf fault films st :
  table_wf st.1 -> table_wf (settle_all (map (sync_one fault) films) st).1.1.
Proof.
  apply (settle_all_inv (fun st => table_wf st.1)).
  apply Forall_forall. intros m Hm. apply list_elem_of_fmap in Hm as (f & -> & _).
  intros ????. by apply sync_one_wf.
Qed.

(** What the job leaves in the table is what its tasks left. *)
Lemma syncronize_state fault films t :
  (syncronize fault (Ok (Some films)) t).1 =
  (settle_all (map (sync_one fault) films) (t, [])).1.1.
Proof.
  unfold syncronize, mbind, from_result, with_local, promise_all; simpl.
  destruct (settle_all _ _) as [[t' ms] rs]. simpl.
  by destruct (first_rejection rs).
Qed.

(** A task whose film title is already held changes nothing. *)
Lemma sync_one_dup f t ms :
  holds_unique t (film_title f) ->
  sync_one no_faults f (t, ms) = ((t, ms), Ok tt).
Proof.
  intros Hu. rewrite sync_one_eq, repo_save_taken by done. done.
Qed.

Lemma sync_one_table fault f t ms :
  (sync_one fault f (t, ms)).1.1 = (repo_save fault (film_row f) t).1.
Proof.
  rewrite sync_one_eq. destruct (repo_save _ _ _) as [t' [|e]]; [done|].
  by destruct (is_unique_violation e).
Qed.

(** A title held before the job's tasks is held after them. *)
Lemma settle_sync_keep fault films st k :
  holds_unique st.1 k ->
  holds_unique (settle_all (map (sync_one fault) films) st).1.1 k.
Proof.
  apply (settle_all_inv (fun st => holds_unique st.1 k)).
  apply Forall_forall. intros m Hm. apply list_elem_of_fmap in Hm as (f & -> & _).
  intros [t ms] st' r Hk Hrun. simpl in Hk.
  pose proof (sync_one_table fault f t ms) as Ht. rewrite Hrun in Ht. simpl in Ht.
  destruct (repo_save fault (film_row f) t) as [t1 res] eqn:Hs. simpl in Ht. subst.
  eapply (repo_save_holds _ (film_row f)); [reflexivity|exact Hs|exact Hk].
Qed.

(** Without database faults, after the tasks every film's title is held. *)
Lemma settle_sync_holds films st :
  table_wf st.1 ->
  forall f, f ∈ films ->
  holds_unique (settle_all (map (sync_one no_faults) films) st).1.1 (film_title f).
Proof.
  revert st. induction films as [|g films IH]; intros [t ms] Hwf f Hf;
    [by apply elem_of_nil in Hf|].
  simpl. destruct (sync_one no_faults g (t, ms)) as [st1 r] eqn:H1.
  destruct (settle_all _ st1) as [st2 rs] eqn:H2. simpl.
  change st2 with (st2, rs).1. rewrite <- H2.
  assert (Hwf1 : table_wf st1.1) by (eapply sync_one_wf; [|exact H1]; done).
  apply elem_of_cons in Hf as [->|Hf]; [|by apply IH].
  apply settle_sync_keep.
  pose proof (sync_one_table no_faults g t ms) as Ht. rewrite H1 in Ht. simpl in Ht.
  destruct (repo_save no_faults (film_row g) t) as [t1 res] eqn:Hs. simpl in Ht. subst.
  change (film_title g) with (unique_col (film_row g)).
  eapply (repo_save_holds_new no_faults); [reflexivity|done|exact Hs].
Qed.

(** Without database faults a task inserts its film when the title is
    free, and does nothing otherwise; it always fulfils. *)
Lemma sync_one_fresh f t acc :
  table_wf t -> ~ holds_unique t (film_title f) ->
  exists t1 m,
    sync_one no_faults f (t, acc) = ((t1, acc ++ [m]), Ok tt) /\
    table_wf t1 /\ values t1 ≡ₚ m :: values t /\
    uniques t1 ≡ₚ film_title f :: uniques t /\ m = set_pk (movie_id m) (film_row f).
Proof.
  intros Hwf Hu.
  pose proof (repo_save_fresh_values no_faults (film_row f) t (film_row_pk f) eq_refl Hu) as Hv1.
  pose proof (repo_save_fresh_uniques no_faults (film_row f) t (film_row_pk f) eq_refl Hu) as Hu1.
  exists (repo_save no_faults (film_row f) t).1, (set_pk (uuid (gen_key t)) (film_row f)).
  split_and!; [|by eapply repo_save_wf, surjective_pairing|done|done|done].
  rewrite sync_one_eq, repo_save_fresh by done. reflexivity.
Qed.

(** Without database faults the tasks insert the rows of the fresh films,
    in list order, and every task fulfils. *)
Lemma settle_sync_spec films t acc :
  table_wf t ->
  exists t' ms,
    settle_all (map (sync_one no_faults) films) (t, acc) =
      ((t', acc ++ ms), map (fun _ => Ok tt) films) /\
    table_wf t' /\ values t' ≡ₚ values t ++ ms /\
    film_rows ms (fresh_films (uniques t) films).
Proof.
  revert t acc. induction films as [|f fs IH]; intros t acc Hwf.
  { exists t, []. rewrite !app_nil_r. split_and!; [done|done|done|constructor]. }
  simpl. destruct (decide (holds_unique t (film_title f))) as [Hu|Hu].
  - rewrite sync_one_dup by done.
    destruct (IH t acc Hwf) as (t' & ms & -> & Hwf' & Hv & Hr).
    exists t', ms. split_and!; [done|done|done|].
    by rewrite decide_True by (by apply elem_of_uniques).
  - destruct (sync_one_fresh f t acc Hwf Hu) as (t1 & m & -> & Hwf1 & Hv1 & Hu1 & Hm).
    destruct (IH t1 (acc ++ [m]) Hwf1) as (t' & ms & -> & Hwf' & Hv & Hr).
    exists t', (m :: ms). split_and!; [by rewrite <- app_assoc|done| |].
    + rewrite Hv, Hv1. simpl. apply Permutation_middle.
    + rewrite decide_False by (by rewrite elem_of_uniques).
      rewrite Hu1 in Hr. by constructor.
Qed.

(** C2: Running the synchronisation twice against an unchanged film list:
    the second run inserts nothing, returns an empty list and leaves the
    table as the first run left it. *)
Theorem syncronize_idempotent films t :
  table_wf t ->
  let t1 := (syncronize no_faults (Ok (Some films)) t).1 in
  syncronize no_faults (Ok (Some films)) t1 = (t1, Ok []).
Proof.
  intros Hwf t1.
  assert (Hall : forall f, f ∈ films -> holds_unique t1 (film_title f)).
  { intros f Hf. subst t1. rewrite syncronize_state. by apply settle_sync_holds. }
  unfold syncronize, mbind, from_result, with_local, promise_all; simpl.
  rewrite (settle_all_noop _ _ tt).
  - simpl. by rewrite first_rejection_const.
  - apply Forall_forall. intros m Hm. apply list_elem_of_fmap in Hm as (f & -> & Hf).
    by apply sync_one_dup, Hall.
Qed.

(** What [fresh_films] keeps: the fetched titles no row holds, each once. *)
Lemma fresh_films_titles held films k :
  k ∈ film_title <$> fresh_films held films <->
  (exists f, f ∈ films /\ film_title f = k) /\ k ∉ held.
Proof.
  revert held. induction films as [|f fs IH]; intros held; simpl.
  { split; [by intros ?%elem_of_nil|]. intros [(g & Hg%elem_of_nil & _) _]. done. }
  case_decide as Hf; simpl.
  - rewrite IH. split.
    + intros [(g & Hg & <-) Hn]. split; [|done]. exists g. split; [by right|done].
    + intros [(g & [->|Hg]%elem_of_cons & <-) Hn]; [contradiction|]. split; [eauto|done].
  - rewrite elem_of_cons, IH. split.
    + intros [->|[(g & Hg & <-) Hn]].
      * split; [|done]. exists f. split; [by left|done].
      * split; [exists g; split; [by right|done]|]. intros Hin. apply Hn. by right.
    + intros [(g & [->|Hg]%elem_of_cons & <-) Hn]; [by left|].
      destruct (decide (film_title g = film_title f)) as [Heq|Hne]; [by left|right].
      split; [eauto|]. intros [?|?]%elem_of_cons; [congruence|done].
Qed.

Lemma fresh_films_NoDup held films : NoDup (film_title <$> fresh_films held films).
Proof.
  revert held. induction films as [|f fs IH]; intros held; simpl; [constructor|].
  case_decide; [apply IH|]. simpl. constructor; [|apply IH].
  rewrite fresh_films_titles. intros [_ Hn]. apply Hn. by left.
Qed.

Lemma fresh_films_sub held films f : f ∈ fresh_films held films -> f ∈ films.
Proof.
  revert held. induction films as [|g fs IH]; intros held; simpl; [done|].
  case_decide; [intros ?; right; eauto|]. intros [->|?]%elem_of_cons; [left|right; eauto].
Qed.

Lemma film_rows_titles ms fs : film_rows ms fs -> title <$> ms = film_title <$> fs.
Proof.
  induction 1 as [|m f ms fs Hm _ IH]; [done|]. simpl. f_equal; [|exact IH].
  rewrite Hm. reflexivity.
Qed.

Lemma film_rows_of ms fs :
  film_rows ms fs -> Forall (fun m => exists f, f ∈ fs /\ m = set_pk (movie_id m) (film_row f)) ms.
Proof.
  induction 1 as [|m f ms fs Hm _ IH]; constructor.
  - exists f. split; [by left|exact Hm].
  - eapply Forall_impl; [exact IH|]. intros m' (g & Hg & ->). exists g. split; [by right|done].
Qed.

(** C3: Without database faults the job fulfils and keeps the contract of
    section 4.4, in a form no completion order of its saves changes: the
    table gains exactly the returned rows; the returned rows have distinct
    titles, which are exactly the fetched titles no row held before; each
    returned row is the fields of a fetched film under its key. *)
Theorem syncronize_spec films t :
  table_wf t ->
  exists t' ms,
    syncronize no_faults (Ok (Some films)) t = (t', Ok ms) /\
    table_wf t' /\ values t' ≡ₚ values t ++ ms /\
    NoDup (title <$> ms) /\
    (forall k, k ∈ title <$> ms <->
               (exists f, f ∈ films /\ film_title f = k) /\ ~ holds_unique t k) /\
    Forall (fun m => exists f, f ∈ films /\ m = set_pk (movie_id m) (film_row f)) ms.
Proof.
  intros Hwf. destruct (settle_sync_spec films t [] Hwf) as (t' & ms & Hrun & Hwf' & Hv & Hr).
  exists t', ms. split_and!; [|done|done| | |].
  - unfold syncronize, mbind, from_result, with_local, promise_all, get_local; simpl.
    rewrite Hrun. simpl. by rewrite first_rejection_const.
  - rewrite (film_rows_titles _ _ Hr). apply fresh_films_NoDup.
  - intros k. rewrite (film_rows_titles _ _ Hr), fresh_films_titles, elem_of_uniques. done.
  - eapply Forall_impl; [exact (film_rows_of _ _ Hr)|].
    intros m (f & Hf & Hm). exists f. split; [|done]. by eapply fresh_films_sub.
Qed.

(** The job keeps the table well formed, whatever the fetch returned and
    whichever database calls failed. *)
Lemma syncronize_wf fault fetched : preserves table_wf (syncronize fault fetched).
Proof.
  intros t t' r Hwf Hrun. destruct fetched as [[films|]|e];
    [|unfold syncronize, mbind, from_result, throw in Hrun; by simplify_eq..].
  pose proof (syncronize_state fault films t) as Hs. rewrite Hrun in Hs.
  simpl in Hs. subst. by apply settle_sync_wf.
Qed.

(** Every other method keeps the table well formed too. *)
Lemma findAll_keeps (P : Table Movie -> Prop) fault : preserves P (findAll fault).
Proof. apply repo_find_keeps. Qed.

Lemma findOne_keeps (P : Table Movie -> Prop) fault id : preserves P (findOne fault id).
Proof. unfold findOne. preserves_tac. Qed.

Lemma create_wf fault dto : preserves table_wf (create fault dto).
Proof. unfold create. preserves_tac. Qed.

Lemma update_wf fault id dto : preserves table_wf (update fault id dto).
Proof. unfold update. preserves_tac. Qed.

Lemma remove_wf fault id : preserves table_wf (remove fault id).
Proof. unfold remove. preserves_tac. Qed.

Lemma dto_row_pk dto : dto_id dto = None -> pk (dto_row dto) = "".
Proof. intros Hid. unfold dto_row. by rewrite Hid. Qed.

(** C15: [create] from a body without [id] on a title that is taken:
    Conflict, table unchanged. *)
Lemma create_conflict fault dto t :
  dto_id dto = None ->
  fault (CallSave (dto_row dto)) = None -> holds_unique t (dto_title dto) ->
  create fault dto t = (t, Err (ConflictException "Movie already exists")).
Proof.
  intros Hid Hf Hu. unfold create.
  rewrite (catch_err_err _ _ _ _ _ (repo_save_taken fault (dto_row dto) t (dto_row_pk _ Hid) Hf Hu)).
  done.
Qed.

(** C17: [create] when the database fails for another reason: the error is
    wrapped in a 500, table unchanged. *)
Lemma create_internal_error fault dto t e :
  fault (CallSave (dto_row dto)) = Some e -> code e <> Some UNIQUE_VIOLATION ->
  create fault dto t = (t, Err (HttpException 500 (err_message e))).
Proof.
  intros Hf Hc. unfold create.
  rewrite (catch_err_err _ _ _ _ _ (repo_save_fault fault (dto_row dto) t _ Hf)).
  unfold is_unique_violation. simpl. by rewrite bool_decide_eq_false_2.
Qed.

(** C16: [create] from a body without [id] of a new title stores it under a fresh key, and
    [findOne] of that key returns it. *)
Lemma create_findOne dto t :
  table_wf t -> dto_id dto = None -> ~ holds_unique t (dto_title dto) ->
  exists t' m,
    create no_faults dto t = (t', Ok m) /\
    m = set_pk (uuid (gen_key t)) (dto_row dto) /\
    findOne no_faults (movie_id m) t' = (t', Ok m) /\
    table_wf t'.
Proof.
  intros Hwf Hid Hu. pose proof (dto_row_pk _ Hid) as Hk. unfold create.
  rewrite (catch_ok _ _ _ _ _ (repo_save_fresh no_faults (dto_row dto) t Hk eq_refl Hu)).
  eexists _, _. split_and!; [done|done| |].
  - unfold findOne, mbind, repo_findOneBy; simpl. by rewrite lookup_insert_eq.
  - eapply (repo_save_wf no_faults); [exact Hwf|]. by apply repo_save_fresh.
Qed.

(** C35: [create] saves the request body as it came: a body with the [id]
    of a stored movie replaces that movie by the body and answers with it,
    without a Conflict, even when the title is the stored movie's own, as
    long as no movie of another key holds the title. *)
Lemma create_overwrites dto t i :
  dto_id dto = Some i -> i <> "" ->
  (forall j s, rows t !! j = Some s -> title s = dto_title dto -> j = i) ->
  create no_faults dto t =
    (mkTable (<[i := dto_row dto]> (rows t)) (next_uuid t), Ok (dto_row dto)).
Proof.
  intros Hid Hne Hfree. unfold create.
  assert (Hk : pk (dto_row dto) = i) by (unfold dto_row; by rewrite Hid).
  rewrite <- Hk. apply catch_ok, repo_save_keyed; [congruence|done|].
  rewrite Hk. exact Hfree.
Qed.

(** C12: [findAll] returns every movie of the table, ordered by [episode_id]. *)
Lemma findAll_sorted t :
  exists l, findAll no_faults t = (t, Ok l) /\
            Sorted (key_le episode_id) l /\ Permutation l (values t).
Proof. eexists. split_and!; [done|apply sort_by_sorted|apply sort_by_perm]. Qed.

(** C13: [remove] of an absent key: NotFound, table unchanged. *)
Lemma remove_absent fault id t :
  fault (CallDelete id) = None -> rows t !! id = None ->
  remove fault id t = (t, Err (NotFoundException "Movie not found")).
Proof. intros Hf Hi. unfold remove, mbind, repo_delete. by rewrite Hf, Hi. Qed.

(** C14: [remove] of a present key: "Done", and no movie with that key is left. *)
Lemma remove_present id t m :
  table_wf t -> rows t !! id = Some m ->
  exists t', remove no_faults id t = (t', Ok "Done") /\
             table_wf t' /\ forall m', m' ∈ values t' -> movie_id m' <> id.
Proof.
  intros Hwf Hi. unfold remove, mbind, repo_delete; simpl. rewrite Hi; simpl.
  eexists. split_and!; [done|by apply wf_delete|].
  intros m' Hm' <-. apply values_spec in Hm' as [j Hj]. simpl in Hj.
  pose proof Hj as Hj'. apply lookup_delete_Some in Hj' as [Hne Hj'].
  destruct Hwf as (Hpk & _). by apply Hpk in Hj'.
Qed.

(** C20: [update] of an absent key does not fail: it returns [null]. *)
Lemma update_absent id dto t :
  update_is_empty dto = false -> rows t !! id = None ->
  update no_faults id dto t = (t, Ok None).
Proof.
  intros He Hi. unfold update, mbind, repo_update, repo_findOneBy; cbv beta.
  rewrite He, Hi. cbv beta iota delta [no_faults]. by rewrite Hi.
Qed.

(** [update] that renames a movie to the title of another one rejects
    with the database's raw unique-violation error, not a Conflict. *)
Lemma update_duplicate_title id dto t m j m2 x :
  upd_title dto = Some x -> rows t !! id = Some m ->
  rows t !! j = Some m2 -> title m2 = x -> j <> id ->
  update no_faults id dto t = (t, Err (Thrown unique_violation_error)).
Proof.
  intros Hx Hi Hj Ht Hne.
  assert (Hne' : update_is_empty dto = false).
  { unfold update_is_empty. apply bool_decide_eq_false_2. intros ->. done. }
  unfold update, mbind, repo_update; cbv beta.
  rewrite Hne', Hi. cbv beta iota zeta delta [no_faults].
  assert (Hu : unique_taken t (set_pk id (apply_update dto m)) (Some id) = true).
  { apply unique_taken_spec. exists j, m2. simpl. rewrite Hx. split_and!; [done|done|congruence]. }
  rewrite Hu. reflexivity.
Qed.

(** [update] with a DTO that sets no field rejects with TypeORM's error. *)
Lemma update_empty fault id t :
  update fault id (mkUpdateMovieDto None None None None None None) t =
  (t, Err (Thrown update_values_missing_error)).
Proof. reflexivity. Qed.

(** C19: The job does not stop at a failure: when the first film's save fails
    for a reason other than a duplicate, the job rejects with a 500, yet
    the second film has been inserted all the same. *)
Lemma syncronize_failure_keeps_later fault f1 f2 e t :
  fault (CallSave (film_row f1)) = Some e -> code e <> Some UNIQUE_VIOLATION ->
  fault (CallSave (film_row f2)) = None -> ~ holds_unique t (film_title f2) ->
  let '(t', r) := syncronize fault (Ok (Some [f1; f2])) t in
  r = Err (HttpException 500 (err_message e)) /\ holds_unique t' (film_title f2).
Proof.
  intros Hf1 Hc Hf2 Hu.
  unfold syncronize, mbind, from_result, with_local, promise_all; simpl.
  rewrite sync_one_eq, (repo_save_fault fault (film_row f1) t e Hf1).
  unfold is_unique_violation at 1; simpl. rewrite bool_decide_eq_false_2 by done.
  rewrite sync_one_eq, (repo_save_fresh fault (film_row f2) t (film_row_pk f2) Hf2 Hu). simpl.
  split; [done|]. eexists _, _. split; [apply lookup_insert_eq|done].
Qed.
End Facts.
End MoviesServiceFacts.

(** ** The properties at concrete inputs *)

Module MoviesServiceWitnesses.
Import MoviesService MoviesServiceSpec MoviesServiceFacts.

Definition new_hope : SwapiFilm :=
  mkSwapiFilm "A New Hope" 4 "It is a period of civil war." "George Lucas"
              "Gary Kurtz, Rick McCallum" "1977-05-25".
Definition empire : SwapiFilm :=
  mkSwapiFilm "The Empire Strikes Back" 5 "It is a dark time for the Rebellion."
              "Irvin Kershner" "Gary Kurtz, Rick McCallum" "1980-05-17".

(** A table holding one movie, under the first generated key. *)
Definition empire_row : Movie := set_pk (uuid 0) (film_row empire).
Definition one_movie : Table Movie := mkTable {[ uuid 0 := empire_row ]} 1.

Definition new_hope_dto : CreateMovieDto :=
  mkCreateMovieDto "A New Hope" 4 "It is a period of civil war." "George Lucas"
                   "Gary Kurtz, Rick McCallum" "1977-05-25" None.
Definition empire_dto : CreateMovieDto :=
  mkCreateMovieDto "The Empire Strikes Back" 5 "" "" "" "" None.

(** A database that loses its connection on every call. *)
Definition connection_lost : JsError := mkJsError (Some "08006") "connection failure".
Definition db_down : DbCall Movie -> option JsError := fun _ => Some connection_lost.

(** A database that fails only when saving [new_hope]. *)
Definition fails_on_new_hope : DbCall Movie -> option JsError := fun c =>
  match c with
  | CallSave r => if bool_decide (title r = film_title new_hope) then Some connection_lost else None
  | _ => None
  end.

Lemma syncronize_idempotent_witness :
  table_wf one_movie /\
  (let t1 := (syncronize no_faults (Ok (Some [new_hope; empire; new_hope])) one_movie).1 in
   syncronize no_faults (Ok (Some [new_hope; empire; new_hope])) t1 = (t1, Ok [])).
Proof.
  assert (H : table_wf one_movie) by by_decide.
  split; [exact H|]. exact (syncronize_idempotent _ _ H).
Defined.

Lemma remove_absent_witness :
  no_faults (CallDelete (R:=Movie) "missing") = None /\ rows one_movie !! "missing" = None /\
  remove no_faults "missing" one_movie = (one_movie, Err (NotFoundException "Movie not found")).
Proof.
  assert (H1 : no_faults (CallDelete (R:=Movie) "missing") = None) by reflexivity.
  assert (H2 : rows one_movie !! "missing" = None) by by_decide.
  split_and!; [exact H1|exact H2|exact (remove_absent _ _ _ H1 H2)].
Defined.

Lemma remove_present_witness :
  table_wf one_movie /\ rows one_movie !! uuid 0 = Some empire_row /\
  exists t', remove no_faults (uuid 0) one_movie = (t', Ok "Done") /\
             table_wf t' /\ forall m', m' ∈ values t' -> movie_id m' <> uuid 0.
Proof.
  assert (H1 : table_wf one_movie) by by_decide.
  assert (H2 : rows one_movie !! uuid 0 = Some empire_row) by by_decide.
  split_and!; [exact H1|exact H2|exact (remove_present _ _ _ H1 H2)].
Defined.

Lemma create_conflict_witness :
  dto_id empire_dto = None /\ no_faults (CallSave (dto_row empire_dto)) = None /\
  holds_unique one_movie (dto_title empire_dto) /\
  create no_faults empire_dto one_movie =
    (one_movie, Err (ConflictException "Movie already exists")).
Proof.
  assert (H0 : dto_id empire_dto = None) by reflexivity.
  assert (H1 : no_faults (CallSave (dto_row empire_dto)) = None) by reflexivity.
  assert (H2 : holds_unique one_movie (dto_title empire_dto)) by by_decide.
  split_and!; [exact H0|exact H1|exact H2|exact (create_conflict _ _ _ H0 H1 H2)].
Defined.

Lemma create_findOne_witness :
  table_wf one_movie /\ dto_id new_hope_dto = None /\
  ~ holds_unique one_movie (dto_title new_hope_dto) /\
  exists t' m,
    create no_faults new_hope_dto one_movie = (t', Ok m) /\
    m = set_pk (uuid (gen_key one_movie)) (dto_row new_hope_dto) /\
    findOne no_faults (movie_id m) t' = (t', Ok m) /\ table_wf t'.
Proof.
  assert (H1 : table_wf one_movie) by by_decide.
  assert (H0 : dto_id new_hope_dto = None) by reflexivity.
  assert (H2 : ~ holds_unique one_movie (dto_title new_hope_dto)) by by_decide.
  split_and!; [exact H1|exact H0|exact H2|exact (create_findOne _ _ H1 H0 H2)].
Defined.

Lemma create_internal_error_witness :
  db_down (CallSave (dto_row new_hope_dto)) = Some connection_lost /\
  code connection_lost <> Some UNIQUE_VIOLATION /\
  create db_down new_hope_dto one_movie =
    (one_movie, Err (HttpException 500 (err_message connection_lost))).
Proof.
  assert (H1 : db_down (CallSave (dto_row new_hope_dto)) = Some connection_lost) by reflexivity.
  assert (H2 : code connection_lost <> Some UNIQUE_VIOLATION) by by_decide.
  split_and!; [exact H1|exact H2|exact (create_internal_error _ _ _ _ H1 H2)].
Defined.

Lemma syncronize_failure_keeps_later_witness :
  fails_on_new_hope (CallSave (film_row new_hope)) = Some connection_lost /\
  code connection_lost <> Some UNIQUE_VIOLATION /\
  fails_on_new_hope (CallSave (film_row empire)) = None /\
  ~ holds_unique empty_table (film_title empire) /\
  (let '(t', r) := syncronize fails_on_new_hope (Ok (Some [new_hope; empire])) empty_table in
   r = Err (HttpException 500 (err_message connection_lost)) /\
   holds_unique t' (film_title empire)).
Proof.
  assert (H2 : fails_on_new_hope (CallSave (film_row new_hope)) = Some connection_lost)
    by reflexivity.
  assert (H3 : code connection_lost <> Some UNIQUE_VIOLATION) by by_decide.
  assert (H4 : fails_on_new_hope (CallSave (film_row empire)) = None) by reflexivity.
  assert (H5 : ~ holds_unique (@empty_table Movie) (film_title empire)) by by_decide.
  split_and!; [exact H2|exact H3|exact H4|exact H5|].
  exact (syncronize_failure_keeps_later _ _ _ _ _ H2 H3 H4 H5).
Defined.

Definition rename_dto : UpdateMovieDto :=
  mkUpdateMovieDto (Some "Return of the Jedi") None None None None None.

Lemma update_absent_witness :
  update_is_empty rename_dto = false /\ rows one_movie !! "missing" = None /\
  update no_faults "missing" rename_dto one_movie = (one_movie, Ok None).
Proof.
  assert (H1 : update_is_empty rename_dto = false) by reflexivity.
  assert (H2 : rows one_movie !! "missing" = None) by by_decide.
  split_and!; [exact H1|exact H2|exact (update_absent _ _ _ H1 H2)].
Defined.
(** A list with a film already stored and a film twice: one insertion. *)
Definition three_films : list SwapiFilm := [new_hope; empire; new_hope].

Lemma syncronize_spec_witness :
  table_wf one_movie /\
  exists t' ms,
    syncronize no_faults (Ok (Some three_films)) one_movie = (t', Ok ms) /\
    table_wf t' /\ values t' ≡ₚ values one_movie ++ ms /\
    NoDup (title <$> ms) /\
    (forall k, k ∈ title <$> ms <->
               (exists f, f ∈ three_films /\ film_title f = k) /\ ~ holds_unique one_movie k) /\
    Forall (fun m => exists f, f ∈ three_films /\ m = set_pk (movie_id m) (film_row f)) ms.
Proof.
  assert (H : table_wf one_movie) by by_decide.
  split; [exact H|exact (syncronize_spec three_films one_movie H)].
Defined.
(** A body with the key of the stored movie, its title and another director. *)
Definition hijack_dto : CreateMovieDto :=
  mkCreateMovieDto "The Empire Strikes Back" 5 "" "Someone Else" "" "" (Some (uuid 0)).

Lemma create_overwrites_witness :
  dto_id hijack_dto = Some (uuid 0) /\ uuid 0 <> "" /\
  (forall j s, rows one_movie !! j = Some s -> title s = dto_title hijack_dto -> j = uuid 0) /\
  create no_faults hijack_dto one_movie =
    (mkTable (<[uuid 0 := dto_row hijack_dto]> (rows one_movie)) (next_uuid one_movie),
     Ok (dto_row hijack_dto)).
Proof.
  assert (H1 : dto_id hijack_dto = Some (uuid 0)) by reflexivity.
  assert (H2 : uuid 0 <> "") by by_decide.
  assert (H3 : forall j s, rows one_movie !! j = Some s -> title s = dto_title hijack_dto ->
                 j = uuid 0).
  { intros j s Hj _. simpl in Hj. by apply lookup_singleton_Some in Hj as [<- _]. }
  split_and!; [exact H1|exact H2|exact H3|exact (create_overwrites _ _ _ H1 H2 H3)].
Defined.
End MoviesServiceWitnesses.
