(* ===== verification/SyncRuns.v ===== *)
(** * Overlapping runs of the synchronisation job

    [src/modules/movies/movies.service.ts]: [syncronize] runs at bootstrap
    and on [@Cron(CronExpression.EVERY_30_MINUTES)], and nothing keeps a
    run from starting while another is still in flight.  A run starts one
    task per film at once ([results.map(async ...)] under [Promise.all]);
    each task issues one [save] and then pushes to its own run's local
    array [movies].  The database runs the [INSERT]s of all the tasks in
    flight one at a time, in an order nobody controls.

    A run is numbered by its position in [runs] (the film lists the runs
    fetched); a task is [(run, film)]; a schedule is the order in which the
    database runs the tasks: any permutation of the tasks of all runs.
    This covers a single run whose tasks complete in any order, as well as
    overlapping runs.  The state is the table and the local array of each
    run. *)

From S2P Require Import Prelude Entities Repository MoviesService.

Module SyncRuns.
Import MoviesService MoviesServiceSpec MoviesServiceFacts.
Section SyncRuns.
Context `{UuidGen}.

(** The shared table and the [movies] array of each run, by run number. *)
Definition RunsState : Type := Table Movie * list (list Movie).

(** The task of run [r] for film [f]: [sync_one] on the shared table and
    the run's own array. *)
Definition run_task (fault : DbCall Movie -> option JsError) (task : nat * SwapiFilm)
    : M RunsState Exn unit :=
  fun st =>
    let '(r, f) := task in
    let '((t', acc'), res) := sync_one fault f (st.1, default [] (st.2 !! r)) in
    ((t', <[r := acc']> st.2), res).

(** The tasks of the runs, run by run, from run number [r] on. *)
Fixpoint tasks_from (r : nat) (runs : list (list SwapiFilm)) : list (nat * SwapiFilm) :=
  match runs with
  | [] => []
  | films :: runs' => (pair r <$> films) ++ tasks_from (S r) runs'
  end.

Definition tasks_of (runs : list (list SwapiFilm)) : list (nat * SwapiFilm) :=
  tasks_from 0 runs.

(** The database runs the tasks in the order [sched], every run's array
    starting empty; the outcome of each task. *)
Definition run_schedule (fault : DbCall Movie -> option JsError)
    (sched : list (nat * SwapiFilm)) (nruns : nat) (t : Table Movie)
    : RunsState * list (result Exn unit) :=
  settle_all (map (run_task fault) sched) (t, replicate nruns []).

(** What holds after the tasks [done] ran from table [t0]: the table is
    well formed, it holds [t0]'s rows and the rows the runs pushed, its
    titles are [t0]'s and those of the films done, and each run pushed only
    rows of its own films. *)
Definition runs_inv (t0 : Table Movie) (nruns : nat) (done : list (nat * SwapiFilm))
    (st : RunsState) : Prop :=
  table_wf st.1 /\ values st.1 ≡ₚ values t0 ++ concat st.2 /\
  (forall k, k ∈ uniques st.1 <-> k ∈ uniques t0 \/ k ∈ (film_title ∘ snd) <$> done) /\
  (forall r ms m, st.2 !! r = Some ms -> m ∈ ms ->
     exists f, (r, f) ∈ done /\ m = set_pk (movie_id m) (film_row f)) /\
  length st.2 = nruns.
End SyncRuns.
End SyncRuns.

(** ** Properties of overlapping runs *)

Module SyncRunsFacts.
Import MoviesService MoviesServiceSpec MoviesServiceFacts SyncRuns.
Section Facts.
Context `{UuidGen}.

Lemma elem_of_tasks_from r runs r' f :
  (r', f) ∈ tasks_from r runs <->
  r <= r' /\ exists films, runs !! (r' - r) = Some films /\ f ∈ films.
Proof.
  revert r. induction runs as [|films runs IH]; intros r; simpl.
  { rewrite elem_of_nil. split; [done|]. intros (_ & films & Hl & _).
    by rewrite lookup_nil in Hl. }
  rewrite elem_of_app, IH, list_elem_of_fmap. split.
  - intros [(g & [= -> ->] & Hf)|(Hle & films' & Hl & Hf)].
    + split; [lia|]. exists films. by rewrite Nat.sub_diag.
    + split; [lia|]. exists films'. split; [|done].
      by replace (r' - r) with (S (r' - S r)) by lia.
  - intros (Hle & films' & Hl & Hf). destruct (decide (r' = r)) as [->|Hne].
    + left. rewrite Nat.sub_diag in Hl. simpl in Hl. simplify_eq. exists f. by split.
    + right. split; [lia|]. exists films'. split; [|done].
      by replace (r' - r) with (S (r' - S r)) in Hl by lia.
Qed.

Lemma elem_of_tasks_of runs r f :
  (r, f) ∈ tasks_of runs <-> exists films, runs !! r = Some films /\ f ∈ films.
Proof. unfold tasks_of. rewrite elem_of_tasks_from, Nat.sub_0_r. naive_solver lia. Qed.

(** Without faults one task keeps [runs_inv] and fulfils. *)
Lemma run_task_step t0 nruns done t locals r f :
  runs_inv t0 nruns done (t, locals) -> r < nruns ->
  exists st', run_task no_faults (r, f) (t, locals) = (st', Ok tt) /\
              runs_inv t0 nruns (done ++ [(r, f)]) st'.
Proof.
  intros (Hwf & Hv & Hk & Hm & Hlen) Hr. simpl in *.
  destruct (lookup_lt_is_Some_2 locals r) as [acc Hacc]; [lia|].
  unfold run_task; simpl. rewrite Hacc; simpl.
  destruct (decide (holds_unique t (film_title f))) as [Hu|Hu].
  - rewrite sync_one_dup by done. eexists. split; [done|].
    rewrite list_insert_id by done. split_and!; simpl; try done.
    + intros k. rewrite Hk, fmap_app, elem_of_app, fmap_cons, fmap_nil,
        list_elem_of_singleton. simpl.
      pose proof (proj2 (elem_of_uniques t (film_title f)) Hu) as Hin.
      rewrite Hk in Hin. naive_solver.
    + intros r' ms m Hl Hin. destruct (Hm r' ms m Hl Hin) as (g & Hg & Heq).
      exists g. split; [|done]. rewrite elem_of_app. by left.
  - destruct (sync_one_fresh f t acc Hwf Hu) as (t1 & m & -> & Hwf1 & Hv1 & Hu1 & Hm1).
    eexists. split; [done|]. split_and!; simpl.
    + done.
    + rewrite Hv1, Hv, concat_insert_snoc by done. solve_Permutation.
    + intros k. rewrite Hu1, elem_of_cons, Hk, fmap_app, elem_of_app, fmap_cons,
        fmap_nil, list_elem_of_singleton. simpl. naive_solver.
    + intros r' ms m' Hl Hin. rewrite list_lookup_insert in Hl.
      case_decide as Hc; [destruct Hc as [<- _]; simplify_eq|].
      * apply elem_of_app in Hin as [Hin|Hin%list_elem_of_singleton].
        -- destruct (Hm r acc m' Hacc Hin) as (g & Hg & Heq).
           exists g. split; [|done]. rewrite elem_of_app. by left.
        -- subst. exists f. split; [|done]. rewrite elem_of_app, list_elem_of_singleton. by right.
      * destruct (Hm r' ms m' Hl Hin) as (g & Hg & Heq).
        exists g. split; [|done]. rewrite elem_of_app. by left.
    + by rewrite length_insert.
Qed.

(** Without faults every task of a schedule over existing runs fulfils,
    and [runs_inv] holds at the end. *)
Lemma settle_runs sched t0 nruns done st :
  runs_inv t0 nruns done st -> Forall (fun task => task.1 < nruns) sched ->
  exists st', settle_all (map (run_task no_faults) sched) st = (st', map (fun _ => Ok tt) sched) /\
              runs_inv t0 nruns (done ++ sched) st'.
Proof.
  revert done st. induction sched as [|[r f] sched IH]; intros done [t locals] Hinv Hall.
  { exists (t, locals). by rewrite app_nil_r. }
  apply Forall_cons in Hall as [Hr Hall]. simpl in Hr.
  destruct (run_task_step t0 nruns done t locals r f Hinv Hr) as (st1 & Hs & Hinv1).
  cbn [map settle_all]. rewrite Hs.
  destruct (IH (done ++ [(r, f)]) st1 Hinv1 Hall) as (st' & -> & Hinv').
  exists st'. rewrite <- app_assoc in Hinv'. by split.
Qed.

Lemma runs_inv_init t nruns :
  table_wf t -> runs_inv t nruns [] (t, replicate nruns []).
Proof.
  intros Hwf. split_and!; simpl.
  - done.
  - by rewrite concat_replicate_nil, app_nil_r.
  - intros k. rewrite elem_of_nil. set_solver.
  - intros r ms m Hl Hin. apply lookup_replicate in Hl as [-> _].
    by apply elem_of_nil in Hin.
  - apply length_replicate.
Qed.

Lemma schedule_in_range runs sched :
  sched ≡ₚ tasks_of runs -> Forall (fun task => task.1 < length runs) sched.
Proof.
  intros Hp. apply Forall_forall. intros [r f] Hin. rewrite Hp, elem_of_tasks_of in Hin.
  destruct Hin as (films & Hl & _). simpl. by eapply lookup_lt_Some.
Qed.

(** The titles of the films of a schedule are those of the runs. *)
Lemma schedule_titles runs sched k :
  sched ≡ₚ tasks_of runs ->
  k ∈ (film_title ∘ snd) <$> sched <-> exists films f, films ∈ runs /\ f ∈ films /\ film_title f = k.
Proof.
  intros Hp. rewrite Hp, list_elem_of_fmap. split.
  - intros ([r f] & -> & Hin). apply elem_of_tasks_of in Hin as (films & Hl & Hf).
    exists films, f. split_and!; [by eapply list_elem_of_lookup_2|done|done].
  - intros (films & f & Hfs & Hf & <-). apply list_elem_of_lookup in Hfs as [r Hr].
    exists (r, f). split; [done|]. apply elem_of_tasks_of. eauto.
Qed.
(** One run whose tasks complete in list order is the job of
    [MoviesService]: same tasks, same table, same array. *)
Lemma run_schedule_single fault films t :
  run_schedule fault (tasks_of [films]) 1 t =
    let '((t', acc), rs) := settle_all (map (sync_one fault) films) (t, []) in
    ((t', [acc]), rs).
Proof.
  unfold run_schedule, tasks_of. simpl. rewrite app_nil_r.
  change (replicate 1 (@nil Movie)) with [@nil Movie]. generalize (@nil Movie) as acc.
  revert t. induction films as [|f films IH]; intros t acc; [done|].
  cbn [fmap list_fmap map settle_all]. unfold run_task at 1. simpl.
  destruct (sync_one fault f (t, acc)) as [[t1 acc1] r1]. simpl.
  rewrite (IH t1 acc1). by destruct (settle_all _ _) as [[? ?] ?].
Qed.

(** C26: Whatever order the database runs the tasks of overlapping runs
    of the job in, without faults: every task fulfils; the table stays
    well formed, no title twice; it ends with its old rows and exactly the
    rows the runs return; its titles are the old ones and those of all the
    fetched films; and each run returns only rows of films it fetched. *)
Theorem sync_runs_safe runs sched t :
  table_wf t -> sched ≡ₚ tasks_of runs ->
  exists t' locals,
    run_schedule no_faults sched (length runs) t = ((t', locals), map (fun _ => Ok tt) sched) /\
    table_wf t' /\ NoDup (uniques t') /\ values t' ≡ₚ values t ++ concat locals /\
    (forall k, k ∈ uniques t' <->
       k ∈ uniques t \/ exists films f, films ∈ runs /\ f ∈ films /\ film_title f = k) /\
    (forall r ms m, locals !! r = Some ms -> m ∈ ms ->
       exists films f, runs !! r = Some films /\ f ∈ films /\
                       m = set_pk (movie_id m) (film_row f)).
Proof.
  intros Hwf Hp.
  destruct (settle_runs sched t (length runs) [] _ (runs_inv_init t _ Hwf)
              (schedule_in_range runs sched Hp))
    as ([t' locals] & Hrun & Hwf' & Hv & Hk & Hm & _).
  exists t', locals. split_and!; [exact Hrun|done|by apply uniques_NoDup|done| |].
  - intros k. simpl in Hk. by rewrite Hk, (schedule_titles runs sched k Hp).
  - intros r ms m Hl Hin. destruct (Hm r ms m Hl Hin) as (f & Hf & Heq).
    simpl in Hf. rewrite Hp, elem_of_tasks_of in Hf. destruct Hf as (films & ? & ?). eauto.
Qed.

(** C27: Across overlapping runs, without faults, no film row is returned
    twice and none was stored before: each title the runs insert is
    inserted and returned by exactly one task. *)
Theorem sync_runs_returned_once runs sched t :
  table_wf t -> sched ≡ₚ tasks_of runs ->
  let locals := (run_schedule no_faults sched (length runs) t).1.2 in
  NoDup (title <$> concat locals) /\
  forall m, m ∈ concat locals -> title m ∉ uniques t.
Proof.
  intros Hwf Hp locals.
  destruct (sync_runs_safe runs sched t Hwf Hp) as (t' & ls & Hrun & _ & Hnd & Hv & _).
  subst locals. rewrite Hrun. simpl.
  assert (Hu : uniques t' ≡ₚ uniques t ++ (title <$> concat ls))
    by (unfold uniques; by rewrite Hv, fmap_app).
  rewrite Hu in Hnd. apply NoDup_app in Hnd as (_ & Hdis & Hnd). split; [done|].
  intros m Hm Ht. apply (Hdis (title m) Ht). by apply list_elem_of_fmap_2.
Qed.

End Facts.
End SyncRunsFacts.

(** ** Two overlapping runs *)

Module SyncRunsWitnesses.
Import MoviesService MoviesServiceWitnesses SyncRuns SyncRunsFacts.

(** Two runs fetched the same films in opposite orders; the database
    interleaves their tasks. *)
Definition two_runs : list (list SwapiFilm) := [[new_hope; empire]; [empire; new_hope]].
Definition interleaved : list (nat * SwapiFilm) :=
  [(1, empire); (0, new_hope); (0, empire); (1, new_hope)].

(** Run 1 inserts [empire] first, run 0 [new_hope]; the other two tasks
    meet a duplicate. *)
Lemma interleaved_outcome :
  run_schedule no_faults interleaved 2 empty_table =
    ((mkTable {[ uuid 0 := set_pk (uuid 0) (film_row empire);
                 uuid 1 := set_pk (uuid 1) (film_row new_hope) ]} 2,
      [[set_pk (uuid 1) (film_row new_hope)]; [set_pk (uuid 0) (film_row empire)]]),
     [Ok tt; Ok tt; Ok tt; Ok tt]).
Proof. vm_compute. reflexivity. Qed.

Lemma sync_runs_safe_witness :
  table_wf empty_table /\ interleaved ≡ₚ tasks_of two_runs /\
  exists t' locals,
    run_schedule no_faults interleaved (length two_runs) empty_table =
      ((t', locals), map (fun _ => Ok tt) interleaved) /\
    table_wf t' /\ NoDup (uniques t') /\ values t' ≡ₚ values empty_table ++ concat locals /\
    (forall k, k ∈ uniques t' <->
       k ∈ uniques empty_table \/
       exists films f, films ∈ two_runs /\ f ∈ films /\ film_title f = k) /\
    (forall r ms m, locals !! r = Some ms -> m ∈ ms ->
       exists films f, two_runs !! r = Some films /\ f ∈ films /\
                       m = set_pk (movie_id m) (film_row f)).
Proof.
  assert (H1 : table_wf (@empty_table Movie)) by apply empty_table_wf.
  assert (H2 : interleaved ≡ₚ tasks_of two_runs) by by_decide.
  split_and!; [exact H1|exact H2|exact (sync_runs_safe two_runs interleaved empty_table H1 H2)].
Defined.

Lemma sync_runs_returned_once_witness :
  table_wf empty_table /\ interleaved ≡ₚ tasks_of two_runs /\
  let locals := (run_schedule no_faults interleaved (length two_runs) empty_table).1.2 in
  NoDup (title <$> concat locals) /\
  forall m, m ∈ concat locals -> title m ∉ uniques empty_table.
Proof.
  assert (H1 : table_wf (@empty_table Movie)) by apply empty_table_wf.
  assert (H2 : interleaved ≡ₚ tasks_of two_runs) by by_decide.
  split_and!; [exact H1|exact H2|exact (sync_runs_returned_once two_runs interleaved empty_table H1 H2)].
Defined.

End SyncRunsWitnesses.
