(* ===== verification/Timespan.v ===== *)
(** * [expiresIn]: the [ms] timespans of jsonwebtoken

    [src/modules/auth/auth.service.ts] signs tokens with
    [expiresIn: this.configService.get('ACCESSTOKEN_EXPIRATION')] (and the
    refresh one); [IEnvs] types these variables as [string], and
    environment variables are strings.  jsonwebtoken (not in [src/],
    modelled from its documented behaviour) reads a string [expiresIn]
    with the [ms] package and sets [exp = Math.floor(iat + ms(expiresIn) /
    1000)].

    [ms.parse(str)] answers [undefined] for a string longer than 100
    characters or one that does not match
    [/^(-?(?:\d+)?\.?\d+) *(milliseconds?|msecs?|ms|seconds?|secs?|s|
    minutes?|mins?|m|hours?|hrs?|h|days?|d|weeks?|w|years?|yrs?|y)?$/i],
    and otherwise the number times the unit's milliseconds, a missing unit
    meaning milliseconds.  [Ms.parse] scans the string the way the pattern
    reads it; the number is kept exact (digits and decimal places), so the
    division by 1000 and the floor are exact where JavaScript rounds
    binary floating point. *)

From S2P Require Import Prelude.

Module Ms.

Definition is_digit (c : Ascii.ascii) : bool :=
  let n := Ascii.nat_of_ascii c in (Nat.leb 48 n && Nat.leb n 57)%bool.

Definition digit_value (c : Ascii.ascii) : Z := (Z.of_nat (Ascii.nat_of_ascii c) - 48)%Z.

(** The longest prefix of digits ([\d+] is greedy) and the rest. *)
Fixpoint span_digits (l : list Ascii.ascii) : list Ascii.ascii * list Ascii.ascii :=
  match l with
  | c :: l' => if is_digit c then let '(d, r) := span_digits l' in (c :: d, r) else ([], l)
  | [] => ([], [])
  end.

(** The value of a string of decimal digits. *)
Definition digits_value (l : list Ascii.ascii) : Z :=
  fold_left (fun acc c => acc * 10 + digit_value c)%Z l 0%Z.

(** [ *]: the spaces before the unit. *)
Fixpoint drop_spaces (l : list Ascii.ascii) : list Ascii.ascii :=
  match l with
  | c :: l' => if Nat.eqb (Ascii.nat_of_ascii c) 32 then drop_spaces l' else l
  | [] => []
  end.

(** [toLowerCase] on ASCII letters. *)
Definition lower (c : Ascii.ascii) : Ascii.ascii :=
  let n := Ascii.nat_of_ascii c in
  if (Nat.leb 65 n && Nat.leb n 90)%bool then Ascii.ascii_of_nat (n + 32) else c.

(** The units of the pattern, in milliseconds; the empty unit is [ms]. *)
Definition unit_ms (u : string) : option Z :=
  match u with
  | "years" | "year" | "yrs" | "yr" | "y" => Some 31557600000
  | "weeks" | "week" | "w" => Some 604800000
  | "days" | "day" | "d" => Some 86400000
  | "hours" | "hour" | "hrs" | "hr" | "h" => Some 3600000
  | "minutes" | "minute" | "mins" | "min" | "m" => Some 60000
  | "seconds" | "second" | "secs" | "sec" | "s" => Some 1000
  | "milliseconds" | "millisecond" | "msecs" | "msec" | "ms" | "" => Some 1
  | _ => None
  end%Z.

(** The number [-?(?:\d+)?\.?\d+]: its sign, its integer and decimal
    digits, and what follows it. *)
Definition parse_number (l : list Ascii.ascii)
    : option (bool * list Ascii.ascii * list Ascii.ascii * list Ascii.ascii) :=
  let '(neg, l1) := match l with
                    | c :: l' => if Nat.eqb (Ascii.nat_of_ascii c) 45 then (true, l') else (false, l)
                    | [] => (false, [])
                    end in
  let '(d1, l2) := span_digits l1 in
  let integer := match d1 with [] => None | _ => Some (neg, d1, [], l2) end in
  match l2 with
  | c :: l3 =>
      if Nat.eqb (Ascii.nat_of_ascii c) 46 then
        match span_digits l3 with
        | ([], _) => integer
        | (d2, l4) => Some (neg, d1, d2, l4)
        end
      else integer
  | [] => integer
  end.

(** [ms(str)] in milliseconds, as the exact fraction [num / den]. *)
Definition parse (str : string) : option (Z * Z) :=
  if Nat.ltb 100 (String.length str) then None else
  match parse_number (String.list_ascii_of_string str) with
  | None => None
  | Some (neg, d1, d2, rest) =>
      let u := String.string_of_list_ascii (map lower (drop_spaces rest)) in
      (fun k => ((if neg then -1 else 1) * digits_value (d1 ++ d2) * k,
                 10 ^ Z.of_nat (length d2)))%Z <$> unit_ms u
  end.

(** jsonwebtoken's [timespan(expiresIn, iat) - iat]:
    [Math.floor(ms(expiresIn) / 1000)] seconds. *)
Definition timespan (str : string) : option Z :=
  (fun '(num, den) => num `div` (den * 1000))%Z <$> parse str.
End Ms.

(** ** Reading back a printed number of units *)

Module MsFacts.
Import Ms.

Lemma string_app_assoc (a b c : string) : (a +:+ b) +:+ c = a +:+ (b +:+ c).
Proof.
  induction a as [|x a IH]; [done|].
  change (String x ((a +:+ b) +:+ c) = String x (a +:+ (b +:+ c))). by rewrite IH.
Qed.

Lemma string_app_nil_r (a : string) : a +:+ "" = a.
Proof. induction a as [|x a IH]; [done|]. change (String x (a +:+ "") = String x a). by rewrite IH. Qed.

Lemma list_ascii_app (a b : string) :
  String.list_ascii_of_string (a +:+ b) =
  String.list_ascii_of_string a ++ String.list_ascii_of_string b.
Proof.
  induction a as [|x a IH]; [done|].
  change (String.list_ascii_of_string (String x (a +:+ b)) =
          x :: String.list_ascii_of_string a ++ String.list_ascii_of_string b).
  simpl. by rewrite IH.
Qed.

Lemma pretty_N_go_app x s : pretty_N_go x s = pretty_N_go x "" +:+ s.
Proof.
  revert s. induction (N.lt_wf_0 x) as [x _ IH]; intros s.
  destruct (decide (x = 0%N)) as [->|Hx]; [by rewrite !pretty_N_go_0|].
  rewrite !(pretty_N_go_step x) by lia.
  assert (Hlt : (x `div` 10 < x)%N) by (apply N.div_lt; lia).
  rewrite (IH _ Hlt (String _ s)), (IH _ Hlt (String _ "")), string_app_assoc. done.
Qed.

(** The decimal digits stdpp prints for a number. *)
Definition digits_of (x : N) : list Ascii.ascii := String.list_ascii_of_string (pretty_N_go x "").

Lemma digits_of_step x :
  (0 < x)%N -> digits_of x = digits_of (x `div` 10) ++ [pretty_N_char (x `mod` 10)].
Proof.
  intros Hx. unfold digits_of. rewrite pretty_N_go_step, pretty_N_go_app, list_ascii_app by lia.
  done.
Qed.

Lemma pretty_N_char_digit m :
  (m < 10)%N -> is_digit (pretty_N_char m) = true /\ digit_value (pretty_N_char m) = Z.of_N m.
Proof.
  intros Hm. assert (m = 0 \/ m = 1 \/ m = 2 \/ m = 3 \/ m = 4 \/ m = 5 \/ m = 6 \/
                     m = 7 \/ m = 8 \/ m = 9)%N as Hc by lia.
  destruct_or!; subst; split; reflexivity.
Qed.

Lemma digits_value_snoc l c : digits_value (l ++ [c]) = (digits_value l * 10 + digit_value c)%Z.
Proof. unfold digits_value. by rewrite fold_left_app. Qed.

Lemma digits_of_spec x :
  Forall (fun c => is_digit c = true) (digits_of x) /\ digits_value (digits_of x) = Z.of_N x.
Proof.
  induction (N.lt_wf_0 x) as [x _ IH].
  destruct (decide (x = 0%N)) as [->|Hx]; [split; [constructor|done]|].
  assert (Hlt : (x `div` 10 < x)%N) by (apply N.div_lt; lia).
  destruct (IH _ Hlt) as [Hd Hv].
  destruct (pretty_N_char_digit (x `mod` 10)) as [Hc Hcv]; [apply N.mod_lt; lia|].
  rewrite digits_of_step by lia. split.
  - apply Forall_app. split; [done|by constructor].
  - rewrite digits_value_snoc, Hv, Hcv. pose proof (N.div_mod x 10). lia.
Qed.

(** [pretty n] is a non-empty string of digits whose value is [n]. *)
Lemma pretty_N_spec n :
  exists c ds, String.list_ascii_of_string (pretty n) = c :: ds /\
    Forall (fun c => is_digit c = true) (c :: ds) /\ digits_value (c :: ds) = Z.of_N n.
Proof.
  unfold pretty, pretty_N. case_decide as Hn.
  - subst. exists (Ascii.ascii_of_nat 48), []. split_and!; [reflexivity|by repeat constructor|reflexivity].
  - destruct (digits_of_spec n) as [Hd Hv]. unfold digits_of in *.
    destruct (String.list_ascii_of_string (pretty_N_go n "")) as [|c ds] eqn:Hl.
    + unfold digits_value in Hv. simpl in Hv. lia.
    + by exists c, ds.
Qed.

(** The characters of a unit word: lower-case letters. *)
Definition is_lower (c : Ascii.ascii) : bool :=
  let n := Ascii.nat_of_ascii c in (Nat.leb 97 n && Nat.leb n 122)%bool.

Lemma span_digits_app ds r :
  Forall (fun c => is_digit c = true) ds -> Forall (fun c => is_lower c = true) r ->
  span_digits (ds ++ r) = (ds, r).
Proof.
  intros Hd Hr. induction Hd as [|c ds Hc _ IH]; simpl.
  - destruct Hr as [|c r Hc _]; [done|]. simpl.
    unfold is_digit, is_lower in *. destruct (Nat.leb_spec 48 (Ascii.nat_of_ascii c)),
      (Nat.leb_spec (Ascii.nat_of_ascii c) 57), (Nat.leb_spec 97 (Ascii.nat_of_ascii c));
      simpl in *; try done; lia.
  - by rewrite Hc, IH.
Qed.

Lemma lower_letter_keep c : is_lower c = true -> Nat.eqb (Ascii.nat_of_ascii c) 32 = false /\ lower c = c.
Proof.
  unfold is_lower, lower. intros Hc.
  destruct (Nat.leb_spec 97 (Ascii.nat_of_ascii c)),
    (Nat.leb_spec (Ascii.nat_of_ascii c) 122); simpl in Hc; try done.
  split; [apply Nat.eqb_neq; lia|].
  destruct (Nat.leb_spec 65 (Ascii.nat_of_ascii c)),
    (Nat.leb_spec (Ascii.nat_of_ascii c) 90); simpl; [lia|done..].
Qed.

Lemma lower_letters_keep r :
  Forall (fun c => is_lower c = true) r -> map lower (drop_spaces r) = r.
Proof.
  intros Hr. destruct Hr as [|c r Hc Hr]; [done|].
  destruct (lower_letter_keep c Hc) as [Hsp Hlow]. simpl. rewrite Hsp. simpl. rewrite Hlow.
  f_equal. induction Hr as [|c' r' Hc' _ IH]; [done|]. simpl.
  by rewrite (proj2 (lower_letter_keep c' Hc')), IH.
Qed.

Lemma parse_number_int c ds r :
  Forall (fun c => is_digit c = true) (c :: ds) -> Forall (fun c => is_lower c = true) r ->
  parse_number ((c :: ds) ++ r) = Some (false, c :: ds, [], r).
Proof.
  intros Hd Hr. unfold parse_number.
  assert (Hc : Nat.eqb (Ascii.nat_of_ascii c) 45 = false).
  { apply Forall_cons in Hd as [Hc _]. unfold is_digit in Hc. apply Nat.eqb_neq.
    destruct (Nat.leb_spec 48 (Ascii.nat_of_ascii c)); simpl in Hc; [lia|done]. }
  cbn [app]. rewrite Hc. cbv beta iota zeta.
  change (c :: ds ++ r) with ((c :: ds) ++ r). rewrite span_digits_app by done.
  destruct Hr as [|c' r' Hc' _]; [done|].
  assert (Hdot : Nat.eqb (Ascii.nat_of_ascii c') 46 = false).
  { unfold is_lower in Hc'. apply Nat.eqb_neq.
    destruct (Nat.leb_spec 97 (Ascii.nat_of_ascii c')); simpl in Hc'; [lia|done]. }
  by rewrite Hdot.
Qed.

(** A number printed in decimal followed by a unit word of [ms]
    reads back as that number of units, in whole seconds: [timespan] of
    [pretty n ++ u] is [n * unit / 1000] (and [None] for a word that is
    not a unit). *)
Theorem timespan_pretty n u :
  Forall (fun c => is_lower c = true) (String.list_ascii_of_string u) ->
  String.length (pretty n +:+ u) <= 100 ->
  timespan (pretty n +:+ u) = (fun k => (Z.of_N n * k) `div` 1000)%Z <$> unit_ms u.
Proof.
  intros Hu Hlen. unfold timespan, parse.
  rewrite (proj2 (Nat.ltb_ge _ _) Hlen), list_ascii_app.
  destruct (pretty_N_spec n) as (c & ds & -> & Hd & Hv).
  rewrite parse_number_int by done. cbv beta iota zeta.
  rewrite lower_letters_keep, String.string_of_list_ascii_of_string, app_nil_r, Hv by done.
  destruct (unit_ms u); [|done]. simpl. by rewrite !Z.mul_1_l.
Qed.

(** A number of seconds written with the unit [s] reads back exactly. *)
Lemma timespan_seconds n :
  String.length (pretty n +:+ "s") <= 100 -> timespan (pretty n +:+ "s") = Some (Z.of_N n).
Proof.
  intros Hlen. rewrite timespan_pretty; [|by repeat constructor|done]. simpl.
  f_equal. apply Z.div_mul. lia.
Qed.

(** A number without unit is read as milliseconds. *)
Lemma timespan_unitless n :
  String.length (pretty n) <= 100 -> timespan (pretty n) = Some (Z.of_N n `div` 1000)%Z.
Proof.
  intros Hlen. rewrite <- (string_app_nil_r (pretty n)).
  rewrite timespan_pretty; [|constructor|by rewrite string_app_nil_r]. simpl.
  by rewrite Z.mul_1_r.
Qed.
End MsFacts.
