(* ===== verification/Crypto.v ===== *)
(** * Password hashing and JSON Web Tokens (library semantics)

    The auth code calls [bcrypt]'s [hashSync]/[compareSync], [@nestjs/jwt]'s
    [JwtService.sign] (which calls [jsonwebtoken.sign]) and, through the
    passport-jwt strategies, [jsonwebtoken.verify].  None of these is in
    [src/]; this file states what the program relies on them for, as
    interfaces with laws:
    - [Bcrypt]: comparing a password with its own hash succeeds, with the
      hash of a different password fails, and a hash is never the password;
    - [JwtLib]: the HMAC of the claims under a secret determines the secret
      (a token signed with one secret never verifies under another).
    An [expiresIn] string is read by [Ms.timespan] ([Timespan.v]).
    A token is modelled by its decoded parts (claims and signature); the
    base64url encoding of [header.payload.signature] is not modelled.

    [jsonwebtoken.sign] is modelled as the library does it: [iat] is the
    current time in seconds, [exp] is [iat + timespan expiresIn] when
    [expiresIn] is given and absent when it is [undefined], an empty secret
    or an unreadable [expiresIn] is an error.  [verify] checks the signature,
    then [exp] against the clock ([now >= exp] is expired). *)

From S2P Require Import Prelude Entities Timespan.
Import Ms.

(** ** bcrypt *)

Class Bcrypt := {
  hashSync : string -> N -> string;
  compareSync : string -> string -> bool;
  compareSync_hash pw rounds : compareSync pw (hashSync pw rounds) = true;
  compareSync_other pw pw' rounds : pw <> pw' -> compareSync pw (hashSync pw' rounds) = false;
  hashSync_not_plain pw rounds : hashSync pw rounds <> pw;
}.

(** An instance for evaluation (not a hash function: it is injective and
    marked, which is all the laws ask). *)
#[export] Program Instance bcrypt_model : Bcrypt := {|
  hashSync pw rounds := "$2b$10$" +:+ pw;
  compareSync pw h := bool_decide (h = "$2b$10$" +:+ pw);
|}.
Next Obligation. intros. by apply bool_decide_eq_true_2. Qed.
Next Obligation.
  intros pw pw' r Hne. apply bool_decide_eq_false_2. intros Heq.
  apply (inj (String.append "$2b$10$")) in Heq. congruence.
Qed.
Next Obligation.
  intros pw r Heq. apply (f_equal String.length) in Heq. simpl in Heq.
  change ("" +:+ pw) with pw in Heq. lia.
Qed.

(** ** JSON Web Tokens *)

(** The payload the code signs: [{ id: user.id, role: user.role }]. *)
Record Payload := mkPayload {
  p_id : string;
  p_role : Roles;
}.

(** The claims of a signed token: the payload, [iat] and, when an
    expiration was given, [exp] (seconds since the epoch). *)
Record Claims := mkClaims {
  c_payload : Payload;
  c_iat : Z;
  c_exp : option Z;
}.

(** A token by its decoded parts. *)
Record Jwt := mkJwt {
  jwt_claims : Claims;
  jwt_signature : string;
}.

#[export] Instance Payload_eq_dec : EqDecision Payload.
Proof. solve_decision. Defined.
#[export] Instance Claims_eq_dec : EqDecision Claims.
Proof. solve_decision. Defined.
#[export] Instance Jwt_eq_dec : EqDecision Jwt.
Proof. solve_decision. Defined.

Class JwtLib := {
  hmac : string -> Claims -> string;
  hmac_secret_inj k1 k2 c : hmac k1 c = hmac k2 c -> k1 = k2;
}.

(** Options of [jwtService.sign(payload, { secret, expiresIn })], as read
    from the configuration ([undefined] is [None]). *)
Record SignOptions := mkSignOptions {
  opt_secret : option string;
  opt_expiresIn : option string;
}.

Definition secret_missing_error : JsError :=
  mkJsError None "secretOrPrivateKey must have a value".
Definition expiresIn_invalid_error : JsError :=
  mkJsError None "expiresIn should be a number of seconds or string representing a timespan".
Definition invalid_signature_error : JsError :=
  mkJsError None "invalid signature".
Definition jwt_expired_error : JsError :=
  mkJsError None "jwt expired".

Section Jwt.
Context `{JwtLib}.

(** [jwtService.sign(payload, options)] at time [now] (seconds). *)
Definition jwt_sign (now : Z) (p : Payload) (o : SignOptions) : result JsError Jwt :=
  match opt_secret o with
  | None => Err secret_missing_error
  | Some secret =>
      if bool_decide (secret = "") then Err secret_missing_error else
      let exp := match opt_expiresIn o with
                 | None => Some None
                 | Some s => (fun d => Some (now + d)%Z) <$> timespan s
                 end in
      match exp with
      | None => Err expiresIn_invalid_error
      | Some e =>
          let c := mkClaims p now e in
          Ok (mkJwt c (hmac secret c))
      end
  end.

(** [jsonwebtoken.verify(token, secret)] at time [now], with
    [ignoreExpiration: false]. *)
Definition jwt_verify (now : Z) (secret : string) (t : Jwt) : result JsError Claims :=
  if bool_decide (jwt_signature t = hmac secret (jwt_claims t)) then
    match c_exp (jwt_claims t) with
    | Some e => if Z.leb e now then Err jwt_expired_error else Ok (jwt_claims t)
    | None => Ok (jwt_claims t)
    end
  else Err invalid_signature_error.
End Jwt.

(** An instance for evaluation: the "HMAC" writes the claims and appends
    the secret. *)
Definition claims_digest (c : Claims) : string :=
  p_id (c_payload c) +:+ "." +:+ role_value (p_role (c_payload c)) +:+ "." +:+
  pretty (c_iat c) +:+ "." +:+ default "" (pretty <$> c_exp c) +:+ ".".

Lemma claims_hmac_inj k1 k2 c :
  claims_digest c +:+ k1 = claims_digest c +:+ k2 -> k1 = k2.
Proof. intros Heq. by apply (inj (String.append (claims_digest c))) in Heq. Qed.

#[export] Instance jwt_model : JwtLib := {|
  hmac k c := claims_digest c +:+ k;
  hmac_secret_inj := claims_hmac_inj;
|}.

(** ** Sign and verify *)

Section JwtFacts.
Context `{JwtLib}.

(** What a successful [sign] produced: the payload, [iat = now], the
    signature under the secret, and [exp] read from [expiresIn]. *)
Lemma jwt_sign_Ok now p o t :
  jwt_sign now p o = Ok t ->
  exists secret, opt_secret o = Some secret /\ secret <> "" /\
    c_payload (jwt_claims t) = p /\ c_iat (jwt_claims t) = now /\
    jwt_signature t = hmac secret (jwt_claims t) /\
    c_exp (jwt_claims t) = match opt_expiresIn o with
                           | None => None
                           | Some s => (fun d => (now + d)%Z) <$> timespan s
                           end.
Proof.
  unfold jwt_sign. destruct (opt_secret o) as [secret|]; [|done].
  case_bool_decide as Hne; [done|].
  destruct (opt_expiresIn o) as [s|]; simpl.
  - destruct (timespan s) as [d|]; simpl; [|done]. intros [= <-].
    by exists secret.
  - intros [= <-]. by exists secret.
Qed.

(** [sign] with a set secret and a readable [expiresIn]. *)
Lemma jwt_sign_eq now p o secret e d :
  opt_secret o = Some secret -> secret <> "" ->
  opt_expiresIn o = Some e -> timespan e = Some d ->
  jwt_sign now p o =
    Ok (mkJwt (mkClaims p now (Some (now + d)%Z))
              (hmac secret (mkClaims p now (Some (now + d)%Z)))).
Proof.
  intros Hs Hne He Hd. unfold jwt_sign. rewrite Hs, He, Hd.
  by rewrite bool_decide_eq_false_2.
Qed.

Lemma jwt_verify_Ok now secret t c :
  jwt_verify now secret t = Ok c ->
  c = jwt_claims t /\ jwt_signature t = hmac secret c /\
  match c_exp c with Some e => (now < e)%Z | None => True end.
Proof.
  unfold jwt_verify. case_bool_decide as Hs; [|done].
  destruct (c_exp _) as [e|] eqn:He.
  - destruct (Z.leb_spec e now); [done|]. intros [= <-]. by rewrite He.
  - intros [= <-]. by rewrite He.
Qed.

(** A token verifies under the secret that signed it until it expires. *)
Lemma jwt_sign_verify now now' p o secret t :
  jwt_sign now p o = Ok t -> opt_secret o = Some secret ->
  match c_exp (jwt_claims t) with Some e => (now' < e)%Z | None => True end ->
  jwt_verify now' secret t = Ok (jwt_claims t).
Proof.
  intros Hs Ho Hexp. apply jwt_sign_Ok in Hs as (s & Hos & _ & _ & _ & Hsig & _).
  rewrite Ho in Hos. injection Hos as <-. unfold jwt_verify.
  rewrite bool_decide_eq_true_2 by done.
  destruct (c_exp _) as [e|]; [|done]. by rewrite (proj2 (Z.leb_gt _ _) Hexp).
Qed.

(** A token signed with one secret is rejected under any other. *)
Lemma jwt_verify_other_secret now now' p o secret secret' t :
  jwt_sign now p o = Ok t -> opt_secret o = Some secret -> secret' <> secret ->
  jwt_verify now' secret' t = Err invalid_signature_error.
Proof.
  intros Hs Ho Hne. apply jwt_sign_Ok in Hs as (s & Hos & _ & _ & _ & Hsig & _).
  rewrite Ho in Hos. injection Hos as <-. unfold jwt_verify.
  rewrite bool_decide_eq_false_2; [done|]. rewrite Hsig.
  intros Heq. apply hmac_secret_inj in Heq. congruence.
Qed.

(** Once [exp] is reached the token is rejected, whatever the secret. *)
Lemma jwt_verify_expired now secret t e :
  c_exp (jwt_claims t) = Some e -> (e <= now)%Z ->
  jwt_verify now secret t <> Ok (jwt_claims t).
Proof.
  intros He Hle Hv. apply jwt_verify_Ok in Hv as (_ & _ & Hexp).
  rewrite He in Hexp. lia.
Qed.
End JwtFacts.
