(* ===== verification/AuthService.v ===== *)
(** * The auth service ([src/modules/auth/auth.service.ts])

    [AuthService] over the [User] table: [register] hashes the password and
    inserts the user (a duplicate username is a Conflict), [login] finds the
    user by username, checks the password and signs an access and a refresh
    token, [refreshToken] signs a new access token for an already verified
    refresh payload.  The configuration is the environment record of
    [src/common/interfaces/envs.interface.ts], read with
    [configService.get] ([None] when unset). *)

From S2P Require Import Prelude Entities Repository Timespan Crypto.

(** The [User] entity: key [id], unique column [username]. *)
#[export] Instance User_entity : Entity User := {|
  pk := user_id;
  set_pk i u := mkUser i (username u) (password u) (role u);
  unique_col := username;
|}.

#[export] Instance User_entity_laws : EntityLaws User.
Proof. split; reflexivity. Qed.

(** The variables of [IEnvs] the auth code reads. *)
Record Envs := mkEnvs {
  ACCESSTOKEN_SECRET : option string;
  ACCESSTOKEN_EXPIRATION : option string;
  REFRESHTOKEN_SECRET : option string;
  REFRESHTOKEN_EXPIRATION : option string;
}.

(** The pair [{ accessToken, refreshToken }] of [login]. *)
Record TokenPair := mkTokenPair {
  access_token : Jwt;
  refresh_token : Jwt;
}.

(** [bcrypt.compareSync(data, undefined)] throws. *)
Definition bcrypt_args_error : JsError :=
  mkJsError None "data and hash arguments required".

(** A synchronous library call that throws: its error is rethrown as is. *)
Definition lift_js {S A} (r : result JsError A) : M S Exn A :=
  fun s => match r with Ok a => (s, Ok a) | Err e => (s, Err (Thrown e)) end.

Module AuthService.
Section AuthService.
Context `{UuidGen} `{Bcrypt} `{JwtLib}.
Context (fault : DbCall User -> option JsError).
Context (config : Envs).

(** [plainToInstance(User, user)]: the [@Exclude()]d password is dropped. *)
Definition plainToInstance (u : User) : User :=
  mkUser (user_id u) (username u) None (role u).

(** [{ ...dto, password: hashSync(dto.password, 10) }]: the body's fields,
    the [id] it carried if any, the password hashed. *)
Definition register_row (dto : RegisterDTO) : User :=
  mkUser (default "" (reg_id dto)) (reg_username dto)
         (Some (hashSync (reg_password dto) 10)) (reg_role dto).

(** [register(dto)] (lines 29-43). *)
Definition register (dto : RegisterDTO) : M (Table User) Exn User :=
  (user <- catch_err
             (repo_save fault (register_row dto))
             (fun error =>
                if is_unique_violation error
                then throw (ConflictException "Username already exists")
                else throw (InternalServerErrorException error)) ;;
   mret (plainToInstance user))%svc.

Definition access_options : SignOptions :=
  mkSignOptions (ACCESSTOKEN_SECRET config) (ACCESSTOKEN_EXPIRATION config).
Definition refresh_options : SignOptions :=
  mkSignOptions (REFRESHTOKEN_SECRET config) (REFRESHTOKEN_EXPIRATION config).

(** [login(dto)] at time [now] (lines 45-73). *)
Definition login (now : Z) (dto : LoginDTO) : M (Table User) Exn TokenPair :=
  (user <- repo_findOneByUnique fault (login_username dto) ;;
   match user with
   | None => throw (NotFoundException "User not found")
   | Some u =>
       ok <- lift_js (match password u with
                      | Some h => Ok (compareSync (login_password dto) h)
                      | None => Err bcrypt_args_error
                      end) ;;
       if negb ok then throw (UnauthorizedException "Invalid username or password")
       else
         access <- lift_js (jwt_sign now (mkPayload (user_id u) (role u)) access_options) ;;
         refresh <- lift_js (jwt_sign now (mkPayload (user_id u) (role u)) refresh_options) ;;
         mret (mkTokenPair access refresh)
   end)%svc.

(** [refreshToken(user)] at time [now] (lines 75-85): no database call. *)
Definition refreshToken (now : Z) (user : Payload) : result Exn Jwt :=
  match jwt_sign now (mkPayload (p_id user) (p_role user)) access_options with
  | Ok t => Ok t
  | Err e => Err (Thrown e)
  end.
End AuthService.
End AuthService.

(** ** Properties of the auth service *)

Module AuthServiceFacts.
Import AuthService.
Section Facts.
Context `{UuidGen} `{Bcrypt} `{JwtLib}.

(** Every stored user has a password, and it is a bcrypt hash (cost 10)
    of some password. *)
Definition passwords_hashed (t : Table User) : Prop :=
  forall i u, rows t !! i = Some u -> exists pw, password u = Some (hashSync pw 10).

Lemma register_eq fault dto t :
  register fault dto t =
    match repo_save fault (register_row dto) t with
    | (t', Ok u) => (t', Ok (plainToInstance u))
    | (t', Err e) =>
        (t', Err (if is_unique_violation e then ConflictException "Username already exists"
                  else InternalServerErrorException e))
    end.
Proof.
  unfold register, mbind, catch_err.
  destruct (repo_save _ _ _) as [t' [u|e]]; [done|].
  by destruct (is_unique_violation e).
Qed.

Lemma register_wf fault dto : preserves table_wf (register fault dto).
Proof.
  intros t t' r. rewrite register_eq. destruct (repo_save _ _ _) as [t1 res] eqn:Hs.
  intros Hwf. destruct res; intros; simplify_eq; by eapply repo_save_wf.
Qed.

Lemma register_hashed fault dto : preserves passwords_hashed (register fault dto).
Proof.
  intros t t' r Hh Hrun i u Hi. rewrite register_eq in Hrun.
  destruct (repo_save fault (register_row dto) t) as [t1 res] eqn:Hs.
  assert (t1 = t') as ->
    by (destruct res; [|destruct (is_unique_violation _)]; by simplify_eq).
  destruct (repo_save_rows _ _ _ _ _ _ _ Hs Hi) as [Hold|[->|[k ->]]];
    [by eapply Hh|by eexists|by eexists].
Qed.

(** [login] and [refreshToken] write nothing. *)
Lemma lift_js_keeps {S A} (P : S -> Prop) (r : result JsError A) : preserves P (lift_js r).
Proof. apply preserves_readonly. unfold lift_js. intros s s' r'. by destruct r; intros [= <- _]. Qed.

Lemma login_keeps (P : Table User -> Prop) fault config now dto :
  preserves P (login fault config now dto).
Proof. unfold login. preserves_tac; apply lift_js_keeps. Qed.

Lemma register_row_pk dto : reg_id dto = None -> pk (register_row dto) = "".
Proof. intros Hid. unfold register_row. by rewrite Hid. Qed.

(** C4: Registering a taken username from a body without [id]: Conflict,
    and no row is added. *)
Lemma register_conflict fault dto t :
  reg_id dto = None ->
  fault (CallSave (register_row dto)) = None -> holds_unique t (reg_username dto) ->
  register fault dto t = (t, Err (ConflictException "Username already exists")).
Proof.
  intros Hid Hf Hu.
  by rewrite register_eq, (repo_save_taken fault (register_row dto) t (register_row_pk _ Hid) Hf Hu).
Qed.

(** C5: Registering a new username from a body without [id] stores the
    user under a freshly generated key with the bcrypt hash of the
    password, which is not the password, and returns the user, with that
    key and without any password. *)
Lemma register_ok dto t :
  reg_id dto = None -> ~ holds_unique t (reg_username dto) ->
  exists t' u, register no_faults dto t = (t', Ok u) /\ user_id u = uuid (gen_key t) /\
    password u = None /\ username u = reg_username dto /\ role u = reg_role dto /\
    rows t' !! user_id u =
      Some (mkUser (user_id u) (reg_username dto)
                   (Some (hashSync (reg_password dto) 10)) (reg_role dto)) /\
    hashSync (reg_password dto) 10 <> reg_password dto.
Proof.
  intros Hid Hu.
  rewrite register_eq, (repo_save_fresh no_faults (register_row dto) t (register_row_pk _ Hid) eq_refl Hu).
  eexists _, _. split_and!; try done.
  - simpl. apply lookup_insert_eq.
  - apply hashSync_not_plain.
Qed.

(** C18: Registering when the database fails otherwise: a 500. *)
Lemma register_internal_error fault dto t e :
  fault (CallSave (register_row dto)) = Some e -> code e <> Some UNIQUE_VIOLATION ->
  register fault dto t = (t, Err (HttpException 500 (err_message e))).
Proof.
  intros Hf Hc. rewrite register_eq, (repo_save_fault fault (register_row dto) t e Hf).
  unfold is_unique_violation. simpl. by rewrite bool_decide_eq_false_2.
Qed.

(** C6: Login with an unknown username: NotFound. *)
Lemma login_not_found config now dto t :
  ~ holds_unique t (login_username dto) ->
  login no_faults config now dto t = (t, Err (NotFoundException "User not found")).
Proof.
  intros Hn. unfold login. by rewrite (mbind_ok _ _ _ _ _ (repo_findOneByUnique_absent t _ Hn)).
Qed.

(** C7: Login with a known username and a wrong password: Unauthorized. *)
Lemma login_wrong_password config now dto t i u pw' :
  table_wf t -> rows t !! i = Some u -> username u = login_username dto ->
  password u = Some (hashSync pw' 10) -> login_password dto <> pw' ->
  login no_faults config now dto t =
    (t, Err (UnauthorizedException "Invalid username or password")).
Proof.
  intros Hwf Hi Hu Hp Hne. unfold login.
  rewrite (mbind_ok _ _ _ _ _ (repo_findOneByUnique_found t i u _ Hwf Hi Hu)).
  unfold mbind, lift_js. rewrite Hp, compareSync_other by done. reflexivity.
Qed.

(** A secret variable and an expiration variable of the configuration
    that let [sign] succeed: a non-empty secret and an [expiresIn] read as
    [d] seconds. *)
Definition signable (sec exp : option string) (secret : string) (d : Z) : Prop :=
  sec = Some secret /\ secret <> "" /\
  exists e, exp = Some e /\ Ms.timespan e = Some d.

Lemma sign_signable now p o secret d :
  signable (opt_secret o) (opt_expiresIn o) secret d ->
  jwt_sign now p o =
    Ok (mkJwt (mkClaims p now (Some (now + d)%Z))
              (hmac secret (mkClaims p now (Some (now + d)%Z)))).
Proof. intros (Hs & Hne & e & He & Hd). by apply jwt_sign_eq with e. Qed.

(** The claims [login] and [refreshToken] sign for a user. *)
Definition user_claims (p : Payload) (now d : Z) : Claims :=
  mkClaims p now (Some (now + d)%Z).

(** [login] once the lookup found [u] and the password is [u]'s: the two
    tokens of [u]'s [{id, role}]. *)
Lemma login_found config now dto t u r sa da sr dr :
  repo_findOneByUnique no_faults (login_username dto) t = (t, Ok (Some u)) ->
  password u = Some (hashSync (login_password dto) r) ->
  signable (ACCESSTOKEN_SECRET config) (ACCESSTOKEN_EXPIRATION config) sa da ->
  signable (REFRESHTOKEN_SECRET config) (REFRESHTOKEN_EXPIRATION config) sr dr ->
  let p := mkPayload (user_id u) (role u) in
  login no_faults config now dto t =
    (t, Ok (mkTokenPair (mkJwt (user_claims p now da) (hmac sa (user_claims p now da)))
                        (mkJwt (user_claims p now dr) (hmac sr (user_claims p now dr))))).
Proof.
  intros Hfind Hp Ha Hr p. unfold login. rewrite (mbind_ok _ _ _ _ _ Hfind).
  unfold mbind, lift_js. rewrite Hp, compareSync_hash; simpl.
  rewrite (sign_signable _ _ (access_options config) _ _ Ha),
    (sign_signable _ _ (refresh_options config) _ _ Hr). reflexivity.
Qed.

(** C8: Login with the right password returns an access token and a refresh
    token, both carrying [{id, role}] of the user, signed with the access
    and the refresh secret and expiring after their configured spans. *)
Lemma login_ok config now dto t i u r sa da sr dr :
  table_wf t -> rows t !! i = Some u -> username u = login_username dto ->
  password u = Some (hashSync (login_password dto) r) ->
  signable (ACCESSTOKEN_SECRET config) (ACCESSTOKEN_EXPIRATION config) sa da ->
  signable (REFRESHTOKEN_SECRET config) (REFRESHTOKEN_EXPIRATION config) sr dr ->
  let p := mkPayload i (role u) in
  login no_faults config now dto t =
    (t, Ok (mkTokenPair (mkJwt (user_claims p now da) (hmac sa (user_claims p now da)))
                        (mkJwt (user_claims p now dr) (hmac sr (user_claims p now dr))))).
Proof.
  intros Hwf Hi Hu Hp Ha Hr p.
  assert (Hid : user_id u = i) by (destruct Hwf as (Hpk & _); exact (Hpk _ _ Hi)).
  subst p. rewrite <- Hid.
  exact (login_found config now dto t u r sa da sr dr
           (repo_findOneByUnique_found t i u _ Hwf Hi Hu) Hp Ha Hr).
Qed.

(** With distinct secrets the two tokens of a login differ, and each is
    rejected under the other's secret. *)
Lemma login_tokens_separated p now now' da dr sa sr :
  sa <> sr ->
  let acc := mkJwt (user_claims p now da) (hmac sa (user_claims p now da)) in
  let ref := mkJwt (user_claims p now dr) (hmac sr (user_claims p now dr)) in
  acc <> ref /\
  jwt_verify now' sr acc = Err invalid_signature_error /\
  jwt_verify now' sa ref = Err invalid_signature_error.
Proof.
  intros Hne acc ref. unfold acc, ref, jwt_verify; simpl. split_and!.
  - intros Heq. injection Heq as Hd Hh. assert (da = dr) as -> by lia.
    by apply hmac_secret_inj in Hh.
  - rewrite bool_decide_eq_false_2; [done|]. intros Hh. by apply hmac_secret_inj in Hh.
  - rewrite bool_decide_eq_false_2; [done|]. intros Hh. by apply hmac_secret_inj in Hh.
Qed.

(** C10: [refreshToken] re-signs the same [{id, role}] with the access secret;
    the new token verifies under the access secret until it expires. *)
Lemma refreshToken_ok config now now' p sa da :
  signable (ACCESSTOKEN_SECRET config) (ACCESSTOKEN_EXPIRATION config) sa da ->
  (now' < now + da)%Z ->
  exists t, refreshToken config now p = Ok t /\
    c_payload (jwt_claims t) = p /\ jwt_verify now' sa t = Ok (jwt_claims t).
Proof.
  intros Ha Hlt. unfold refreshToken. rewrite (sign_signable _ _ (access_options config) _ _ Ha).
  eexists. split_and!; [done|by destruct p|].
  unfold jwt_verify; simpl. rewrite bool_decide_eq_true_2 by done.
  by rewrite (proj2 (Z.leb_gt _ _) Hlt).
Qed.

(** A successful login signed its two tokens with the access and the
    refresh options, for the payload of a stored user. *)
Lemma login_Ok_inv fault config now dto t t' pair :
  login fault config now dto t = (t', Ok pair) ->
  exists p, jwt_sign now p (access_options config) = Ok (access_token pair) /\
            jwt_sign now p (refresh_options config) = Ok (refresh_token pair).
Proof.
  unfold login, mbind, lift_js.
  destruct (repo_findOneByUnique _ _ _) as [t1 [[u|]|e]]; [|done|done].
  destruct (password u); [|done]. destruct (negb _); [done|].
  destruct (jwt_sign now _ (access_options config)) eqn:Ha; [|done].
  destruct (jwt_sign now _ (refresh_options config)) eqn:Hr; [|done].
  intros [= _ <-]. by eexists.
Qed.

(** C30: The access token's lifetime is read from [ACCESSTOKEN_EXPIRATION]
    by [ms]: written as a number [n] and a unit word [u], [sign] sets [exp]
    to [now + n * unit / 1000] seconds, and a word that is not a unit of
    [ms] makes [sign] fail. *)
Lemma access_token_expiration config now p n u secret :
  ACCESSTOKEN_SECRET config = Some secret -> secret <> "" ->
  ACCESSTOKEN_EXPIRATION config = Some (pretty n +:+ u) ->
  Forall (fun c => MsFacts.is_lower c = true) (String.list_ascii_of_string u) ->
  String.length (pretty n +:+ u) <= 100 ->
  jwt_sign now p (access_options config) =
    match Ms.unit_ms u with
    | Some k => let c := mkClaims p now (Some (now + (Z.of_N n * k) `div` 1000)%Z) in
                Ok (mkJwt c (hmac secret c))
    | None => Err expiresIn_invalid_error
    end.
Proof.
  intros Hs Hne He Hu Hl. unfold jwt_sign, access_options. simpl.
  rewrite Hs, He, bool_decide_eq_false_2 by done.
  rewrite MsFacts.timespan_pretty by done. by destruct (Ms.unit_ms u).
Qed.

(** C31: [ACCESSTOKEN_EXPIRATION] is a string; when it holds a number
    without unit, [ms] reads it as milliseconds: the access token of every
    successful login expires [n / 1000] seconds (rounded down) after it is
    issued, 3 seconds for "3600". *)
Lemma login_unitless_expiration fault config now dto t t' pair n :
  ACCESSTOKEN_EXPIRATION config = Some (pretty n) -> String.length (pretty n) <= 100 ->
  login fault config now dto t = (t', Ok pair) ->
  c_exp (jwt_claims (access_token pair)) = Some (now + Z.of_N n `div` 1000)%Z.
Proof.
  intros He Hlen Hl. destruct (login_Ok_inv _ _ _ _ _ _ _ Hl) as (p & Ha & _).
  destruct (jwt_sign_Ok _ _ _ _ Ha) as (secret & _ & _ & _ & _ & _ & Hexp).
  rewrite Hexp. unfold access_options. simpl. by rewrite He, MsFacts.timespan_unitless.
Qed.

(** The row [register] saves for a body that carried the key [i]. *)
Lemma register_row_keyed dto i :
  reg_id dto = Some i ->
  register_row dto =
    mkUser i (reg_username dto) (Some (hashSync (reg_password dto) 10)) (reg_role dto).
Proof. intros Hid. unfold register_row. by rewrite Hid. Qed.

(** C33: [register] spreads the request body into [save] and nothing
    strips an [id] from it: a body carrying key [i] (a stored user's, or
    none) with a username no user of another key holds makes the row of
    key [i] the body's username, hashed password and role, and answers
    with success, not Conflict, even when the username is taken by that
    user; logging in with the body's username and password then yields
    the tokens of id [i] with the body's role. *)
Theorem register_overwrites config now dto t i sa da sr dr :
  table_wf t -> reg_id dto = Some i -> i <> "" ->
  (forall j s, rows t !! j = Some s -> username s = reg_username dto -> j = i) ->
  signable (ACCESSTOKEN_SECRET config) (ACCESSTOKEN_EXPIRATION config) sa da ->
  signable (REFRESHTOKEN_SECRET config) (REFRESHTOKEN_EXPIRATION config) sr dr ->
  let row := mkUser i (reg_username dto) (Some (hashSync (reg_password dto) 10)) (reg_role dto) in
  let t' := mkTable (<[i := row]> (rows t)) (next_uuid t) in
  let p := mkPayload i (reg_role dto) in
  register no_faults dto t = (t', Ok (mkUser i (reg_username dto) None (reg_role dto))) /\
  login no_faults config now (mkLoginDTO (reg_username dto) (reg_password dto)) t' =
    (t', Ok (mkTokenPair (mkJwt (user_claims p now da) (hmac sa (user_claims p now da)))
                         (mkJwt (user_claims p now dr) (hmac sr (user_claims p now dr))))).
Proof.
  intros Hwf Hid Hne Hfree Ha Hr row t' p.
  pose proof (register_row_keyed dto i Hid) as Hrow.
  assert (Hs : repo_save no_faults (register_row dto) t = (t', Ok row)).
  { rewrite Hrow. exact (repo_save_keyed no_faults row t Hne eq_refl Hfree). }
  split; [by rewrite register_eq, Hs|].
  assert (Hwf' : table_wf t') by (eapply repo_save_wf; [exact Hwf|exact Hs]).
  assert (Hi : rows t' !! i = Some row) by apply lookup_insert_eq.
  exact (login_found config now (mkLoginDTO (reg_username dto) (reg_password dto)) t' row 10 sa da sr dr
           (repo_findOneByUnique_found t' i row _ Hwf' Hi eq_refl) eq_refl Ha Hr).
Qed.
End Facts.
End AuthServiceFacts.

(** ** The properties at concrete inputs *)

Module AuthServiceWitnesses.
Import AuthService AuthServiceFacts.

Definition cfg : Envs :=
  mkEnvs (Some "access-secret") (Some "3600s") (Some "refresh-secret") (Some "604800s").

Definition admin_row : User := mkUser (uuid 0) "admin" (Some (hashSync "s3cret" 10)) ADMIN.
Definition one_user : Table User := mkTable {[ uuid 0 := admin_row ]} 1.

Definition admin_dto : RegisterDTO := mkRegisterDTO "admin" "other" STANDARD None.
Definition alice_dto : RegisterDTO := mkRegisterDTO "alice" "wonderland" STANDARD None.

Definition connection_lost : JsError := mkJsError (Some "08006") "connection failure".
Definition db_down : DbCall User -> option JsError := fun _ => Some connection_lost.

Lemma register_conflict_witness :
  reg_id admin_dto = None /\ no_faults (CallSave (register_row admin_dto)) = None /\
  holds_unique one_user (reg_username admin_dto) /\
  register no_faults admin_dto one_user =
    (one_user, Err (ConflictException "Username already exists")).
Proof.
  assert (H0 : reg_id admin_dto = None) by reflexivity.
  assert (H1 : no_faults (CallSave (register_row admin_dto)) = None) by reflexivity.
  assert (H2 : holds_unique one_user (reg_username admin_dto)) by by_decide.
  split_and!; [exact H0|exact H1|exact H2|exact (register_conflict _ _ _ H0 H1 H2)].
Defined.

Lemma register_ok_witness :
  reg_id alice_dto = None /\ ~ holds_unique one_user (reg_username alice_dto) /\
  exists t' u, register no_faults alice_dto one_user = (t', Ok u) /\
    user_id u = uuid (gen_key one_user) /\ password u = None /\ username u = reg_username alice_dto /\
    role u = reg_role alice_dto /\
    rows t' !! user_id u =
      Some (mkUser (user_id u) (reg_username alice_dto)
                   (Some (hashSync (reg_password alice_dto) 10)) (reg_role alice_dto)) /\
    hashSync (reg_password alice_dto) 10 <> reg_password alice_dto.
Proof.
  assert (H1 : reg_id alice_dto = None) by reflexivity.
  assert (H2 : ~ holds_unique one_user (reg_username alice_dto)) by by_decide.
  split_and!; [exact H1|exact H2|exact (register_ok _ _ H1 H2)].
Defined.

Lemma register_internal_error_witness :
  db_down (CallSave (register_row alice_dto)) = Some connection_lost /\
  code connection_lost <> Some UNIQUE_VIOLATION /\
  register db_down alice_dto one_user =
    (one_user, Err (HttpException 500 (err_message connection_lost))).
Proof.
  assert (H1 : db_down (CallSave (register_row alice_dto)) = Some connection_lost)
    by reflexivity.
  assert (H2 : code connection_lost <> Some UNIQUE_VIOLATION) by by_decide.
  split_and!; [exact H1|exact H2|exact (register_internal_error _ _ _ _ H1 H2)].
Defined.

Lemma login_not_found_witness :
  ~ holds_unique one_user "bob" /\
  login no_faults cfg 100 (mkLoginDTO "bob" "pw") one_user =
    (one_user, Err (NotFoundException "User not found")).
Proof.
  assert (H : ~ holds_unique one_user (login_username (mkLoginDTO "bob" "pw"))) by by_decide.
  split; [exact H|exact (login_not_found cfg 100 _ _ H)].
Defined.

Lemma login_wrong_password_witness :
  table_wf one_user /\ rows one_user !! uuid 0 = Some admin_row /\
  username admin_row = "admin" /\ password admin_row = Some (hashSync "s3cret" 10) /\
  "guess" <> "s3cret" /\
  login no_faults cfg 100 (mkLoginDTO "admin" "guess") one_user =
    (one_user, Err (UnauthorizedException "Invalid username or password")).
Proof.
  assert (H1 : table_wf one_user) by by_decide.
  assert (H2 : rows one_user !! uuid 0 = Some admin_row) by by_decide.
  assert (H3 : username admin_row = login_username (mkLoginDTO "admin" "guess"))
    by reflexivity.
  assert (H4 : password admin_row = Some (hashSync "s3cret" 10)) by reflexivity.
  assert (H5 : login_password (mkLoginDTO "admin" "guess") <> "s3cret") by by_decide.
  split_and!; [exact H1|exact H2|exact H3|exact H4|exact H5|].
  exact (login_wrong_password cfg 100 _ _ _ _ _ H1 H2 H3 H4 H5).
Defined.

Lemma cfg_access_signable :
  signable (ACCESSTOKEN_SECRET cfg) (ACCESSTOKEN_EXPIRATION cfg) "access-secret" 3600.
Proof. split_and!; [reflexivity|by_decide|exists "3600s"; split; reflexivity]. Qed.

Lemma cfg_refresh_signable :
  signable (REFRESHTOKEN_SECRET cfg) (REFRESHTOKEN_EXPIRATION cfg) "refresh-secret" 604800.
Proof. split_and!; [reflexivity|by_decide|exists "604800s"; split; reflexivity]. Qed.

Lemma login_ok_witness :
  table_wf one_user /\ rows one_user !! uuid 0 = Some admin_row /\
  login no_faults cfg 100 (mkLoginDTO "admin" "s3cret") one_user =
    (one_user,
     Ok (mkTokenPair
           (mkJwt (user_claims (mkPayload (uuid 0) ADMIN) 100 3600)
                  (hmac "access-secret" (user_claims (mkPayload (uuid 0) ADMIN) 100 3600)))
           (mkJwt (user_claims (mkPayload (uuid 0) ADMIN) 100 604800)
                  (hmac "refresh-secret" (user_claims (mkPayload (uuid 0) ADMIN) 100 604800))))).
Proof.
  assert (H1 : table_wf one_user) by by_decide.
  assert (H2 : rows one_user !! uuid 0 = Some admin_row) by by_decide.
  assert (H3 : username admin_row = login_username (mkLoginDTO "admin" "s3cret"))
    by reflexivity.
  assert (H4 : password admin_row = Some (hashSync (login_password (mkLoginDTO "admin" "s3cret")) 10))
    by reflexivity.
  split_and!; [exact H1|exact H2|].
  exact (login_ok cfg 100 _ _ _ _ _ _ _ _ _ H1 H2 H3 H4 cfg_access_signable cfg_refresh_signable).
Defined.

Lemma refreshToken_ok_witness :
  signable (ACCESSTOKEN_SECRET cfg) (ACCESSTOKEN_EXPIRATION cfg) "access-secret" 3600 /\
  (200 < 100 + 3600)%Z /\
  exists t, refreshToken cfg 100 (mkPayload (uuid 0) ADMIN) = Ok t /\
    c_payload (jwt_claims t) = mkPayload (uuid 0) ADMIN /\
    jwt_verify 200 "access-secret" t = Ok (jwt_claims t).
Proof.
  assert (H : (200 < 100 + 3600)%Z) by lia.
  split_and!; [exact cfg_access_signable|exact H|].
  exact (refreshToken_ok cfg 100 200 _ _ _ cfg_access_signable H).
Defined.
(** Tokens meant to last an hour, written ["1h"]. *)
Definition cfg_hour : Envs :=
  mkEnvs (Some "access-secret") (Some "1h") (Some "refresh-secret") (Some "7d").

Lemma access_token_expiration_witness :
  ACCESSTOKEN_SECRET cfg_hour = Some "access-secret" /\ "access-secret" <> "" /\
  ACCESSTOKEN_EXPIRATION cfg_hour = Some (pretty 1%N +:+ "h") /\
  Forall (fun c => MsFacts.is_lower c = true) (String.list_ascii_of_string "h") /\
  String.length (pretty 1%N +:+ "h") <= 100 /\
  jwt_sign 100 (mkPayload (uuid 0) ADMIN) (access_options cfg_hour) =
    match Ms.unit_ms "h" with
    | Some k => let c := mkClaims (mkPayload (uuid 0) ADMIN) 100
                                  (Some (100 + (Z.of_N 1 * k) `div` 1000)%Z) in
                Ok (mkJwt c (hmac "access-secret" c))
    | None => Err expiresIn_invalid_error
    end.
Proof.
  assert (H1 : ACCESSTOKEN_SECRET cfg_hour = Some "access-secret") by reflexivity.
  assert (H2 : "access-secret" <> "") by by_decide.
  assert (H3 : ACCESSTOKEN_EXPIRATION cfg_hour = Some (pretty 1%N +:+ "h")) by reflexivity.
  assert (H4 : Forall (fun c => MsFacts.is_lower c = true) (String.list_ascii_of_string "h"))
    by (repeat constructor).
  assert (H5 : String.length (pretty 1%N +:+ "h") <= 100) by (vm_compute; lia).
  split_and!; [exact H1|exact H2|exact H3|exact H4|exact H5|].
  exact (access_token_expiration cfg_hour 100 _ 1%N "h" "access-secret" H1 H2 H3 H4 H5).
Defined.

(** The configuration with [ACCESSTOKEN_EXPIRATION=3600], meant as an hour. *)
Definition cfg_unitless : Envs :=
  mkEnvs (Some "access-secret") (Some "3600") (Some "refresh-secret") (Some "604800s").

Definition unitless_claims : Claims := mkClaims (mkPayload (uuid 0) ADMIN) 100 (Some 103%Z).
Definition unitless_refresh_claims : Claims :=
  mkClaims (mkPayload (uuid 0) ADMIN) 100 (Some 604900%Z).

Lemma login_unitless_expiration_witness :
  ACCESSTOKEN_EXPIRATION cfg_unitless = Some (pretty 3600%N) /\
  String.length (pretty 3600%N) <= 100 /\
  login no_faults cfg_unitless 100 (mkLoginDTO "admin" "s3cret") one_user =
    (one_user, Ok (mkTokenPair (mkJwt unitless_claims (hmac "access-secret" unitless_claims))
                               (mkJwt unitless_refresh_claims
                                      (hmac "refresh-secret" unitless_refresh_claims)))) /\
  c_exp (jwt_claims (mkJwt unitless_claims (hmac "access-secret" unitless_claims))) =
    Some (100 + Z.of_N 3600 `div` 1000)%Z.
Proof.
  assert (H1 : ACCESSTOKEN_EXPIRATION cfg_unitless = Some (pretty 3600%N)) by reflexivity.
  assert (H2 : String.length (pretty 3600%N) <= 100) by (vm_compute; lia).
  assert (H3 : login no_faults cfg_unitless 100 (mkLoginDTO "admin" "s3cret") one_user =
    (one_user, Ok (mkTokenPair (mkJwt unitless_claims (hmac "access-secret" unitless_claims))
                               (mkJwt unitless_refresh_claims
                                      (hmac "refresh-secret" unitless_refresh_claims)))))
    by (vm_compute; reflexivity).
  split_and!; [exact H1|exact H2|exact H3|].
  exact (login_unitless_expiration no_faults cfg_unitless 100 _ _ _ _ 3600%N H1 H2 H3).
Defined.
(** A body that carries the administrator's key, with the administrator's
    own username, a new password and the role [ADMIN]. *)
Definition takeover_dto : RegisterDTO := mkRegisterDTO "admin" "mine-now" ADMIN (Some (uuid 0)).

Lemma register_overwrites_witness :
  table_wf one_user /\ reg_id takeover_dto = Some (uuid 0) /\ uuid 0 <> "" /\
  (forall j s, rows one_user !! j = Some s -> username s = reg_username takeover_dto -> j = uuid 0) /\
  let row := mkUser (uuid 0) "admin" (Some (hashSync "mine-now" 10)) ADMIN in
  let t' := mkTable (<[uuid 0 := row]> (rows one_user)) 1 in
  let p := mkPayload (uuid 0) ADMIN in
  register no_faults takeover_dto one_user = (t', Ok (mkUser (uuid 0) "admin" None ADMIN)) /\
  login no_faults cfg 100 (mkLoginDTO "admin" "mine-now") t' =
    (t', Ok (mkTokenPair (mkJwt (user_claims p 100 3600) (hmac "access-secret" (user_claims p 100 3600)))
                         (mkJwt (user_claims p 100 604800)
                                (hmac "refresh-secret" (user_claims p 100 604800))))).
Proof.
  assert (H1 : table_wf one_user) by by_decide.
  assert (H2 : reg_id takeover_dto = Some (uuid 0)) by reflexivity.
  assert (H3 : uuid 0 <> "") by by_decide.
  assert (H4 : forall j s, rows one_user !! j = Some s ->
                 username s = reg_username takeover_dto -> j = uuid 0).
  { intros j s Hj _. simpl in Hj. by apply lookup_singleton_Some in Hj as [<- _]. }
  split_and!; [exact H1|exact H2|exact H3|exact H4|].
  exact (register_overwrites cfg 100 takeover_dto one_user (uuid 0) _ _ _ _ H1 H2 H3 H4
           cfg_access_signable cfg_refresh_signable).
Defined.
End AuthServiceWitnesses.
