(* ===== verification/AccessControl.v ===== *)
(** * Access control: strategies and guards

    [src/common/strategies/auth.strategy.ts] and [refresh.strategy.ts]
    declare the passport-jwt strategies ['auth'] and ['refresh']: the token
    is the bearer token of the [Authorization] header, it is verified with
    the access (resp. refresh) secret with expiration checked, and
    [validate] returns the payload, which becomes [req.user].
    [src/common/guards/roles-auth.guard.ts] declares [Roles] and [AuthApi],
    which puts the route's roles in its metadata and runs
    [AuthenticationGuard] (the ['auth'] strategy) then [RolesGuard].  The
    guard classes themselves ([AuthenticationGuard], [RefreshGuard],
    [RolesGuard]) are not in [src/]: they are modelled from the spec
    (section 4.3): a failed authentication is a 401, and a role outside the
    route's roles is also rejected with a 401.

    The request's [Authorization] header is modelled by its parsed parts
    (scheme and decoded token); the splitting of the header string is not
    modelled.

    The spec's per-request state machine ([Unauthenticated ->
    TokenExtracted -> TokenVerified -> RoleChecked -> Authorized], or a
    rejection at any step) is the relation [ac_step], which takes the
    secret of each token kind from section 4.2 ([spec_secret]);
    [guards_refine] shows that the composed guards implement it, and
    [App.v] that the guards every route runs do. *)

From S2P Require Import Prelude Entities Repository Crypto AuthService.

(** The [Authorization] header: [<scheme> <token>]. *)
Record AuthHeader := mkAuthHeader {
  scheme : string;
  credentials : Jwt;
}.

(** The parts of a request the guards read. *)
Record Request := mkRequest {
  authorization : option AuthHeader;
}.

(** The two named strategies. *)
Inductive StrategyName := StratAuth | StratRefresh.

Definition unauthorized : Exn := UnauthorizedException "Unauthorized".

Module AccessControl.
Section AccessControl.
Context `{JwtLib}.
Context (config : Envs) (now : Z).

(** [secretOrKey] of each strategy. *)
Definition strategy_secret (s : StrategyName) : option string :=
  match s with
  | StratAuth => ACCESSTOKEN_SECRET config
  | StratRefresh => REFRESHTOKEN_SECRET config
  end.

(** [ExtractJwt.fromAuthHeaderAsBearerToken()]: the scheme is compared
    with "bearer" ignoring case. *)
Definition lower_ascii (c : Ascii.ascii) : Ascii.ascii :=
  let n := Ascii.nat_of_ascii c in
  if (Nat.leb 65 n && Nat.leb n 90)%bool then Ascii.ascii_of_nat (n + 32) else c.

Fixpoint lowercase (s : string) : string :=
  match s with
  | EmptyString => EmptyString
  | String c s' => String (lower_ascii c) (lowercase s')
  end.

Definition fromAuthHeaderAsBearerToken (req : Request) : option Jwt :=
  match authorization req with
  | Some h => if bool_decide (lowercase (scheme h) = "bearer")
              then Some (credentials h) else None
  | None => None
  end.

(** The strategy's authentication: extract, verify, [validate(payload)]
    returns the payload.  Any failure is passport's 401. *)
Definition authenticate (s : StrategyName) (req : Request) : result Exn Claims :=
  match fromAuthHeaderAsBearerToken req, strategy_secret s with
  | Some tok, Some secret =>
      match jwt_verify now secret tok with
      | Ok payload => Ok payload
      | Err _ => Err unauthorized
      end
  | _, _ => Err unauthorized
  end.

(** [RolesGuard]: the user's role must be one of the route's roles. *)
Definition roles_guard (roles : list Roles) (user : Claims) : result Exn unit :=
  if bool_decide (p_role (c_payload user) ∈ roles) then Ok tt else Err unauthorized.

(** [@AuthApi(...roles)]: [AuthenticationGuard] then [RolesGuard]; on
    success [req.user] is the verified payload. *)
Definition AuthApi (roles : list Roles) (req : Request) : result Exn Claims :=
  match authenticate StratAuth req with
  | Ok user =>
      match roles_guard roles user with
      | Ok _ => Ok user
      | Err e => Err e
      end
  | Err e => Err e
  end.

(** [@UseGuards(RefreshGuard)] on [POST /auth/refresh]. *)
Definition RefreshGuard (req : Request) : result Exn Claims :=
  authenticate StratRefresh req.
End AccessControl.
End AccessControl.

(** ** The per-request state machine of the spec *)

Inductive AcState :=
| Unauthenticated
| TokenExtracted (tok : Jwt)
| TokenVerified (user : Claims)
| RoleChecked (user : Claims)
| Authorized (user : Claims)
| Rejected (e : Exn).

Definition final (st : AcState) : Prop :=
  match st with Authorized _ | Rejected _ => True | _ => False end.

#[export] Instance final_dec st : Decision (final st).
Proof. destruct st; simpl; apply _. Defined.

Module AccessControlSpec.
Import AccessControl.
Section Spec.
Context `{JwtLib}.
Context (config : Envs) (now : Z).
(** The guarded route: its strategy, and its roles if it has [AuthApi]. *)
Context (strat : StrategyName) (roles : option (list Roles)) (req : Request).

(** Section 4.2: the access secret for the access guard, the refresh
    secret for the refresh guard. *)
Definition spec_secret (s : StrategyName) : option string :=
  match s with
  | StratAuth => ACCESSTOKEN_SECRET config
  | StratRefresh => REFRESHTOKEN_SECRET config
  end.

Inductive ac_step : AcState -> AcState -> Prop :=
| ac_extract tok :
    fromAuthHeaderAsBearerToken req = Some tok ->
    ac_step Unauthenticated (TokenExtracted tok)
| ac_no_token :
    fromAuthHeaderAsBearerToken req = None ->
    ac_step Unauthenticated (Rejected unauthorized)
| ac_verify tok secret user :
    spec_secret strat = Some secret -> jwt_verify now secret tok = Ok user ->
    ac_step (TokenExtracted tok) (TokenVerified user)
| ac_verify_fail tok :
    (forall secret, spec_secret strat = Some secret ->
                    exists e, jwt_verify now secret tok = Err e) ->
    ac_step (TokenExtracted tok) (Rejected unauthorized)
| ac_role_ok user rs :
    roles = Some rs -> p_role (c_payload user) ∈ rs ->
    ac_step (TokenVerified user) (RoleChecked user)
| ac_role_fail user rs :
    roles = Some rs -> p_role (c_payload user) ∉ rs ->
    ac_step (TokenVerified user) (Rejected unauthorized)
| ac_no_roles user :
    roles = None -> ac_step (TokenVerified user) (Authorized user)
| ac_authorize user :
    ac_step (RoleChecked user) (Authorized user).

Lemma ac_step_deterministic : deterministic ac_step.
Proof.
  intros a b c Hb Hc. destruct Hb; inversion Hc; subst; try congruence;
    repeat match goal with
    | H : forall s, spec_secret _ = Some s -> exists e, _,
      Hs : spec_secret _ = Some ?k |- _ =>
        destruct (H k Hs) as [? ?]; clear H
    | H1 : roles = Some _, H2 : roles = Some _ |- _ =>
        rewrite H1 in H2; injection H2 as <-
    end; congruence.
Qed.

Lemma final_irreducible st : final st -> irreducible ac_step st.
Proof. destruct st; intros [] ? Hs; inversion Hs. Qed.

(** The guards of a route, composed: authentication with the route's
    strategy, then the roles check when the route has roles. *)
Definition guards (r : Request) : result Exn Claims :=
  match authenticate config now strat r with
  | Ok user =>
      match roles with
      | None => Ok user
      | Some rs => match roles_guard rs user with Ok _ => Ok user | Err e => Err e end
      end
  | Err e => Err e
  end.

Definition outcome (r : result Exn Claims) : AcState :=
  match r with Ok user => Authorized user | Err e => Rejected e end.

(** The strategies read the secret section 4.2 gives them. *)
Lemma strategy_secret_spec s : strategy_secret config s = spec_secret s.
Proof. by destruct s. Qed.

Lemma guards_path : star ac_step Unauthenticated (outcome (guards req)).
Proof.
  unfold guards, authenticate. rewrite strategy_secret_spec.
  destruct (fromAuthHeaderAsBearerToken req) as [tok|] eqn:Htok;
    [|by apply star_one, ac_no_token].
  eapply star_step; [by apply ac_extract|].
  destruct (spec_secret strat) as [secret|] eqn:Hs;
    [|apply star_one, ac_verify_fail; congruence].
  destruct (jwt_verify now secret tok) as [user|e] eqn:Hv;
    [|apply star_one, ac_verify_fail; intros ? Hs'; rewrite Hs in Hs';
      injection Hs' as <-; eauto].
  eapply star_step; [by eapply ac_verify|].
  destruct roles as [rs|] eqn:Hr; [|by apply star_one, ac_no_roles].
  unfold roles_guard. case_bool_decide.
  - eapply star_step; [by eapply ac_role_ok|]. apply star_one, ac_authorize.
  - by eapply star_one, ac_role_fail.
Qed.

(** The guards implement the state machine: a request reaches a final
    state exactly when it is the guards' outcome. *)
Lemma guards_refine fin :
  final fin -> star ac_step Unauthenticated fin <-> fin = outcome (guards req).
Proof.
  intros Hfin. split.
  - intros Hpath. eapply star_det_irreducible; [apply ac_step_deterministic|exact Hpath|
      apply guards_path|by apply final_irreducible|].
    apply final_irreducible. by destruct (guards req).
  - intros ->. apply guards_path.
Qed.
End Spec.

End AccessControlSpec.

(** ** Which tokens the guards accept *)

Module AccessControlFacts.
Import AccessControl AuthService AuthServiceFacts.
Section Facts.
Context `{UuidGen} `{Bcrypt} `{JwtLib}.

(** A request carrying [tok] as its bearer token. *)
Definition bearer (tok : Jwt) : Request := mkRequest (Some (mkAuthHeader "Bearer" tok)).

Lemma authenticate_bearer config now s tok :
  authenticate config now s (bearer tok) =
    match strategy_secret config s with
    | Some secret => match jwt_verify now secret tok with
                     | Ok c => Ok c
                     | Err _ => Err unauthorized
                     end
    | None => Err unauthorized
    end.
Proof. reflexivity. Qed.

(** Without an [Authorization] header every guarded route answers 401. *)
(** The guards reject only with passport's 401. *)
Lemma authenticate_err config now st req e :
  authenticate config now st req = Err e -> e = unauthorized.
Proof. unfold authenticate. repeat case_match; congruence. Qed.

Lemma AuthApi_err config now roles req e :
  AuthApi config now roles req = Err e -> e = unauthorized.
Proof.
  unfold AuthApi, roles_guard. destruct (authenticate _ _ _ _) eqn:Ha;
    [case_bool_decide; congruence|intros [= <-]; by eapply authenticate_err].
Qed.

Lemma guards_no_header config now roles :
  AuthApi config now roles (mkRequest None) = Err unauthorized /\
  RefreshGuard config now (mkRequest None) = Err unauthorized.
Proof. done. Qed.

(** C9: The access token of a login is refused by [POST /auth/refresh], and
    its refresh token by every [AuthApi] route, when the two secrets
    differ. *)
Lemma login_tokens_not_interchangeable fault config now now' dto t t' pair roles sa sr :
  login fault config now dto t = (t', Ok pair) ->
  ACCESSTOKEN_SECRET config = Some sa -> REFRESHTOKEN_SECRET config = Some sr -> sa <> sr ->
  RefreshGuard config now' (bearer (access_token pair)) = Err unauthorized /\
  AuthApi config now' roles (bearer (refresh_token pair)) = Err unauthorized.
Proof.
  intros Hl Ha Hr Hne. apply login_Ok_inv in Hl as (p & Hsa & Hsr).
  unfold RefreshGuard, AuthApi. rewrite !authenticate_bearer. simpl.
  rewrite Hr, (jwt_verify_other_secret _ _ _ _ sa sr _ Hsa Ha) by congruence.
  rewrite Ha, (jwt_verify_other_secret _ _ _ _ sr sa _ Hsr Hr) by congruence.
  done.
Qed.

(** A verified token passes [AuthApi] exactly when its role is one of
    the route's roles. *)
Lemma AuthApi_verified config now roles tok sa c :
  ACCESSTOKEN_SECRET config = Some sa -> jwt_verify now sa tok = Ok c ->
  AuthApi config now roles (bearer tok) =
    if bool_decide (p_role (c_payload c) ∈ roles) then Ok c else Err unauthorized.
Proof.
  intros Ha Hv. unfold AuthApi. rewrite authenticate_bearer. simpl.
  rewrite Ha, Hv. unfold roles_guard. by case_bool_decide.
Qed.


(** C24: When the access and the refresh secret are the same string, the
    access token of a login is accepted by [POST /auth/refresh] until it
    expires. *)
Lemma same_secret_access_token_refreshes fault config now now' dto t t' pair s :
  login fault config now dto t = (t', Ok pair) ->
  ACCESSTOKEN_SECRET config = Some s -> REFRESHTOKEN_SECRET config = Some s ->
  match c_exp (jwt_claims (access_token pair)) with Some e => (now' < e)%Z | None => True end ->
  RefreshGuard config now' (bearer (access_token pair)) = Ok (jwt_claims (access_token pair)).
Proof.
  intros Hl Ha Hr Hexp. apply login_Ok_inv in Hl as (p & Hsa & _).
  unfold RefreshGuard. rewrite authenticate_bearer. simpl. rewrite Hr.
  by rewrite (jwt_sign_verify _ _ _ _ s _ Hsa Ha Hexp).
Qed.
End Facts.
End AccessControlFacts.

(** ** The properties at concrete inputs *)

Module AccessControlWitnesses.
Import AccessControl AccessControlSpec AccessControlFacts AuthService AuthServiceFacts
     AuthServiceWitnesses.

Definition admin_payload : Payload := mkPayload (uuid 0) ADMIN.
Definition admin_access : Jwt :=
  mkJwt (user_claims admin_payload 100 3600) (hmac "access-secret" (user_claims admin_payload 100 3600)).
Definition admin_refresh : Jwt :=
  mkJwt (user_claims admin_payload 100 604800)
        (hmac "refresh-secret" (user_claims admin_payload 100 604800)).
Definition admin_pair : TokenPair := mkTokenPair admin_access admin_refresh.

Lemma login_tokens_not_interchangeable_witness :
  login no_faults cfg 100 (mkLoginDTO "admin" "s3cret") one_user = (one_user, Ok admin_pair) /\
  "access-secret" <> "refresh-secret" /\
  RefreshGuard cfg 200 (bearer (access_token admin_pair)) = Err unauthorized /\
  AuthApi cfg 200 [ADMIN] (bearer (refresh_token admin_pair)) = Err unauthorized.
Proof.
  assert (H1 : login no_faults cfg 100 (mkLoginDTO "admin" "s3cret") one_user =
               (one_user, Ok admin_pair)) by (vm_compute; reflexivity).
  assert (H2 : "access-secret" <> "refresh-secret") by by_decide.
  split_and!; [exact H1|exact H2|..];
  refine (proj1 (login_tokens_not_interchangeable _ _ _ 200 _ _ _ _ [ADMIN] _ _ H1 eq_refl eq_refl H2))
  || refine (proj2 (login_tokens_not_interchangeable _ _ _ 200 _ _ _ _ [ADMIN] _ _ H1 eq_refl eq_refl H2)).
Defined.



(** A configuration that reuses one secret for both kinds of token. *)
Definition cfg_same : Envs :=
  mkEnvs (Some "one-secret") (Some "3600s") (Some "one-secret") (Some "604800s").

Definition same_pair : TokenPair :=
  mkTokenPair
    (mkJwt (user_claims admin_payload 100 3600) (hmac "one-secret" (user_claims admin_payload 100 3600)))
    (mkJwt (user_claims admin_payload 100 604800)
           (hmac "one-secret" (user_claims admin_payload 100 604800))).

Lemma same_secret_access_token_refreshes_witness :
  login no_faults cfg_same 100 (mkLoginDTO "admin" "s3cret") one_user = (one_user, Ok same_pair) /\
  RefreshGuard cfg_same 200 (bearer (access_token same_pair)) =
    Ok (jwt_claims (access_token same_pair)).
Proof.
  assert (H1 : login no_faults cfg_same 100 (mkLoginDTO "admin" "s3cret") one_user =
               (one_user, Ok same_pair)) by (vm_compute; reflexivity).
  assert (H2 : match c_exp (jwt_claims (access_token same_pair)) with
               | Some e => (200 < e)%Z | None => True end) by (simpl; lia).
  split; [exact H1|].
  exact (same_secret_access_token_refreshes _ _ _ 200 _ _ _ _ "one-secret" H1 eq_refl eq_refl H2).
Defined.
End AccessControlWitnesses.
