(* ===== verification/Boundary.v ===== *)
(** * The exception filter and the logging interceptor

    [src/common/exceptions/all.exception.ts]: [ExceptionsFilter.catch]
    turns every uncaught exception into the response
    [{ status, message, path, method }], logs it at level error and sends
    it with that status.  An [HttpException] gives its status and its
    response's [message]; anything else is a 500 whose [message] is the
    thrown object itself (serialised as is).

    [src/common/interceptors/logger.interceptor.ts]: [LoggerInterceptor]
    logs, before the handler runs, the method, the response's current
    status code, the route and the request's body (a copy without its
    [password] field), query and params.

    JSON values are modelled as strings; a request's body, query and
    params are maps from field names to values. *)

From S2P Require Import Prelude Entities.

(** The [message] of an error response: a text, or a thrown object. *)
Inductive ErrMessage :=
| MsgText (s : string)
| MsgObject (e : JsError).

(** [HttpExceptionResponse] *)
Record HttpExceptionResponse := mkHttpExceptionResponse {
  status : Z;
  message : ErrMessage;
  path : string;
  method : string;
}.

(** The parts of an HTTP request the boundary reads. *)
Record HttpRequest := mkHttpRequest {
  req_method : string;
  req_url : string;
  route_path : string;
  body : gmap string string;
  query : gmap string string;
  params : gmap string string;
}.

(** The entry the interceptor writes at level info. *)
Record LogEntry := mkLogEntry {
  log_method : string;
  log_action : Z;
  log_route : string;
  log_body : gmap string string;
  log_query : gmap string string;
  log_params : gmap string string;
}.

Module Boundary.

(** [ExceptionsFilter.catch(exception, host)]: the response it logs and
    sends. *)
(** [exception instanceof HttpException ? exception.getStatus() :
    HttpStatus.INTERNAL_SERVER_ERROR] *)
Definition exn_status (exception : Exn) : Z :=
  match exception with
  | HttpException s _ => s
  | Thrown _ => 500%Z
  end.

Definition catch_exception (exception : Exn) (req : HttpRequest) : HttpExceptionResponse :=
  let status := exn_status exception in
  let message := match exception with
                 | HttpException _ m => MsgText m
                 | Thrown e => MsgObject e
                 end in
  mkHttpExceptionResponse status message (req_url req) (req_method req).

(** [LoggerInterceptor.log(req)] with the response's status code at the
    time the interceptor runs. *)
Definition log (req : HttpRequest) (statusCode : Z) : LogEntry :=
  mkLogEntry (req_method req) statusCode (route_path req)
             (delete "password" (body req)) (query req) (params req).
End Boundary.
