(* ===== verification/Logging.v ===== *)
(** * The logger: winston configured by [src/winston.config.ts]

    [app.module.ts] installs [WinstonModule.forRoot(winstonConfig)]; the
    interceptor calls [logger.info(entry)] and the exception filter
    [logger.error(response)].  [winstonConfig] uses npm's levels, the
    logger level ['info'], and three transports: the console (no level of
    its own), [logs/info.log] at level ['info'] and [logs/errors.log] at
    level ['error'].

    winston hands every entry to every transport; a transport writes it
    when the entry's level is at most the transport's level, or the
    logger's when the transport has none ([winston-transport]'s [_write],
    modelled from its documented behaviour).  The format
    [combine(errors(...), timestamp(...), json())] stamps the entry with
    the time of the call; the entry is kept as a record, its JSON and the
    ['DD-MM-YYYY HH:mm:ss'] rendering of the time are not modelled. *)

From S2P Require Import Prelude Entities Boundary.

(** [config.npm.levels] *)
Module Npm.
Inductive level := error | warn | info | http | verbose | debug | silly.

Definition levels (l : level) : nat :=
  match l with
  | error => 0 | warn => 1 | info => 2 | http => 3
  | verbose => 4 | debug => 5 | silly => 6
  end.
End Npm.

#[export] Instance level_eq_dec : EqDecision Npm.level.
Proof. solve_decision. Defined.

(** [new transports.Console()] and [new transports.File({filename, dirname})] *)
Inductive TransportKind :=
| Console
| File (filename dirname : string).

Record Transport := mkTransport {
  kind : TransportKind;
  tr_level : option Npm.level;
}.

(** The parts of [WinstonModuleOptions] that decide what is written
    where ([levels] is always [config.npm.levels]). *)
Record WinstonModuleOptions := mkWinstonModuleOptions {
  level : Npm.level;
  transports : list Transport;
}.

(** [winstonConfig] *)
Definition winstonConfig : WinstonModuleOptions :=
  mkWinstonModuleOptions Npm.info
    [mkTransport Console None;
     mkTransport (File "info.log" "logs") (Some Npm.info);
     mkTransport (File "errors.log" "logs") (Some Npm.error)].

(** What the application logs: the interceptor's entry or the filter's
    error response. *)
Inductive LogEvent :=
| EvInfo (e : LogEntry)
| EvError (r : HttpExceptionResponse).

(** The entry winston hands to the transports: level, logged object and
    the timestamp the format adds. *)
Record Info := mkInfo {
  info_level : Npm.level;
  info_message : LogEvent;
  info_timestamp : Z;
}.

Module Winston.

(** [logger.info(e)] and [logger.error(r)] at time [now]. *)
Definition log_info (now : Z) (e : LogEntry) : Info := mkInfo Npm.info (EvInfo e) now.
Definition log_error (now : Z) (r : HttpExceptionResponse) : Info := mkInfo Npm.error (EvError r) now.

(** [TransportStream.prototype._write]: the level that filters a transport
    is its own, else the logger's; an entry passes when its level is at
    most that one. *)
Definition accepts (o : WinstonModuleOptions) (tr : Transport) (i : Info) : bool :=
  Nat.leb (Npm.levels (info_level i)) (Npm.levels (default (level o) (tr_level tr))).

(** What transport [tr] has written after the entries [infos], in order. *)
Definition output (o : WinstonModuleOptions) (tr : Transport) (infos : list Info) : list Info :=
  filter (fun i => accepts o tr i = true) infos.

(** The transport writing to file [name], if any. *)
Definition file_transport (o : WinstonModuleOptions) (name : string) : option Transport :=
  find (fun tr => match kind tr with
                  | File f _ => bool_decide (f = name)
                  | Console => false
                  end) (transports o).

(** The contents of file [name] after the entries [infos]. *)
Definition file_contents (o : WinstonModuleOptions) (name : string) (infos : list Info)
    : list Info :=
  match file_transport o name with
  | Some tr => output o tr infos
  | None => []
  end.
End Winston.

(** ** Where [winstonConfig] writes an entry *)

Module WinstonFacts.
Import Winston.

Lemma output_all o tr infos :
  Forall (fun i => accepts o tr i = true) infos -> output o tr infos = infos.
Proof.
  induction 1 as [|i infos Hi _ IH]; [done|].
  unfold output. rewrite filter_cons_True by done. f_equal. exact IH.
Qed.

(** The console and [info.log] write every entry of level [info] or more
    severe, in order. *)
Lemma winston_console infos :
  Forall (fun i => Npm.levels (info_level i) <= 2) infos ->
  output winstonConfig (mkTransport Console None) infos = infos.
Proof.
  intros Hl. apply output_all. eapply Forall_impl; [exact Hl|].
  intros i Hi. by apply Nat.leb_le.
Qed.

Lemma winston_info_file infos :
  Forall (fun i => Npm.levels (info_level i) <= 2) infos ->
  file_contents winstonConfig "info.log" infos = infos.
Proof.
  intros Hl. unfold file_contents.
  replace (file_transport winstonConfig "info.log")
    with (Some (mkTransport (File "info.log" "logs") (Some Npm.info))) by reflexivity.
  apply output_all. eapply Forall_impl; [exact Hl|]. intros i Hi. by apply Nat.leb_le.
Qed.

(** [errors.log] writes exactly the entries of level [error], in order. *)
Lemma winston_errors_file infos :
  file_contents winstonConfig "errors.log" infos =
  filter (fun i => info_level i = Npm.error) infos.
Proof.
  unfold file_contents.
  replace (file_transport winstonConfig "errors.log")
    with (Some (mkTransport (File "errors.log" "logs") (Some Npm.error))) by reflexivity.
  apply list_filter_iff. intros [[] ? ?]; simpl; split; done.
Qed.
End WinstonFacts.
