(* ===== verification/Pipes.v ===== *)
(** * The parameter pipe of the [:id] routes

    [src/modules/movies/movies.controller.ts] reads the [:id] of
    [GET], [PATCH] and [DELETE /movies/:id] through
    [@Param('id', ParseUUIDPipe)].  NestJS's [ParseUUIDPipe] (not in
    [src/], modelled from its documented behaviour) accepts a string that
    matches [/^[0-9A-F]{8}-[0-9A-F]{4}-[0-9A-F]{4}-[0-9A-F]{4}-[0-9A-F]{12}$/i]
    and otherwise throws a [BadRequestException].

    [ParseUUID] checks the string in one pass, position by position.
    [ParseUUIDSpec] is the regular expression itself: an anchored sequence
    of character classes; [is_uuid_regex] shows that they accept the same
    strings. *)

From S2P Require Import Prelude Entities.

Module ParseUUID.

(** A hexadecimal digit, in either case. *)
Definition is_hex (c : Ascii.ascii) : bool :=
  let n := Ascii.nat_of_ascii c in
  ((Nat.leb 48 n && Nat.leb n 57) || (Nat.leb 65 n && Nat.leb n 70) ||
   (Nat.leb 97 n && Nat.leb n 102))%bool.

(** The suffix [s] starts at position [pos]: a dash at positions 8, 13,
    18, 23, a hexadecimal digit elsewhere, 36 characters in all. *)
Fixpoint uuid_shape (pos : nat) (s : string) : bool :=
  match s with
  | EmptyString => Nat.eqb pos 36
  | String c s' =>
      (if (Nat.eqb pos 8 || Nat.eqb pos 13 || Nat.eqb pos 18 || Nat.eqb pos 23)%bool
       then Nat.eqb (Ascii.nat_of_ascii c) 45 else is_hex c) && uuid_shape (S pos) s'
  end.

Definition is_uuid (s : string) : bool := uuid_shape 0 s.

(** [ParseUUIDPipe.transform(value)] *)
Definition ParseUUIDPipe (id : string) : result Exn string :=
  if is_uuid id then Ok id
  else Err (BadRequestException "Validation failed (uuid is expected)").
End ParseUUID.

(** ** The regular expression *)

Module ParseUUIDSpec.

(** The classes of the pattern: [[0-9A-F]] under the flag [i], and [-]. *)
Inductive CharClass := Hex | Dash.

Definition hex_digits : list Ascii.ascii :=
  String.list_ascii_of_string "0123456789ABCDEFabcdef".

Definition class_ok (k : CharClass) (c : Ascii.ascii) : Prop :=
  match k with
  | Hex => c ∈ hex_digits
  | Dash => Ascii.nat_of_ascii c = 45
  end.

(** [[0-9A-F]{8}-[0-9A-F]{4}-[0-9A-F]{4}-[0-9A-F]{4}-[0-9A-F]{12}] *)
Definition uuid_pattern : list CharClass :=
  replicate 8 Hex ++ [Dash] ++ replicate 4 Hex ++ [Dash] ++ replicate 4 Hex ++
  [Dash] ++ replicate 4 Hex ++ [Dash] ++ replicate 12 Hex.

(** An anchored pattern without repetition or alternation matches a
    string of its length, class by class. *)
Definition regex_match (pat : list CharClass) (s : string) : Prop :=
  Forall2 class_ok pat (String.list_ascii_of_string s).
#[export] Instance class_ok_dec k c : Decision (class_ok k c).
Proof. destruct k; simpl; apply _. Defined.

#[export] Instance regex_match_dec pat s : Decision (regex_match pat s).
Proof. unfold regex_match. apply _. Defined.
End ParseUUIDSpec.

(** ** The pipe accepts exactly the strings of the pattern *)

Module ParseUUIDFacts.
Import ParseUUID ParseUUIDSpec.

Definition dash_pos (p : nat) : bool :=
  (Nat.eqb p 8 || Nat.eqb p 13 || Nat.eqb p 18 || Nat.eqb p 23)%bool.

Definition class_at (p : nat) : CharClass := if dash_pos p then Dash else Hex.

Lemma uuid_pattern_at p : p < 36 -> uuid_pattern !! p = Some (class_at p).
Proof.
  intros Hp.
  assert (Hall : Forall (fun p => uuid_pattern !! p = Some (class_at p)) (seq 0 36)).
  { apply Forall_forall. intros q Hq. apply elem_of_seq in Hq.
    do 36 (destruct q as [|q]; [reflexivity|]). lia. }
  rewrite Forall_forall in Hall. apply Hall, elem_of_seq. lia.
Qed.

Lemma length_uuid_pattern : length uuid_pattern = 36.
Proof. reflexivity. Qed.

(** [is_hex] is the class [[0-9A-F]] with the flag [i]: checked on the
    256 characters. *)
Lemma is_hex_spec c : is_hex c = true <-> c ∈ hex_digits.
Proof.
  assert (Hall : Forall (fun n => is_hex (Ascii.ascii_of_nat n) = bool_decide (Ascii.ascii_of_nat n ∈ hex_digits))
                        (seq 0 256)) by by_decide.
  rewrite Forall_forall in Hall.
  rewrite <- (Ascii.ascii_nat_embedding c), Hall, bool_decide_eq_true; [done|].
  apply elem_of_seq. pose proof (Ascii.nat_ascii_bounded c). lia.
Qed.

Lemma class_at_ok p c :
  (if dash_pos p then Nat.eqb (Ascii.nat_of_ascii c) 45 else is_hex c) = true <->
  class_ok (class_at p) c.
Proof.
  unfold class_at. destruct (dash_pos p); simpl; [apply Nat.eqb_eq|apply is_hex_spec].
Qed.

Lemma uuid_shape_length pos s : uuid_shape pos s = true -> pos + String.length s = 36.
Proof.
  revert pos. induction s as [|c s IH]; intros pos; simpl.
  - intros ?%Nat.eqb_eq. lia.
  - intros [_ Hs]%andb_true_iff. apply IH in Hs. lia.
Qed.

Lemma uuid_shape_spec pos s :
  pos <= 36 ->
  uuid_shape pos s = true <-> Forall2 class_ok (drop pos uuid_pattern) (String.list_ascii_of_string s).
Proof.
  revert pos. induction s as [|c s IH]; intros pos Hpos; simpl.
  - rewrite Nat.eqb_eq. split.
    + intros ->. constructor.
    + intros Hf. apply Forall2_nil_inv_r in Hf.
      apply (f_equal length) in Hf. rewrite length_drop in Hf. simpl in Hf. lia.
  - destruct (decide (pos = 36)) as [->|Hlt].
    + split; [intros [_ Hs]%andb_true_iff; apply uuid_shape_length in Hs; lia|].
      intros Hf. apply Forall2_cons_inv_r in Hf as (k & ? & _ & _ & Heq).
      apply (f_equal length) in Heq. rewrite length_drop in Heq. simpl in Heq. lia.
    + rewrite (drop_S _ (class_at pos)) by (apply uuid_pattern_at; lia).
      rewrite andb_true_iff, Forall2_cons, (IH (S pos)) by lia.
      change (Nat.eqb pos 8 || Nat.eqb pos 13 || Nat.eqb pos 18 || Nat.eqb pos 23)%bool
        with (dash_pos pos).
      by rewrite class_at_ok.
Qed.

(** [ParseUUIDPipe]'s check is the regular expression: a string is
    accepted exactly when it matches
    [/^[0-9A-F]{8}-[0-9A-F]{4}-[0-9A-F]{4}-[0-9A-F]{4}-[0-9A-F]{12}$/i]. *)
Theorem is_uuid_regex s : is_uuid s = true <-> regex_match uuid_pattern s.
Proof. unfold is_uuid, regex_match. rewrite uuid_shape_spec by lia. done. Qed.

(** The pipe passes a UUID through and rejects anything else with a 400. *)
Lemma ParseUUIDPipe_spec id :
  ParseUUIDPipe id = if bool_decide (regex_match uuid_pattern id) then Ok id
                     else Err (BadRequestException "Validation failed (uuid is expected)").
Proof.
  unfold ParseUUIDPipe. destruct (is_uuid id) eqn:Hu; case_bool_decide as Hr; try done.
  - apply is_uuid_regex in Hu. contradiction.
  - apply is_uuid_regex in Hr. congruence.
Qed.
End ParseUUIDFacts.
