(* ===== verification/App.v ===== *)
(** * The application: routes, request pipeline and reachable states

    [src/modules/auth/auth.controller.ts] and
    [src/modules/movies/movies.controller.ts] bind the routes to the
    services; [src/app.module.ts] installs [ExceptionsFilter] and
    [LoggerInterceptor] globally.  A request goes through the NestJS
    pipeline in its fixed order: the route's guards, the interceptor (which
    logs), the parameter pipes ([ParseUUIDPipe] on [:id]), the handler, and
    on any exception the filter (which logs the error and answers with it).
    A handler's value is sent with status 201 on a [POST] route and 200
    otherwise (no route sets [@HttpCode]).

    [AppState] holds the two tables and the stream of entries handed to
    winston ([info_log] and [error_log] read it by level).  [handle] is one
    request; [app_step] is one request or one run of the scheduled
    synchronisation; [reachable] states are those [app_step] reaches from
    the empty database.  The invariant [app_inv] (both tables well formed,
    every stored password a bcrypt hash) holds in every reachable state. *)

From S2P Require Import Prelude Entities Repository MoviesService Crypto AuthService AccessControl Boundary Logging Pipes.

Inductive Route :=
| AuthRegister (dto : RegisterDTO)
| AuthLogin (dto : LoginDTO)
| AuthRefresh
| MoviesFindAll
| MoviesFindOne (id : string)
| MoviesCreate (dto : CreateMovieDto)
| MoviesSyncronize
| MoviesUpdate (id : string) (dto : UpdateMovieDto)
| MoviesRemove (id : string).

(** What a successful handler returns. *)
Inductive Body :=
| BodyUser (u : User)
| BodyTokens (p : TokenPair)
| BodyToken (t : Jwt)
| BodyMovies (l : list Movie)
| BodyMovie (m : option Movie)
| BodyText (s : string).

Inductive Response :=
| Respond (code : Z) (b : Body)
| RespondError (r : HttpExceptionResponse).

Record AppState := mkAppState {
  users : Table User;
  movies : Table Movie;
  app_log : list Info;
}.

(** What the interceptor and the filter logged, in order. *)
Definition info_log (s : AppState) : list LogEntry :=
  omap (fun i => match info_message i with EvInfo e => Some e | EvError _ => None end)
       (app_log s).
Definition error_log (s : AppState) : list HttpExceptionResponse :=
  omap (fun i => match info_message i with EvError r => Some r | EvInfo _ => None end)
       (app_log s).

(** What the outside world decides for one request: the clock, the
    failures of the database, the answer of the film API. *)
Record Env := mkEnv {
  env_now : Z;
  user_fault : DbCall User -> option JsError;
  movie_fault : DbCall Movie -> option JsError;
  env_fetched : FetchOutcome;
}.

(** A request: its route, its [Authorization] header and its query. *)
Record Call := mkCall {
  call_route : Route;
  call_auth : Request;
  call_query : gmap string string;
}.

Definition initial_state : AppState := mkAppState empty_table empty_table [].

Module App.
Import AuthService MoviesService AccessControl Boundary ParseUUID.
Section App.
Context `{UuidGen} `{Bcrypt} `{JwtLib}.
Context (config : Envs).

Definition route_method (r : Route) : string :=
  match r with
  | MoviesFindAll | MoviesFindOne _ => "GET"
  | MoviesUpdate _ _ => "PATCH"
  | MoviesRemove _ => "DELETE"
  | _ => "POST"
  end.

(** [req.route.path] *)
Definition route_pattern (r : Route) : string :=
  match r with
  | AuthRegister _ => "/auth/register"
  | AuthLogin _ => "/auth/login"
  | AuthRefresh => "/auth/refresh"
  | MoviesFindAll | MoviesCreate _ => "/movies"
  | MoviesSyncronize => "/movies/syncronize"
  | MoviesFindOne _ | MoviesUpdate _ _ | MoviesRemove _ => "/movies/:id"
  end.

(** [req.url] *)
Definition route_url (r : Route) : string :=
  match r with
  | MoviesFindOne id | MoviesUpdate id _ | MoviesRemove id => "/movies/" +:+ id
  | _ => route_pattern r
  end.

Definition route_params (r : Route) : gmap string string :=
  match r with
  | MoviesFindOne id | MoviesUpdate id _ | MoviesRemove id => {[ "id" := id ]}
  | _ => ∅
  end.

Definition opt_field (k : string) (o : option string) : gmap string string :=
  match o with Some v => {[ k := v ]} | None => ∅ end.

(** The JSON body of the request, by field. *)
Definition route_body (r : Route) : gmap string string :=
  match r with
  | AuthRegister dto =>
      opt_field "id" (reg_id dto) ∪
      {[ "username" := reg_username dto; "password" := reg_password dto;
         "role" := role_value (reg_role dto) ]}
  | AuthLogin dto =>
      {[ "username" := login_username dto; "password" := login_password dto ]}
  | MoviesCreate dto =>
      opt_field "id" (dto_id dto) ∪
      {[ "title" := dto_title dto; "episode_id" := pretty (dto_episode_id dto);
         "opening_crawl" := dto_opening_crawl dto; "director" := dto_director dto;
         "producer" := dto_producer dto; "release_date" := dto_release_date dto ]}
  | MoviesUpdate _ dto =>
      opt_field "title" (upd_title dto) ∪
      opt_field "episode_id" (pretty <$> upd_episode_id dto) ∪
      opt_field "opening_crawl" (upd_opening_crawl dto) ∪
      opt_field "director" (upd_director dto) ∪
      opt_field "producer" (upd_producer dto) ∪
      opt_field "release_date" (upd_release_date dto)
  | _ => ∅
  end.

Definition http_request (c : Call) : HttpRequest :=
  mkHttpRequest (route_method (call_route c)) (route_url (call_route c))
                (route_pattern (call_route c)) (route_body (call_route c))
                (call_query c) (route_params (call_route c)).

(** The guards of each route: [@UseGuards(RefreshGuard)] on refresh,
    [@AuthApi(...)] on every movie route but [GET /movies]. *)
Definition route_guards (now : Z) (r : Route) (req : Request) : result Exn (option Claims) :=
  let lift res := match res with Ok c => Ok (Some c) | Err e => Err e end in
  match r with
  | AuthRefresh => lift (RefreshGuard config now req)
  | MoviesFindOne _ => lift (AuthApi config now [STANDARD] req)
  | MoviesCreate _ | MoviesSyncronize | MoviesUpdate _ _ | MoviesRemove _ =>
      lift (AuthApi config now [ADMIN] req)
  | _ => Ok None
  end.

(** A service over one table, run on the application state. *)
Definition on_users {A} (m : M (Table User) Exn A) : M AppState Exn A :=
  fun s => let '(t, r) := m (users s) in (mkAppState t (movies s) (app_log s), r).
Definition on_movies {A} (m : M (Table Movie) Exn A) : M AppState Exn A :=
  fun s => let '(t, r) := m (movies s) in (mkAppState (users s) t (app_log s), r).

Definition from_js {S A} (r : result Exn A) : M S Exn A := fun s => (s, r).

(** The controllers' handlers, after the guards ([user] is [req.user]). *)
Definition controller (env : Env) (r : Route) (user : option Claims) : M AppState Exn Body :=
  match r with
  | AuthRegister dto => BodyUser <$$> on_users (register (user_fault env) dto)
  | AuthLogin dto => BodyTokens <$$> on_users (login (user_fault env) config (env_now env) dto)
  | AuthRefresh =>
      match user with
      | Some c => BodyToken <$$> from_js (refreshToken config (env_now env) (c_payload c))
      | None => from_js (Err unauthorized)
      end
  | MoviesFindAll => BodyMovies <$$> on_movies (findAll (movie_fault env))
  | MoviesFindOne id =>
      (id' <- from_js (ParseUUIDPipe id) ;;
       BodyMovie <$$> (Some <$$> on_movies (findOne (movie_fault env) id')))%svc
  | MoviesCreate dto =>
      (fun m => BodyMovie (Some m)) <$$> on_movies (create (movie_fault env) dto)
  | MoviesSyncronize =>
      BodyMovies <$$> on_movies (syncronize (movie_fault env) (env_fetched env))
  | MoviesUpdate id dto =>
      (id' <- from_js (ParseUUIDPipe id) ;;
       BodyMovie <$$> on_movies (update (movie_fault env) id' dto))%svc
  | MoviesRemove id =>
      (id' <- from_js (ParseUUIDPipe id) ;;
       BodyText <$$> on_movies (remove (movie_fault env) id'))%svc
  end.

Definition success_status (r : Route) : Z :=
  if bool_decide (route_method r = "POST") then 201%Z else 200%Z.

(** [this.logger.error(response)] and [this.logger.info(entry)] at [now]. *)
Definition log_error (now : Z) (resp : HttpExceptionResponse) (s : AppState) : AppState :=
  mkAppState (users s) (movies s) (app_log s ++ [Winston.log_error now resp]).

Definition log_info (now : Z) (e : LogEntry) (s : AppState) : AppState :=
  mkAppState (users s) (movies s) (app_log s ++ [Winston.log_info now e]).

(** One request through the pipeline. *)
Definition handle (env : Env) (c : Call) (s : AppState) : AppState * Response :=
  let req := http_request c in
  let fail s e := let resp := catch_exception e req in (log_error (env_now env) resp s, RespondError resp) in
  match route_guards (env_now env) (call_route c) (call_auth c) with
  | Err e => fail s e
  | Ok user =>
      let s1 := log_info (env_now env) (log req 200) s in
      match controller env (call_route c) user s1 with
      | (s2, Ok b) => (s2, Respond (success_status (call_route c)) b)
      | (s2, Err e) => fail s2 e
      end
  end.
End App.
End App.

(** ** Steps of the application and its invariant *)

Module AppFacts.
Import AuthService AuthServiceFacts MoviesService MoviesServiceFacts AccessControl Boundary ParseUUID
     ParseUUIDSpec ParseUUIDFacts App.
Section Facts.
Context `{UuidGen} `{Bcrypt} `{JwtLib}.
Context (config : Envs).

(** One request, or one run of the synchronisation job (at bootstrap or
    by the cron schedule; a failed run is logged by the scheduler, not
    by the filter, and its writes stay). *)
Inductive app_step : AppState -> AppState -> Prop :=
| step_request env c s :
    app_step s (handle config env c s).1
| step_cron env s :
    app_step s (on_movies (syncronize (movie_fault env) (env_fetched env)) s).1.

Definition reachable (s : AppState) : Prop := star app_step initial_state s.

(** Both tables well formed, every stored password a bcrypt hash. *)
Definition app_inv (s : AppState) : Prop :=
  table_wf (users s) /\ passwords_hashed (users s) /\ table_wf (movies s).

Lemma initial_inv : app_inv initial_state.
Proof.
  split_and!; [apply empty_table_wf| |apply empty_table_wf].
  intros i u. simpl. by rewrite lookup_empty.
Qed.

Lemma on_users_inv {A} (m : M (Table User) Exn A) :
  preserves (fun t => table_wf t /\ passwords_hashed t) m -> preserves app_inv (on_users m).
Proof.
  intros Hm s s' r (Hu & Hh & Hmv). unfold on_users.
  destruct (m (users s)) as [t res] eqn:Hrun. intros [= <- _].
  destruct (Hm _ _ _ (conj Hu Hh) Hrun). by split_and!.
Qed.

Lemma on_movies_inv {A} (m : M (Table Movie) Exn A) :
  preserves table_wf m -> preserves app_inv (on_movies m).
Proof.
  intros Hm s s' r (Hu & Hh & Hmv). unfold on_movies.
  destruct (m (movies s)) as [t res] eqn:Hrun. intros [= <- _].
  split_and!; eauto.
Qed.

Lemma from_js_keeps {S A} (P : S -> Prop) (r : result Exn A) : preserves P (from_js r).
Proof. by intros ??? ? [= <- _]. Qed.

Lemma preserves_and {S E A} (P Q : S -> Prop) (m : M S E A) :
  preserves P m -> preserves Q m -> preserves (fun s => P s /\ Q s) m.
Proof. intros HP HQ s s' r [Hp Hq] Hrun. eauto. Qed.

(** Every controller keeps the invariant. *)
Lemma controller_inv env r user : preserves app_inv (controller config env r user).
Proof.
  destruct r; simpl; preserves_tac; try apply from_js_keeps;
    try apply on_movies_inv; try apply on_users_inv;
    auto using preserves_and, register_wf, register_hashed, login_keeps,
      syncronize_wf, findAll_keeps, findOne_keeps, create_wf, update_wf, remove_wf.
Qed.

Lemma handle_inv env c s : app_inv s -> app_inv (handle config env c s).1.
Proof.
  intros Hs. unfold handle.
  destruct (route_guards _ _ _ _) as [user|e]; [|exact Hs].
  assert (Hs1 : app_inv (log_info (env_now env) (Boundary.log (http_request c) 200) s)) by exact Hs.
  destruct (controller config env _ user _) as [s2 [b|e]] eqn:Hrun;
    simpl; exact (controller_inv _ _ _ _ _ _ Hs1 Hrun).
Qed.

Lemma app_step_inv s s' : app_inv s -> app_step s s' -> app_inv s'.
Proof.
  intros Hs Hstep. destruct Hstep as [env c s0|env s0].
  { exact (handle_inv env c s0 Hs). }
  destruct (on_movies _ s0) as [s2 r] eqn:Hrun. simpl.
  eapply on_movies_inv; [apply syncronize_wf|exact Hs|exact Hrun].
Qed.

(** C1: In every state the application reaches from the empty database,
    both tables are well formed (keys, unique [username] and [title]) and
    every stored password is a bcrypt hash. *)
Theorem reachable_inv s : reachable s -> app_inv s.
Proof.
  intros Hr. eapply star_inv; [|exact Hr|apply initial_inv].
  intros a b Ha Hab. by eapply app_step_inv.
Qed.

(** The handlers do not write the logs. *)
Definition logs (s : AppState) := app_log s.

Lemma on_users_logs {A} L (m : M (Table User) Exn A) :
  preserves (fun s => logs s = L) (on_users m).
Proof. intros s s' r Hs. unfold on_users. destruct (m _). by intros [= <- _]. Qed.

Lemma on_movies_logs {A} L (m : M (Table Movie) Exn A) :
  preserves (fun s => logs s = L) (on_movies m).
Proof. intros s s' r Hs. unfold on_movies. destruct (m _). by intros [= <- _]. Qed.

Lemma controller_logs env r user s :
  logs (controller config env r user s).1 = logs s.
Proof.
  assert (Hp : preserves (fun s' => logs s' = logs s) (controller config env r user)).
  { destruct r; simpl; preserves_tac;
      first [apply from_js_keeps | apply on_users_logs | apply on_movies_logs]. }
  destruct (controller _ _ _ _ _) as [s' res] eqn:Hrun. exact (Hp s s' res eq_refl Hrun).
Qed.

(** The interceptor's and the filter's entries read off the stream. *)
Lemma info_log_logs s s' : logs s = logs s' -> info_log s = info_log s'.
Proof. unfold info_log, logs. congruence. Qed.
Lemma error_log_logs s s' : logs s = logs s' -> error_log s = error_log s'.
Proof. unfold error_log, logs. congruence. Qed.

Lemma info_log_info now e s : info_log (log_info now e s) = info_log s ++ [e].
Proof. unfold info_log. simpl. by rewrite omap_app. Qed.
Lemma error_log_info now e s : error_log (log_info now e s) = error_log s.
Proof. unfold error_log. simpl. by rewrite omap_app, app_nil_r. Qed.
Lemma info_log_error now r s : info_log (log_error now r s) = info_log s.
Proof. unfold info_log. simpl. by rewrite omap_app, app_nil_r. Qed.
Lemma error_log_error now r s : error_log (log_error now r s) = error_log s ++ [r].
Proof. unfold error_log. simpl. by rewrite omap_app. Qed.

(** What one request adds to the two logs: the interceptor's entry when
    the guards pass, and the error response when it is one. *)
Lemma handle_logs env c s :
  let e := Boundary.log (http_request c) 200 in
  match route_guards config (env_now env) (call_route c) (call_auth c) with
  | Err _ => info_log (handle config env c s).1 = info_log s
  | Ok _ => info_log (handle config env c s).1 = info_log s ++ [e]
  end /\
  match handle config env c s with
  | (s', RespondError resp) => error_log s' = error_log s ++ [resp]
  | (s', Respond _ _) => error_log s' = error_log s
  end.
Proof.
  unfold handle. destruct (route_guards _ _ _ _) as [user|e].
  2:{ simpl. by rewrite info_log_error, error_log_error. }
  pose proof (controller_logs env (call_route c) user
                (log_info (env_now env) (Boundary.log (http_request c) 200) s)) as Hl.
  destruct (controller _ _ _ _ _) as [s2 [b|e]]; cbn [fst] in Hl; simpl;
    rewrite ?info_log_error, ?error_log_error, (info_log_logs _ _ Hl),
      (error_log_logs _ _ Hl), info_log_info, error_log_info; done.
Qed.

(** C23: Every error response is written to the error log exactly as it is
    sent, and a successful response writes nothing there. *)
Lemma handle_error_log env c s :
  match handle config env c s with
  | (s', RespondError resp) => error_log s' = error_log s ++ [resp]
  | (s', Respond _ _) => error_log s' = error_log s
  end.
Proof. exact (proj2 (handle_logs env c s)). Qed.

(** No password reaches the info log: every entry's body lacks it. *)
Definition info_log_sanitized (s : AppState) : Prop :=
  forall e, e ∈ info_log s -> log_body e !! "password" = None.

Lemma handle_sanitized env c s :
  info_log_sanitized s -> info_log_sanitized (handle config env c s).1.
Proof.
  intros Hs e' He'. destruct (handle_logs env c s) as [Hi _].
  destruct (route_guards _ _ _ _); rewrite Hi in He'; [|by apply Hs].
  apply elem_of_app in He' as [He'|He'%list_elem_of_singleton]; [by apply Hs|].
  subst. apply lookup_delete_eq.
Qed.

(** C25: [POST /auth/login] that succeeds answers 201 with the two tokens. *)
Lemma login_responds_201 env c s dto pair t' :
  call_route c = AuthLogin dto ->
  login (user_fault env) config (env_now env) dto (users s) = (t', Ok pair) ->
  (handle config env c s).2 = Respond 201 (BodyTokens pair).
Proof.
  intros Hr Hl. unfold handle. rewrite Hr. simpl.
  unfold mmap, on_users. simpl. by rewrite Hl.
Qed.

(** C21: [PATCH /movies/:id] by an administrator that renames a movie to the
    title of another one answers 500, and the response's [message] is the
    database's error object itself. *)
Lemma patch_duplicate_title_500 env c s id dto m j m2 x tok sa cl :
  call_route c = MoviesUpdate id dto -> call_auth c = AccessControlFacts.bearer tok ->
  ACCESSTOKEN_SECRET config = Some sa -> jwt_verify (env_now env) sa tok = Ok cl ->
  p_role (c_payload cl) = ADMIN -> is_uuid id = true -> movie_fault env = no_faults ->
  upd_title dto = Some x -> rows (movies s) !! id = Some m ->
  rows (movies s) !! j = Some m2 -> title m2 = x -> j <> id ->
  (handle config env c s).2 =
    RespondError (mkHttpExceptionResponse 500 (MsgObject unique_violation_error)
                                          ("/movies/" +:+ id) "PATCH").
Proof.
  intros Hr Ha Hs Hv Hrole Hid Hf Hx Hi Hj Ht Hne. unfold handle, http_request.
  rewrite Hr, Ha. simpl.
  rewrite (AccessControlFacts.AuthApi_verified _ _ _ _ _ _ Hs Hv), Hrole. simpl.
  unfold mbind, from_js, ParseUUIDPipe. rewrite Hid. unfold mmap, on_movies. simpl.
  rewrite Hf, (update_duplicate_title id dto (movies s) m j m2 x Hx Hi Hj Ht Hne).
  reflexivity.
Qed.

(** C22: No state the application reaches has a password in its info log:
    the interceptor drops the [password] field of every logged body. *)
Theorem reachable_sanitized s : reachable s -> info_log_sanitized s.
Proof.
  intros Hr. eapply star_inv; [|exact Hr|intros e He; by apply elem_of_nil in He].
  intros a b Ha Hab. destruct Hab as [env c s0|env s0].
  - exact (handle_sanitized env c s0 Ha).
  - unfold on_movies. destruct (syncronize _ _ _). exact Ha.
Qed.

(** Every entry is logged at the level of its kind: the interceptor's at
    [info], the filter's at [error]. *)
Definition entry_level (i : Info) : Npm.level :=
  match info_message i with EvInfo _ => Npm.info | EvError _ => Npm.error end.

Definition log_levels_ok (s : AppState) : Prop :=
  Forall (fun i => info_level i = entry_level i) (app_log s).

Lemma handle_log_levels env c s :
  log_levels_ok s -> log_levels_ok (handle config env c s).1.
Proof.
  intros Hs. unfold handle, log_levels_ok. destruct (route_guards _ _ _ _) as [user|e].
  2:{ simpl. apply Forall_app. split; [exact Hs|by constructor]. }
  pose proof (controller_logs env (call_route c) user
                (log_info (env_now env) (Boundary.log (http_request c) 200) s)) as Hl.
  assert (Hinfo : Forall (fun i => info_level i = entry_level i)
                 (app_log s ++ [Winston.log_info (env_now env) (Boundary.log (http_request c) 200)]))
    by (apply Forall_app; split; [exact Hs|by constructor]).
  destruct (controller _ _ _ _ _) as [s2 [b|e]]; cbn [fst] in Hl; unfold logs in Hl;
    simpl; rewrite ?Hl; [exact Hinfo|].
  apply Forall_app. split; [exact Hinfo|by constructor].
Qed.

(** The entries of level [error] of a log at the right levels are the
    error responses. *)
Lemma errors_of_levels (l : list Info) :
  Forall (fun i => info_level i = entry_level i) l ->
  info_message <$> filter (fun i => info_level i = Npm.error) l =
  EvError <$> omap (fun i => match info_message i with EvError r => Some r | EvInfo _ => None end) l.
Proof.
  induction l as [|[lv [e|r] ts] l IH]; intros Hall; [done|..];
    apply Forall_cons in Hall as [Hi Hall]; unfold entry_level in Hi; simpl in Hi; subst lv.
  - rewrite filter_cons_False by done. by apply IH.
  - rewrite filter_cons_True by done. simpl. f_equal. by apply IH.
Qed.

(** C28: In every reachable state, with [winstonConfig]: the console and
    [logs/info.log] hold every entry the application logged, in order
    (errors included), and [logs/errors.log] holds exactly the error
    responses the filter sent, in order. *)
Theorem reachable_log_files s :
  reachable s ->
  Winston.output winstonConfig (mkTransport Console None) (app_log s) = app_log s /\
  Winston.file_contents winstonConfig "info.log" (app_log s) = app_log s /\
  info_message <$> Winston.file_contents winstonConfig "errors.log" (app_log s) =
    EvError <$> error_log s.
Proof.
  intros Hr.
  assert (Hl : log_levels_ok s).
  { eapply star_inv; [|exact Hr|constructor].
    intros a b Ha Hab. destruct Hab as [env c s0|env s0].
    - exact (handle_log_levels env c s0 Ha).
    - unfold on_movies. destruct (syncronize _ _ _). exact Ha. }
  assert (Hle : Forall (fun i => Npm.levels (info_level i) <= 2) (app_log s)).
  { eapply Forall_impl; [exact Hl|]. intros [lv [] ?] Hi; unfold entry_level in Hi; simpl in Hi; subst; simpl; lia. }
  split_and!.
  - by apply WinstonFacts.winston_console.
  - by apply WinstonFacts.winston_info_file.
  - rewrite WinstonFacts.winston_errors_file. by apply errors_of_levels.
Qed.

(** ** The [:id] routes *)

(** C29: On [GET], [PATCH] and [DELETE /movies/:id] the handler runs only
    for an id matching the UUID regular expression; any other id is
    answered with a 400 before the service is called, the state unchanged. *)
Theorem id_routes_reject_non_uuid env rt id user s :
  rt = MoviesFindOne id \/ rt = MoviesRemove id \/ (exists dto, rt = MoviesUpdate id dto) ->
  ~ regex_match uuid_pattern id ->
  controller config env rt user s =
    (s, Err (BadRequestException "Validation failed (uuid is expected)")).
Proof.
  intros Hrt Hid. rewrite <- is_uuid_regex, not_true_iff_false in Hid.
  destruct Hrt as [->|[->|[dto ->]]]; simpl;
    unfold mbind, from_js, ParseUUIDPipe; by rewrite Hid.
Qed.

(** ** The guards of the routes refine the spec's state machine *)

(** The access column of the table of section 6: no guard, the refresh
    token, or the access token with the roles the route allows.  The
    table's "role >= standard" of [GET /movies/:id] is the role
    [STANDARD], which section 4.3 compares with the token's role by
    membership. *)
Definition spec_route_access (r : Route) : option (StrategyName * option (list Roles)) :=
  match r with
  | AuthRefresh => Some (StratRefresh, None)
  | MoviesFindOne _ => Some (StratAuth, Some [STANDARD])
  | MoviesCreate _ | MoviesSyncronize | MoviesUpdate _ _ | MoviesRemove _ =>
      Some (StratAuth, Some [ADMIN])
  | _ => None
  end.



(** C32: [POST /auth/register] runs no guard and stores the role the body
    names: whatever [Authorization] header it carries, a register request
    for a fresh username with role [ADMIN] answers 201 with an [ADMIN]
    user; a login request with the same credentials then answers 201 with
    a token pair whose access token every route the table reserves to
    administrators accepts, with role [ADMIN], until it expires. *)
Theorem self_registered_admin env env' s name pw hdr q hdr' q' sa da sr dr now :
  table_wf (users s) -> ~ holds_unique (users s) name ->
  user_fault env = no_faults -> user_fault env' = no_faults ->
  signable (ACCESSTOKEN_SECRET config) (ACCESSTOKEN_EXPIRATION config) sa da ->
  signable (REFRESHTOKEN_SECRET config) (REFRESHTOKEN_EXPIRATION config) sr dr ->
  (env_now env' <= now < env_now env' + da)%Z ->
  let reg := mkCall (AuthRegister (mkRegisterDTO name pw ADMIN None)) hdr q in
  (exists u, (handle config env reg s).2 = Respond 201 (BodyUser u) /\ role u = ADMIN) /\
  exists pair,
    (handle config env' (mkCall (AuthLogin (mkLoginDTO name pw)) hdr' q')
            (handle config env reg s).1).2 = Respond 201 (BodyTokens pair) /\
    forall r, spec_route_access r = Some (StratAuth, Some [ADMIN]) ->
      exists c, route_guards config now r (AccessControlFacts.bearer (access_token pair)) =
                  Ok (Some c) /\ p_role (c_payload c) = ADMIN.
Proof.
  intros Hwf Hu Hf Hf' Ha Hr Hnow reg.
  set (dto := mkRegisterDTO name pw ADMIN None).
  set (row := set_pk (uuid (gen_key (users s))) (register_row dto)).
  set (t1 := mkTable (<[uuid (gen_key (users s)) := row]> (rows (users s)))
                     (N.succ (gen_key (users s)))).
  assert (Hs : repo_save no_faults (register_row dto) (users s) = (t1, Ok row))
    by exact (repo_save_fresh no_faults (register_row dto) (users s) eq_refl eq_refl Hu).
  assert (Hreg : register no_faults dto (users s) = (t1, Ok (plainToInstance row)))
    by (by rewrite register_eq, Hs).
  assert (Hwf1 : table_wf t1) by (eapply repo_save_wf; [exact Hwf|exact Hs]).
  assert (Hrow : rows t1 !! user_id row = Some row) by apply lookup_insert_eq.
  pose proof (login_found config (env_now env') (mkLoginDTO name pw) t1 row 10 sa da sr dr
                (repo_findOneByUnique_found t1 _ row _ Hwf1 Hrow eq_refl) eq_refl Ha Hr) as Hl.
  unfold dto in Hreg. unfold handle; simpl. unfold mmap, on_users; simpl. rewrite Hf, Hreg. simpl.
  split; [by eexists|]. rewrite Hf'. simpl. rewrite Hl. eexists. split; [reflexivity|].
  destruct Ha as (Hsa & _). intros r Hr'.
  match goal with |- context [access_token ?p] => set (tok := access_token p) end.
  assert (Hv : jwt_verify now sa tok = Ok (jwt_claims tok)).
  { unfold jwt_verify. simpl. rewrite bool_decide_eq_true_2 by done.
    by rewrite (proj2 (Z.leb_gt _ _)) by lia. }
  assert (Hapi : AuthApi config now [ADMIN] (AccessControlFacts.bearer tok) = Ok (jwt_claims tok)).
  { rewrite (AccessControlFacts.AuthApi_verified _ _ _ _ sa _ Hsa Hv).
    rewrite bool_decide_eq_true_2; [done|]. by apply list_elem_of_singleton. }
  exists (jwt_claims tok). split; [|reflexivity].
  destruct r; simpl in Hr'; try discriminate; unfold route_guards; by rewrite Hapi.
Qed.
End Facts.
End AppFacts.

(** ** The properties at concrete inputs *)

Module AppWitnesses.
Import AuthService AuthServiceFacts AuthServiceWitnesses AccessControlFacts
     AccessControlWitnesses MoviesService ParseUUID ParseUUIDSpec App AppFacts.

Lemma reachable_inv_witness :
  reachable cfg initial_state /\ app_inv initial_state.
Proof.
  assert (H : reachable cfg initial_state) by apply star_refl.
  split; [exact H|exact (reachable_inv cfg initial_state H)].
Defined.

Lemma reachable_sanitized_witness :
  reachable cfg initial_state /\ info_log_sanitized initial_state.
Proof.
  assert (H : reachable cfg initial_state) by apply star_refl.
  split; [exact H|exact (reachable_sanitized cfg initial_state H)].
Defined.

(** Two movies under uuid-shaped keys. *)
Definition id_hope : string := "3fa85f64-5717-4562-b3fc-2c963f66afa6".
Definition id_empire : string := "7c9e6679-7425-40de-944b-e07fc1f90ae7".
Definition hope : Movie := mkMovie id_hope "A New Hope" 4 "" "George Lucas" "" "1977-05-25".
Definition empire : Movie :=
  mkMovie id_empire "The Empire Strikes Back" 5 "" "Irvin Kershner" "" "1980-05-17".
Definition two_movies : AppState :=
  mkAppState one_user (mkTable {[ id_hope := hope; id_empire := empire ]} 2) [].

Definition env0 : Env := mkEnv 200 no_faults no_faults (Ok (Some [])).

Definition rename_to_empire : UpdateMovieDto :=
  mkUpdateMovieDto (Some "The Empire Strikes Back") None None None None None.
Definition patch_call : Call :=
  mkCall (MoviesUpdate id_hope rename_to_empire) (bearer admin_access) ∅.

Lemma patch_duplicate_title_500_witness :
  is_uuid id_hope = true /\
  (handle cfg env0 patch_call two_movies).2 =
    RespondError (mkHttpExceptionResponse 500 (MsgObject unique_violation_error)
                                          ("/movies/" +:+ id_hope) "PATCH").
Proof.
  assert (Hid : is_uuid id_hope = true) by reflexivity.
  assert (Hv : jwt_verify (env_now env0) "access-secret" admin_access =
               Ok (jwt_claims admin_access)) by (vm_compute; reflexivity).
  assert (Hi : rows (movies two_movies) !! id_hope = Some hope) by by_decide.
  assert (Hj : rows (movies two_movies) !! id_empire = Some empire) by by_decide.
  assert (Hne : id_empire <> id_hope) by by_decide.
  split; [exact Hid|].
  exact (patch_duplicate_title_500 cfg env0 patch_call two_movies id_hope rename_to_empire
           hope id_empire empire "The Empire Strikes Back" admin_access "access-secret"
           (jwt_claims admin_access) eq_refl eq_refl eq_refl Hv eq_refl Hid eq_refl eq_refl
           Hi Hj eq_refl Hne).
Defined.

Definition login_call : Call :=
  mkCall (AuthLogin (mkLoginDTO "admin" "s3cret")) (mkRequest None) ∅.

Lemma login_responds_201_witness :
  login no_faults cfg 200 (mkLoginDTO "admin" "s3cret") one_user =
    (one_user, Ok (mkTokenPair
      (mkJwt (user_claims admin_payload 200 3600)
             (hmac "access-secret" (user_claims admin_payload 200 3600)))
      (mkJwt (user_claims admin_payload 200 604800)
             (hmac "refresh-secret" (user_claims admin_payload 200 604800))))) /\
  (handle cfg env0 login_call two_movies).2 =
    Respond 201 (BodyTokens (mkTokenPair
      (mkJwt (user_claims admin_payload 200 3600)
             (hmac "access-secret" (user_claims admin_payload 200 3600)))
      (mkJwt (user_claims admin_payload 200 604800)
             (hmac "refresh-secret" (user_claims admin_payload 200 604800))))).
Proof.
  assert (Hl : login (user_fault env0) cfg (env_now env0) (mkLoginDTO "admin" "s3cret")
                 (users two_movies) =
    (one_user, Ok (mkTokenPair
      (mkJwt (user_claims admin_payload 200 3600)
             (hmac "access-secret" (user_claims admin_payload 200 3600)))
      (mkJwt (user_claims admin_payload 200 604800)
             (hmac "refresh-secret" (user_claims admin_payload 200 604800))))))
    by (vm_compute; reflexivity).
  split; [exact Hl|exact (login_responds_201 cfg env0 login_call two_movies _ _ _ eq_refl Hl)].
Defined.

(** A login on the empty database: the interceptor's entry, then the 404. *)
Definition after_unknown_login : AppState := (handle cfg env0 login_call initial_state).1.

Lemma after_unknown_login_errors :
  Winston.file_contents winstonConfig "errors.log" (app_log after_unknown_login) =
    [Winston.log_error 200
       (mkHttpExceptionResponse 404 (MsgText "User not found") "/auth/login" "POST")].
Proof. vm_compute. reflexivity. Qed.

Lemma reachable_log_files_witness :
  reachable cfg after_unknown_login /\
  Winston.output winstonConfig (mkTransport Console None) (app_log after_unknown_login) =
    app_log after_unknown_login /\
  Winston.file_contents winstonConfig "info.log" (app_log after_unknown_login) =
    app_log after_unknown_login /\
  info_message <$> Winston.file_contents winstonConfig "errors.log" (app_log after_unknown_login) =
    EvError <$> error_log after_unknown_login.
Proof.
  assert (H : reachable cfg after_unknown_login) by (apply star_one, step_request).
  split; [exact H|exact (reachable_log_files cfg after_unknown_login H)].
Defined.
(** The key format of the evaluation generator is not a UUID. *)
Lemma id_routes_reject_non_uuid_witness :
  ~ regex_match uuid_pattern "uuid-0" /\
  controller cfg env0 (MoviesRemove "uuid-0") None two_movies =
    (two_movies, Err (BadRequestException "Validation failed (uuid is expected)")).
Proof.
  assert (H : ~ regex_match uuid_pattern "uuid-0") by by_decide.
  split; [exact H|].
  exact (id_routes_reject_non_uuid cfg env0 _ "uuid-0" None two_movies
           (or_intror (or_introl eq_refl)) H).
Defined.

(** A request with an anonymous header registers ["mallory"] as an
    administrator on the empty database. *)
Lemma self_registered_admin_witness :
  table_wf (users initial_state) /\ ~ holds_unique (users initial_state) "mallory" /\
  (let reg := mkCall (AuthRegister (mkRegisterDTO "mallory" "pw" ADMIN None))
                     (mkRequest None) ∅ in
   (exists u, (handle cfg env0 reg initial_state).2 = Respond 201 (BodyUser u) /\
              role u = ADMIN) /\
   exists pair,
     (handle cfg env0 (mkCall (AuthLogin (mkLoginDTO "mallory" "pw")) (mkRequest None) ∅)
             (handle cfg env0 reg initial_state).1).2 = Respond 201 (BodyTokens pair) /\
     forall r, spec_route_access r = Some (StratAuth, Some [ADMIN]) ->
       exists c, route_guards cfg 300 r (bearer (access_token pair)) = Ok (Some c) /\
                 p_role (c_payload c) = ADMIN).
Proof.
  assert (Hwf : table_wf (users initial_state)) by apply empty_table_wf.
  assert (Hu : ~ holds_unique (users initial_state) "mallory") by by_decide.
  assert (Hnow : (env_now env0 <= 300 < env_now env0 + 3600)%Z) by (simpl; lia).
  split_and!; [exact Hwf|exact Hu|].
  exact (self_registered_admin cfg env0 env0 initial_state "mallory" "pw" (mkRequest None) ∅
           (mkRequest None) ∅ "access-secret" 3600 "refresh-secret" 604800 300
           Hwf Hu eq_refl eq_refl cfg_access_signable cfg_refresh_signable Hnow).
Defined.
End AppWitnesses.
