(* ===== verification/Wiring.v ===== *)
(** * Module wiring: NestJS dependency injection

    [src/app.module.ts] and [src/modules/auth/auth.module.ts] declare the
    application's modules: what each imports, its controllers, its
    providers.  At bootstrap NestJS scans the modules reachable from
    [AppModule] through [imports] and instantiates every controller and
    provider, resolving each constructor parameter by its injection token;
    a token that is not visible in the module makes bootstrap fail
    ([UnknownDependenciesException]).  A token is visible in a module when
    the module provides it, when a module it imports exports it, or when a
    global module exports it.  The providers registered under [APP_FILTER]
    and [APP_INTERCEPTOR], in any scanned module, become the global
    exception filter and interceptor.

    The library modules ([ConfigModule.forRoot({ isGlobal: true })],
    [TypeOrmModule.forRootAsync] and [forFeature], [ScheduleModule],
    [WinstonModule.forRoot]) are modelled by the tokens they provide and
    export and the tokens their factories inject.  [MoviesModule] is
    imported by [AppModule] but its file is not in the repository: it is
    modelled from the spec (the movies controller and service over the
    [Movie] repository), like [AuthModule]. *)

From S2P Require Import Prelude.

(** The classes of [src/] that NestJS instantiates. *)
Inductive ClassId :=
| CAuthService | CAuthController | CAuthStrategy | CRefreshStrategy
| CMoviesService | CMoviesController | CJwtService
| CExceptionsFilter | CLoggerInterceptor.

Inductive EntityName := EUser | EMovie.

(** Injection tokens: a class, or a token of a library. *)
Inductive Token :=
| TClass (c : ClassId)
| TConfigService
| TRepository (e : EntityName)      (** [getRepositoryToken(e)] *)
| TDataSource
| TWinston                          (** [WINSTON_MODULE_PROVIDER] *)
| TAppFilter                        (** [APP_FILTER] *)
| TAppInterceptor.                  (** [APP_INTERCEPTOR] *)

#[export] Instance ClassId_eq_dec : EqDecision ClassId.
Proof. solve_decision. Defined.
#[export] Instance EntityName_eq_dec : EqDecision EntityName.
Proof. solve_decision. Defined.
#[export] Instance Token_eq_dec : EqDecision Token.
Proof. solve_decision. Defined.

(** The constructor parameters of each class, by token.  [JwtService]'s
    only parameter, the module options, is [@Optional()]; so is the
    application reference of [BaseExceptionFilter]. *)
Definition deps (c : ClassId) : list Token :=
  match c with
  | CAuthService => [TClass CJwtService; TConfigService; TRepository EUser]
  | CAuthController => [TClass CAuthService]
  | CAuthStrategy | CRefreshStrategy => [TConfigService]
  | CMoviesService => [TRepository EMovie]
  | CMoviesController => [TClass CMoviesService]
  | CJwtService => []
  | CExceptionsFilter | CLoggerInterceptor => [TWinston]
  end.

(** A provider: a class under a token ([AuthService], or
    [{ provide: APP_FILTER, useClass: ExceptionsFilter }]), or a library's
    factory with the tokens it injects. *)
Inductive Provider :=
| ClassProvider (tok : Token) (c : ClassId)
| FactoryProvider (tok : Token) (inject : list Token).

Definition provider_token (p : Provider) : Token :=
  match p with ClassProvider tok _ | FactoryProvider tok _ => tok end.

Definition provider_deps (p : Provider) : list Token :=
  match p with ClassProvider _ c => deps c | FactoryProvider _ inj => inj end.

(** A provider given by its class: [providers: [AuthService]]. *)
Definition cls (c : ClassId) : Provider := ClassProvider (TClass c) c.

Inductive ModuleId :=
| AppModule | AuthModule | MoviesModule
| ConfigModule | TypeOrmCoreModule | TypeOrmFeature (e : EntityName)
| ScheduleModule | WinstonModule.

#[export] Instance ModuleId_eq_dec : EqDecision ModuleId.
Proof. solve_decision. Defined.

(** The metadata of [@Module({ ... })], and whether the module is global. *)
Record ModuleDef := mkModuleDef {
  imports : list ModuleId;
  controllers : list ClassId;
  providers : list Provider;
  exports : list Token;
  is_global : bool;
}.

(** [AppModule] ([src/app.module.ts]) *)
Definition app_module_def : ModuleDef :=
  mkModuleDef [ConfigModule; TypeOrmCoreModule; ScheduleModule; WinstonModule;
               MoviesModule; AuthModule] []
    [cls CAuthStrategy; cls CRefreshStrategy;
     ClassProvider TAppFilter CExceptionsFilter;
     ClassProvider TAppInterceptor CLoggerInterceptor] [] false.

(** [AuthModule] ([src/modules/auth/auth.module.ts]) *)
Definition auth_module_def : ModuleDef :=
  mkModuleDef [TypeOrmFeature EUser] [CAuthController]
    [cls CAuthService; cls CJwtService; cls CAuthStrategy; cls CRefreshStrategy] [] false.

(** [MoviesModule], whose file is not in the repository. *)
Definition movies_module_def : ModuleDef :=
  mkModuleDef [TypeOrmFeature EMovie] [CMoviesController] [cls CMoviesService] [] false.

Definition module_def (m : ModuleId) : ModuleDef :=
  match m with
  | AppModule => app_module_def
  | AuthModule => auth_module_def
  | MoviesModule => movies_module_def
  | ConfigModule => mkModuleDef [] [] [FactoryProvider TConfigService []] [TConfigService] true
  | TypeOrmCoreModule =>
      mkModuleDef [] [] [FactoryProvider TDataSource [TConfigService]] [TDataSource] true
  | TypeOrmFeature e =>
      mkModuleDef [] [] [FactoryProvider (TRepository e) [TDataSource]] [TRepository e] false
  | ScheduleModule => mkModuleDef [] [] [] [] true
  | WinstonModule => mkModuleDef [] [] [FactoryProvider TWinston []] [TWinston] true
  end.

Definition all_modules : list ModuleId :=
  [AppModule; AuthModule; MoviesModule; ConfigModule; TypeOrmCoreModule;
   TypeOrmFeature EUser; TypeOrmFeature EMovie; ScheduleModule; WinstonModule].

(** The scan: the modules reachable through [imports], one round of
    imports per unit of fuel. *)
Fixpoint scan (fuel : nat) (ms : list ModuleId) : list ModuleId :=
  match fuel with
  | O => ms
  | S f => scan f (remove_dups (ms ++ concat ((fun m => imports (module_def m)) <$> ms)))
  end.

Definition app_modules : list ModuleId := scan (length all_modules) [AppModule].

(** Is [tok] visible to the classes of module [m], among the scanned
    modules [ms]? *)
Definition visible (ms : list ModuleId) (m : ModuleId) (tok : Token) : bool :=
  bool_decide (tok ∈ provider_token <$> providers (module_def m)) ||
  existsb (fun i => bool_decide (tok ∈ exports (module_def i))) (imports (module_def m)) ||
  existsb (fun g => is_global (module_def g) && bool_decide (tok ∈ exports (module_def g))) ms.

(** The tokens the controllers and providers of [m] inject. *)
Definition injections (m : ModuleId) : list Token :=
  concat (deps <$> controllers (module_def m)) ++
  concat (provider_deps <$> providers (module_def m)).

Definition bootstrap_ok : bool :=
  forallb (fun m => forallb (visible app_modules m) (injections m)) app_modules.

(** The classes the scanned modules provide under [tok], in scan order:
    for [APP_FILTER] and [APP_INTERCEPTOR], the global enhancers. *)
Definition enhancers (tok : Token) : list ClassId :=
  omap (fun p => match p with
                 | ClassProvider t c => if bool_decide (t = tok) then Some c else None
                 | FactoryProvider _ _ => None
                 end)
       (concat ((fun m => providers (module_def m)) <$> app_modules)).

(** ** The scan and the visibility rule *)

Module WiringFacts.

(** [m] imports [m']. *)
Definition imports_rel (m m' : ModuleId) : Prop := m' ∈ imports (module_def m).

(** The modules NestJS scans: those [AppModule] reaches through imports. *)
Definition scanned (m : ModuleId) : Prop := rtc imports_rel AppModule m.

(** The visibility rule, over the scanned modules. *)
Definition visible_in (m : ModuleId) (tok : Token) : Prop :=
  (exists p, p ∈ providers (module_def m) /\ provider_token p = tok) \/
  (exists i, i ∈ imports (module_def m) /\ tok ∈ exports (module_def i)) \/
  (exists g, scanned g /\ is_global (module_def g) = true /\ tok ∈ exports (module_def g)).

Lemma scan_sound fuel ms m :
  m ∈ scan fuel ms -> exists m0, m0 ∈ ms /\ rtc imports_rel m0 m.
Proof.
  revert ms. induction fuel as [|f IH]; intros ms Hm; simpl in Hm; [by exists m|].
  apply IH in Hm as (m1 & Hm1 & Hr). apply elem_of_remove_dups, elem_of_app in Hm1 as [Hm1|Hm1].
  - by exists m1.
  - apply list_elem_of_In, in_concat in Hm1 as (l & Hin & Hl).
    apply list_elem_of_In in Hl, Hin.
    apply list_elem_of_fmap in Hin as (m0 & -> & Hm0).
    exists m0. split; [done|]. eapply rtc_l; [exact Hl|exact Hr].
Qed.

Lemma scan_extensive fuel ms m : m ∈ ms -> m ∈ scan fuel ms.
Proof.
  revert ms. induction fuel as [|f IH]; intros ms Hm; simpl; [done|].
  apply IH, elem_of_remove_dups, elem_of_app. by left.
Qed.

(** The scan is closed under imports: checked on the nine modules. *)
Lemma app_modules_closed m m' :
  m ∈ app_modules -> imports_rel m m' -> m' ∈ app_modules.
Proof.
  assert (Hall : Forall (fun m => Forall (fun m' => m' ∈ app_modules) (imports (module_def m)))
                        app_modules) by by_decide.
  intros Hm Hi. rewrite Forall_forall in Hall. specialize (Hall m Hm).
  rewrite Forall_forall in Hall. exact (Hall m' Hi).
Qed.

(** [app_modules] is exactly the set of scanned modules. *)
Lemma app_modules_spec m : m ∈ app_modules <-> scanned m.
Proof.
  split.
  - intros Hm. apply scan_sound in Hm as (m0 & ->%list_elem_of_singleton & Hr). exact Hr.
  - intros Hr. unfold scanned in Hr. remember AppModule as a eqn:Ha.
    assert (Hstart : a ∈ app_modules) by (subst; apply scan_extensive; left).
    clear Ha. induction Hr as [x|x y z Hxy _ IH]; [done|].
    apply IH. exact (app_modules_closed x y Hstart Hxy).
Qed.

Lemma visible_spec m tok :
  visible app_modules m tok = true <-> visible_in m tok.
Proof.
  unfold visible, visible_in.
  rewrite !orb_true_iff, !existsb_exists, bool_decide_eq_true, list_elem_of_fmap. split.
  - intros [[(p & -> & Hp)|(i & Hi & He)]|(g & Hg & Hge)].
    + left. eauto.
    + right; left. apply bool_decide_eq_true in He. apply list_elem_of_In in Hi. eauto.
    + right; right. apply andb_true_iff in Hge as [Hgl He]. apply bool_decide_eq_true in He.
      apply list_elem_of_In, app_modules_spec in Hg. eauto.
  - intros [(p & Hp & <-)|[(i & Hi & He)|(g & Hg & Hgl & He)]].
    + left; left. eauto.
    + left; right. exists i. split; [by apply list_elem_of_In|by apply bool_decide_eq_true].
    + right. exists g. split.
      * exact (proj1 (list_elem_of_In _ _) (proj2 (app_modules_spec g) Hg)).
      * rewrite Hgl. by apply bool_decide_eq_true.
Qed.

(** C34: The application bootstraps: in every module NestJS scans from
    [AppModule], every constructor parameter of every controller and
    provider (and every library factory) names a token visible there, so no
    [UnknownDependenciesException] is thrown; the global exception filter
    is [ExceptionsFilter] and the global interceptor [LoggerInterceptor],
    each registered once. *)
Theorem app_module_bootstraps :
  (forall m, scanned m -> forall tok, tok ∈ injections m -> visible_in m tok) /\
  enhancers TAppFilter = [CExceptionsFilter] /\
  enhancers TAppInterceptor = [CLoggerInterceptor].
Proof.
  assert (Hok : bootstrap_ok = true) by (vm_compute; reflexivity).
  split_and!; [|vm_compute; reflexivity..].
  intros m Hm tok Htok. apply visible_spec.
  unfold bootstrap_ok in Hok. rewrite forallb_forall in Hok.
  apply app_modules_spec, list_elem_of_In, Hok in Hm.
  rewrite forallb_forall in Hm. by apply Hm, list_elem_of_In.
Qed.
End WiringFacts.
