(* ===== verification/Schedule.v ===== *)
(** * When the synchronisation job runs

    [src/modules/movies/movies.service.ts] runs [syncronize] once from
    [onApplicationBootstrap] and then on [@Cron(CronExpression.EVERY_30_MINUTES)].
    [@nestjs/schedule] (not in [src/], modelled from its documented
    behaviour) registers the method with the [cron] package, which fires
    at every second whose fields match the expression
    ['0 */30 * * * *']: second, minute, hour, day of month, month, day of
    week.  A time is a count of seconds of the server's local clock; the
    expression's day fields are ['*'], so only the second, the minute and
    the hour of the time matter, and the calendar is not modelled.  A run
    is not awaited by the scheduler: a tick fires whether or not the
    previous run has finished ([SyncRuns.v] is what overlapping runs do). *)

From S2P Require Import Prelude.

Local Open Scope Z_scope.

Module Cron.

(** A field of a cron expression: ['*'], ['*/n'] or a number. *)
Inductive CronField := Any | Step (n : Z) | Exact (v : Z).

Definition field_matches (f : CronField) (v : Z) : bool :=
  match f with
  | Any => true
  | Step n => Z.eqb (v mod n) 0
  | Exact x => Z.eqb v x
  end.

(** The time fields of a six-field expression (the day fields are ['*']). *)
Record CronExpr := mkCronExpr {
  cron_second : CronField;
  cron_minute : CronField;
  cron_hour : CronField;
}.

(** [CronExpression.EVERY_30_MINUTES = '0 */30 * * * *'] *)
Definition EVERY_30_MINUTES : CronExpr := mkCronExpr (Exact 0) (Step 30) Any.

(** Does the expression fire at second [t]? *)
Definition cron_matches (c : CronExpr) (t : Z) : bool :=
  field_matches (cron_second c) (t mod 60) &&
  field_matches (cron_minute c) ((t / 60) mod 60) &&
  field_matches (cron_hour c) ((t / 3600) mod 24).

(** The starts of [syncronize] after the application started at [t0]:
    the bootstrap call, then every tick of the cron job. *)
Definition sync_starts (t0 t : Z) : bool :=
  Z.eqb t t0 || (Z.ltb t0 t && cron_matches EVERY_30_MINUTES t).

(** The first tick at or after [t]. *)
Definition next_tick (t : Z) : Z := t + (1800 - t mod 1800) mod 1800.
End Cron.

(** ** The schedule is every half hour *)

Module CronFacts.
Import Cron.

(** ['0 */30 * * * *'] fires exactly at the multiples of 1800 seconds. *)
Lemma every_30_minutes_spec t : cron_matches EVERY_30_MINUTES t = Z.eqb (t mod 1800) 0.
Proof.
  unfold cron_matches, EVERY_30_MINUTES, field_matches. simpl. rewrite andb_true_r.
  apply eq_true_iff_eq. rewrite andb_true_iff, !Z.eqb_eq.
  pose proof (Z.mod_pos_bound t 60). pose proof (Z.mod_pos_bound t 1800).
  pose proof (Z.mod_pos_bound (t / 60) 60). pose proof (Z.mod_pos_bound (t / 60) 30).
  Z.div_mod_to_equations. lia.
Qed.

Lemma next_tick_spec t :
  t <= next_tick t < t + 1800 /\ cron_matches EVERY_30_MINUTES (next_tick t) = true /\
  forall s, t <= s < next_tick t -> cron_matches EVERY_30_MINUTES s = false.
Proof.
  unfold next_tick. split_and!.
  - pose proof (Z.mod_pos_bound (1800 - t mod 1800) 1800). lia.
  - pose proof (Z.mod_pos_bound (1800 - t mod 1800) 1800). lia.
  - rewrite every_30_minutes_spec, Z.eqb_eq. Z.div_mod_to_equations. lia.
  - intros s Hs. rewrite every_30_minutes_spec, Z.eqb_neq. Z.div_mod_to_equations. nia.
Qed.

(** C36: Liveness of the synchronisation job: whatever the instant [t]
    after the application started at [t0], a run of [syncronize] (the
    bootstrap call or a tick of ['0 */30 * * * *']) starts within the
    next 30 minutes. *)
Lemma sync_starts_every_30_minutes t0 t :
  t0 <= t -> exists s, t <= s < t + 1800 /\ sync_starts t0 s = true.
Proof.
  intros Ht. destruct (next_tick_spec t) as (Hb & Hf & _).
  destruct (Z.eq_dec (next_tick t) t0) as [He|Hne].
  - exists t0. split; [lia|]. unfold sync_starts. by rewrite Z.eqb_refl.
  - exists (next_tick t). split; [lia|]. unfold sync_starts.
    rewrite Hf, orb_true_iff, andb_true_r, Z.ltb_lt. lia.
Qed.

(** A run that lasts longer than the time to the next tick overlaps the
    run that tick starts: nothing in the scheduler waits for it. *)
Lemma sync_run_overlaps t0 s d :
  t0 <= s -> next_tick (s + 1) < s + d ->
  exists s', s < s' < s + d /\ sync_starts t0 s' = true.
Proof.
  intros Hs Hd. destruct (next_tick_spec (s + 1)) as (Hb & Hf & _).
  exists (next_tick (s + 1)). split; [lia|]. unfold sync_starts.
  rewrite Hf, orb_true_iff, andb_true_r, Z.ltb_lt. lia.
Qed.
End CronFacts.

(** ** The property at a concrete input *)

Module CronWitnesses.
Import Cron CronFacts.

(** Started at second 100 of the day, asked at second 1000: the tick of
    second 1800 is the next run. *)
Lemma sync_starts_every_30_minutes_witness :
  100 <= 1000 /\ exists s, 1000 <= s < 1000 + 1800 /\ sync_starts 100 s = true.
Proof.
  assert (H : 100 <= 1000) by lia.
  split; [exact H|exact (sync_starts_every_30_minutes 100 1000 H)].
Defined.
End CronWitnesses.
